(** * owl-eval: the pairwise-comparison aggregation and inference core

    A shallow embedding of
      - [matrix-game-eval/evaluation/ab_testing.py]  (comparison records,
        [ABTestingFramework.create_comparison]),
      - [matrix-game-eval/analysis/analyzer.py]      ([EvaluationAnalyzer]),
      - [eval/analysis/statistical_tests.py]         ([StatisticalTests]),
    with the properties of the specification stated over it.

    Conventions.  Python [int] is [Z]; Python and numpy floating point
    numbers are exact rationals [Q] (rounding is not modelled), compared
    with [==]; a [dict] that is only read by key is a [gmap]; a [dict] whose
    iteration order reaches the output is an insertion-ordered association
    list ([odict]); code that can raise returns in [except]. *)

From Stdlib Require Import ZArith QArith Qminmax Qabs Qround Lqa Ascii String List
  Sorted Bool Lia.
From stdpp Require Import base option list gmap strings.
Import ListNotations.

Local Open Scope string_scope.
Local Open Scope list_scope.

(** ** Python runtime: exceptions, values, ordered dictionaries *)

Module Py.

Inductive exception : Type :=
| KeyError
| TypeError
| ValueError
| IndexError
| ZeroDivisionError
| PerfectSeparationError.

Inductive except (A : Type) : Type :=
| Ok (a : A)
| Raise (e : exception).

Arguments Ok {A} a.
Arguments Raise {A} e.

#[export] Instance except_ret : MRet except := fun _ a => Ok a.

#[export] Instance except_bind : MBind except := fun _ _ f m =>
  match m with
  | Ok a => f a
  | Raise e => Raise e
  end.

(** [for x in xs: acc = body(acc, x)], stopping at the first exception. *)
Fixpoint for_each {A S : Type} (body : S -> A -> except S) (xs : list A) (acc : S)
  : except S :=
  match xs with
  | [] => Ok acc
  | x :: xs' =>
      match body acc x with
      | Ok acc' => for_each body xs' acc'
      | Raise e => Raise e
      end
  end.

(** [[f(x) for x in xs]], stopping at the first exception. *)
Fixpoint map_except {A B : Type} (f : A -> except B) (xs : list A)
  : except (list B) :=
  match xs with
  | [] => Ok []
  | x :: xs' =>
      match f x with
      | Ok y =>
          match map_except f xs' with
          | Ok ys => Ok (y :: ys)
          | Raise e => Raise e
          end
      | Raise e => Raise e
      end
  end.

(** [xs[i]] *)
Definition list_item {A : Type} (xs : list A) (i : nat) : except A :=
  match nth_error xs i with
  | Some x => Ok x
  | None => Raise IndexError
  end.

(** [enumerate(xs)] *)
Definition enumerate {A : Type} (xs : list A) : list (nat * A) :=
  combine (seq 0 (length xs)) xs.

(** [a / b] on Python floats. *)
Definition float_truediv (a b : Q) : except Q :=
  if Qeq_bool b 0 then Raise ZeroDivisionError else Ok (a / b)%Q.

(** The values the expression statement of the kappa loop handles: [None]
    (what [list.append] returns) and numbers. *)
Inductive value : Type :=
| PyNone
| PyNum (q : Q).

(** [x / y]: defined on numbers, [TypeError] when an operand is [None]. *)
Definition truediv (x y : value) : except value :=
  match x, y with
  | PyNum a, PyNum b => Ok (PyNum (a / b))
  | _, _ => Raise TypeError
  end.

(** [Any], as far as a scenario dictionary holds it: strings, numbers and
    the list of action dictionaries. *)
Inductive any : Type :=
| AStr (s : string)
| AInt (n : Z)
| AFloat (q : Q)
| AActions (actions : list (list (string * string))).

(** [l.append(x)] mutates [l] and evaluates to [None]. *)
Definition list_append {A : Type} (l : list A) (x : A) : list A * value :=
  (l ++ [x], PyNone).

Section OrderedDict.
Context {V : Type}.

(** A [dict]: keys in insertion order, each key once. *)
Definition odict : Type := list (string * V).

Fixpoint od_get (k : string) (d : odict) : option V :=
  match d with
  | [] => None
  | (k', v) :: d' => if String.eqb k k' then Some v else od_get k d'
  end.

(** [d[k] = v]: in place when [k] is present, at the end otherwise. *)
Fixpoint od_set (k : string) (v : V) (d : odict) : odict :=
  match d with
  | [] => [(k, v)]
  | (k', v') :: d' =>
      if String.eqb k k' then (k, v) :: d' else (k', v') :: od_set k v d'
  end.

(** [d[k]] as an expression. *)
Definition od_item (k : string) (d : odict) : except V :=
  match od_get k d with
  | Some v => Ok v
  | None => Raise KeyError
  end.

Definition od_keys (d : odict) : list string := map fst d.

Definition od_wf (d : odict) : Prop := NoDup (od_keys d).
End OrderedDict.

Arguments odict V : clear implicits.

End Py.

Import Py.

(** ** numpy reductions, over exact rationals *)

Module Numpy.

Definition sum (xs : list Q) : Q := fold_right Qplus 0%Q xs.

Definition of_nat (n : nat) : Q := inject_Z (Z.of_nat n).

(** [np.mean(xs)] of a non-empty [xs].  (Of an empty array numpy returns
    [nan]; the quotient below is then 0, so what is stated of a mean is
    stated of non-empty lists.) *)
Definition mean (xs : list Q) : Q := (sum xs / of_nat (length xs))%Q.

(** The [int64] scalar an operation with mathematical result [z] leaves:
    numpy integers wrap around. *)
Definition int64 (z : Z) : Z := ((z + 2 ^ 63) mod 2 ^ 64 - 2 ^ 63)%Z.

(** [np.std(xs)] with the default [ddof=0]: the square root of the mean of
    the squared deviations.  The square root itself is a parameter. *)
Definition std (sqrt : Q -> Q) (xs : list Q) : Q :=
  sqrt (mean (map (fun x => (Qabs (x - mean xs)) ^ 2)%Q xs)).

Definition ltb (x y : Q) : bool := negb (Qle_bool y x).
Definition leb (x y : Q) : bool := Qle_bool x y.

(** A float that may be infinite or undefined, where the code produces
    [np.inf] or divides numpy scalars by zero. *)
Inductive float : Type :=
| Finite (q : Q)
| PosInf
| NegInf
| NaN.

(** Division of numpy scalars: no exception, [inf] or [nan] on a zero
    divisor. *)
Definition div (a b : Q) : float :=
  if Qeq_bool b 0 then
    if Qeq_bool a 0 then NaN else if ltb 0 a then PosInf else NegInf
  else Finite (a / b).

(** [np.log], given the logarithm on positive rationals. *)
Definition log (ln : Q -> Q) (x : float) : float :=
  match x with
  | Finite q => if ltb 0 q then Finite (ln q) else if Qeq_bool q 0 then NegInf else NaN
  | PosInf => PosInf
  | NegInf => NaN
  | NaN => NaN
  end.

Definition sub (x y : float) : float :=
  match x, y with
  | Finite a, Finite b => Finite (a - b)
  | NaN, _ | _, NaN => NaN
  | PosInf, PosInf | NegInf, NegInf => NaN
  | PosInf, _ => PosInf
  | NegInf, _ => NegInf
  | Finite _, PosInf => NegInf
  | Finite _, NegInf => PosInf
  end.

Fixpoint insert_sorted (x : Q) (xs : list Q) : list Q :=
  match xs with
  | [] => [x]
  | y :: ys => if leb x y then x :: xs else y :: insert_sorted x ys
  end.

(** [np.sort] *)
Definition sort (xs : list Q) : list Q := fold_right insert_sorted [] xs.

(** [np.percentile(xs, q)], linear interpolation between the two closest
    ranks, for a non-empty [xs]. *)
Definition percentile (xs : list Q) (q : Q) : Q :=
  let sorted := sort xs in
  let pos := (q / 100 * of_nat (length xs - 1))%Q in
  let lo := Qfloor pos in
  let frac := (pos - inject_Z lo)%Q in
  let below := nth (Z.to_nat lo) sorted 0%Q in
  let above := nth (Z.to_nat lo + 1) sorted below in
  (below + (above - below) * frac)%Q.

End Numpy.

(** ** evaluation/ab_testing.py *)

Module ABTesting.

Record VideoComparison : Type := {
  comparison_id : string;
  scenario_id : any;
  model_a_name : string;
  model_b_name : string;
  model_a_video_path : string;
  model_b_video_path : string;
  action_sequence : any;
  scenario_metadata : gmap string any;
  randomized_labels : gmap string string;
  created_at : Z
}.

Record EvaluationResult : Type := {
  result_id : string;
  result_comparison_id : string;
  evaluator_id : string;
  dimension_scores : odict string;
  detailed_ratings : odict Z;
  completion_time_seconds : Q;
  submitted_at : Z
}.

(** What one call draws from its environment: [uuid.uuid4()],
    [random.random()] and [datetime.now()]. *)
Record ambient : Type := {
  uuid4 : string;
  random_random : Q;
  datetime_now : Z
}.

Fixpoint replace (old new : Ascii.ascii) (s : string) : string :=
  match s with
  | EmptyString => EmptyString
  | String c s' =>
      String (if Ascii.eqb c old then new else c) (replace old new s')
  end.

(** [os.path.join(dir, name)] for a relative [name]. *)
Definition path_join (dir name : string) : string :=
  String.append dir (String.append "/" name).

Section Framework.
Variables image video : Type.

(** [BaseWorldModel], as far as [create_comparison] uses it. *)
Record BaseWorldModel : Type := {
  model_name : string;
  generate_video : image -> any -> any -> except video
}.

(** The directories under [output_dir], as maps from path to content; a
    comparison file holds the JSON of [to_dict()]. *)
Record ABTestingFramework : Type := {
  output_dir : string;
  videos : gmap string video;
  comparisons : gmap string VideoComparison;
  results : gmap string EvaluationResult
}.

Definition videos_dir (fw : ABTestingFramework) : string :=
  path_join (output_dir fw) "videos".

Definition comparisons_dir (fw : ABTestingFramework) : string :=
  path_join (output_dir fw) "comparisons".

Definition comparison_path (fw : ABTestingFramework) (id : string) : string :=
  path_join (comparisons_dir fw) (String.append id ".json").

Definition _save_video (fw : ABTestingFramework) (frames : video)
    (output_path : string) : ABTestingFramework :=
  {| output_dir := output_dir fw;
     videos := <[output_path := frames]> (videos fw);
     comparisons := comparisons fw;
     results := results fw |}.

Definition _save_comparison (fw : ABTestingFramework) (c : VideoComparison)
  : ABTestingFramework :=
  {| output_dir := output_dir fw;
     videos := videos fw;
     comparisons := <[comparison_path fw (comparison_id c) := c]> (comparisons fw);
     results := results fw |}.

(** Lines 247-262.  A file is named by the path as it is written: this is
    the file system's answer for an [id] that is a plain file name (no
    path separator), which is what the ids drawn by [uuid4] are. *)
Definition get_comparison (fw : ABTestingFramework) (id : string)
  : option VideoComparison :=
  comparisons fw !! comparison_path fw id.

(** [scenario[key]] *)
Definition scenario_item (scenario : gmap string any) (key : string) : except any :=
  match scenario !! key with
  | Some v => Ok v
  | None => Raise KeyError
  end.

(** Lines 86-165. *)
Definition create_comparison (fw : ABTestingFramework) (env : ambient)
    (model_a model_b : BaseWorldModel) (scenario : gmap string any)
    (reference_image : image) (randomize_order : bool)
  : except (VideoComparison * ABTestingFramework) :=
  let comparison_id := uuid4 env in
  actions ← scenario_item scenario "actions";
  frames ← scenario_item scenario "duration_frames";
  video_a ← generate_video model_a reference_image actions frames;
  actions' ← scenario_item scenario "actions";
  frames' ← scenario_item scenario "duration_frames";
  video_b ← generate_video model_b reference_image actions' frames';
  let video_a_path := path_join (videos_dir fw)
    (String.append comparison_id (String.append "_model_a_"
      (String.append (replace "/"%char "_"%char (model_name model_a)) ".mp4"))) in
  let video_b_path := path_join (videos_dir fw)
    (String.append comparison_id (String.append "_model_b_"
      (String.append (replace "/"%char "_"%char (model_name model_b)) ".mp4"))) in
  let fw1 := _save_video fw video_a video_a_path in
  let fw2 := _save_video fw1 video_b video_b_path in
  let '(randomized_labels, display_video_a, display_video_b) :=
    if randomize_order && Numpy.ltb (random_random env) (1 # 2) then
      (<["B" := model_name model_a]> (<["A" := model_name model_b]> ∅),
       video_b_path, video_a_path)
    else
      (<["B" := model_name model_b]> (<["A" := model_name model_a]> ∅),
       video_a_path, video_b_path) in
  name ← scenario_item scenario "name";
  actions'' ← scenario_item scenario "actions";
  let comparison :=
    {| comparison_id := comparison_id;
       scenario_id := default name (scenario !! "id");
       model_a_name := model_name model_a;
       model_b_name := model_name model_b;
       model_a_video_path := display_video_a;
       model_b_video_path := display_video_b;
       action_sequence := actions'';
       scenario_metadata := scenario;
       randomized_labels := randomized_labels;
       created_at := datetime_now env |} in
  Ok (comparison, _save_comparison fw2 comparison).
End Framework.

End ABTesting.

Import ABTesting.

(** ** analysis/analyzer.py *)

Module Analyzer.

(** [model_scores = defaultdict(lambda: defaultdict(list))] *)
Definition scores_table : Type := odict (odict (list Q)).

(** [model_scores[model][dimension]], read without inserting. *)
Definition cell (ms : scores_table) (model dimension : string) : list Q :=
  match od_get model ms with
  | Some dims => default [] (od_get dimension dims)
  | None => []
  end.

(** [model_scores[model][dimension].append(x)]: both default dictionaries
    create the missing entry, at the end of their key order. *)
Definition dd_append (model dimension : string) (x : Q) (ms : scores_table)
  : scores_table :=
  let dims := default [] (od_get model ms) in
  let scores := default [] (od_get dimension dims) in
  od_set model (od_set dimension (scores ++ [x]) dims) ms.

(** Lines 80-88: one [(dimension, choice)] item of one result. *)
Definition score_choice (model_a_actual model_b_actual : string)
    (ms : scores_table) (item : string * string) : scores_table :=
  let '(dimension, choice) := item in
  if String.eqb choice "A" then
    dd_append model_b_actual dimension 0%Q
      (dd_append model_a_actual dimension 1%Q ms)
  else if String.eqb choice "B" then
    dd_append model_b_actual dimension 1%Q
      (dd_append model_a_actual dimension 0%Q ms)
  else
    dd_append model_b_actual dimension (1 # 2)%Q
      (dd_append model_a_actual dimension (1 # 2)%Q ms).

(** [comparison.randomized_labels[label]] *)
Definition label_item (c : VideoComparison) (label : string) : except string :=
  match randomized_labels c !! label with
  | Some m => Ok m
  | None => Raise KeyError
  end.

(** Lines 69-88: the body of the loop over [self.results]. *)
Definition score_result (comparisons : gmap string VideoComparison)
    (ms : scores_table) (result : EvaluationResult) : except scores_table :=
  match comparisons !! result_comparison_id result with
  | None => Ok ms
  | Some comparison =>
      model_a_actual ← label_item comparison "A";
      model_b_actual ← label_item comparison "B";
      Ok (fold_left (score_choice model_a_actual model_b_actual)
            (dimension_scores result) ms)
  end.

Definition collect_scores (comparisons : gmap string VideoComparison)
    (results : list EvaluationResult) : except scores_table :=
  for_each (score_result comparisons) results [].

(** One row of the returned [DataFrame]. *)
Record performance_row : Type := {
  model : string;
  dimension : string;
  win_rate : Q;
  num_evaluations : nat;
  std_error : Q
}.

Section Performance.
(** [np.sqrt] *)
Variable np_sqrt : Q -> Q.

Definition make_row (m d : string) (scores : list Q) : performance_row :=
  {| model := m;
     dimension := d;
     win_rate := Numpy.mean scores;
     num_evaluations := length scores;
     std_error := (Numpy.std np_sqrt scores
                   / np_sqrt (Numpy.of_nat (length scores)))%Q |}.

(** Lines 91-102. *)
Definition performance_data (ms : scores_table) : list performance_row :=
  flat_map (fun '(m, dims) =>
    flat_map (fun '(d, scores) =>
      match scores with
      | [] => []
      | _ :: _ => [make_row m d scores]
      end) dims) ms.

Definition calculate_model_performance
    (comparisons : gmap string VideoComparison)
    (results : list EvaluationResult) : except (list performance_row) :=
  ms ← collect_scores comparisons results;
  Ok (performance_data ms).
End Performance.

(** Both levels of the table keep their keys distinct. *)
Definition table_wf (ms : scores_table) : Prop :=
  od_wf ms /\ Forall (fun entry => od_wf (snd entry)) ms.

(** *** Fleiss' kappa *)

Definition canonical_dimensions : list string :=
  ["overall_quality"; "controllability"; "visual_quality";
   "temporal_consistency"].

(** Lines 114-116: [comparison_results[result.comparison_id].append(result)] *)
Definition group_result (acc : odict (list EvaluationResult))
    (result : EvaluationResult) : odict (list EvaluationResult) :=
  let id := result_comparison_id result in
  od_set id (default [] (od_get id acc) ++ [result]) acc.

Definition group_results (results : list EvaluationResult)
  : odict (list EvaluationResult) :=
  fold_left group_result results [].

(** Line 130 *)
Definition initial_votes : odict Z := [("A", 0%Z); ("B", 0%Z); ("Equal", 0%Z)].

(** Lines 132-133 *)
Definition cast_vote (dimension : string) (votes : odict Z)
    (result : EvaluationResult) : except (odict Z) :=
  let choice := default "Equal" (od_get dimension (dimension_scores result)) in
  n ← od_item choice votes;
  Ok (od_set choice (n + 1)%Z votes).

(** Lines 130-135: the row of one comparison. *)
Definition rating_row (dimension : string) (results : list EvaluationResult)
  : except (list Z) :=
  votes ← for_each (cast_vote dimension) results initial_votes;
  a ← od_item "A" votes;
  b ← od_item "B" votes;
  e ← od_item "Equal" votes;
  Ok [a; b; e].

(** Lines 125-135: the body of the loop over [comparison_results.items()]. *)
Definition add_rating_row (dimension : string) (rating_matrix : list (list Z))
    (entry : string * list EvaluationResult) : except (list (list Z)) :=
  let '(comp_id, results) := entry in
  if (length results <? 2)%nat then Ok rating_matrix
  else
    row ← rating_row dimension results;
    Ok (rating_matrix ++ [row]).

Definition build_rating_matrix (dimension : string)
    (comparison_results : odict (list EvaluationResult))
  : except (list (list Z)) :=
  for_each (add_rating_row dimension) comparison_results [].

Definition row_sum (row : list Z) : Z := fold_right Z.add 0%Z row.

(** [rating_array.sum(axis=0)] *)
Definition column_sums (rating_array : list (list Z)) : list Z :=
  map (fun j => row_sum (map (fun row => nth j row 0%Z) rating_array))
      (seq 0 (length (hd [] rating_array))).

(** Lines 150-153: one pass of the loop over the subjects.  The statement
    is [P_i.append(...) / (n_raters * (n_raters - 1))]: the appended value
    is the undivided numerator, and the quotient is taken of what [append]
    returns. *)
Definition agreement_step (n_raters : Z) (P_i : list Q) (row : list Z)
  : except (list Q) :=
  let '(P_i', returned) :=
    list_append P_i (inject_Z (row_sum (map (fun x => x ^ 2)%Z row) - n_raters)) in
  _ ← truediv returned (PyNum (inject_Z (n_raters * (n_raters - 1))));
  Ok P_i'.

(** Lines 138-160, for a non-empty [rating_matrix]. *)
Definition fleiss_kappa (rating_array : list (list Z)) : except Q :=
  let n_raters := row_sum (hd [] rating_array) in
  let n_subjects := Z.of_nat (length rating_array) in
  let p_j := map (fun s => inject_Z s / inject_Z (n_raters * n_subjects))%Q
                 (column_sums rating_array) in
  let P_e_bar := Numpy.sum (map (fun p => p ^ 2)%Q p_j) in
  P_i ← for_each (agreement_step n_raters) rating_array [];
  let P_bar := Numpy.mean P_i in
  Ok (if Numpy.ltb P_e_bar 1 then ((P_bar - P_e_bar) / (1 - P_e_bar))%Q
      else 1%Q).

(** Lines 121-162: the body of the loop over the dimensions. *)
Definition kappa_for_dimension
    (comparison_results : odict (list EvaluationResult))
    (kappa_scores : odict Q) (dimension : string) : except (odict Q) :=
  rating_matrix ← build_rating_matrix dimension comparison_results;
  match rating_matrix with
  | [] => Ok kappa_scores
  | _ :: _ =>
      kappa ← fleiss_kappa rating_matrix;
      Ok (od_set dimension kappa kappa_scores)
  end.

Definition calculate_inter_rater_reliability (results : list EvaluationResult)
  : except (odict Q) :=
  for_each (kappa_for_dimension (group_results results)) canonical_dimensions [].

End Analyzer.

(** ** scipy.stats, where a concrete instance is wanted *)

Module Scipy.

Fixpoint choose (n k : nat) : Z :=
  match n, k with
  | _, O => 1
  | O, S _ => 0
  | S n', S k' => choose n' k' + choose n' k
  end%Z.

(** The binomial probabilities at [p = 0.5]. *)
Definition pmf (n : nat) (i : nat) : Q :=
  (inject_Z (choose n i) / inject_Z (2 ^ Z.of_nat n))%Q.

(** [stats.binom_test(x, n, p=0.5)], two-sided: [x] is truncated to an
    integer; the p-value is 1 at the centre [x = n / 2], and otherwise the
    total probability of the outcomes no more likely than [x]. *)
Definition binom_test (x : Q) (n : Z) : except Q :=
  let xi := Qfloor x in
  if (xi <? 0)%Z || (n <? xi)%Z || (n <? 1)%Z then Raise ValueError
  else if (2 * xi =? n)%Z then Ok 1%Q
  else
    let nn := Z.to_nat n in
    let d := pmf nn (Z.to_nat xi) in
    let tail := List.filter (fun i => Numpy.leb (pmf nn i) d) (seq 0 (S nn)) in
    Ok (Qmin 1 (Numpy.sum (map (pmf nn) tail))).

End Scipy.

(** ** analysis/statistical_tests.py *)

Module StatisticalTests.

(** *** binomial_test *)

Module BinomialTest.

Record result : Type := {
  p_value : Q;
  win_rate_a : Q;
  ci_lower : Q;
  ci_upper : Q;
  significant : bool
}.

Section WithScipy.
(** [stats.binom_test(k, n, p=0.5, alternative='two-sided')] *)
Variable binom_test : Q -> Z -> except Q.
(** [stats.binom.interval(alpha, n, p)] *)
Variable binom_interval : Q -> Z -> Q -> Q * Q.

(** The [n] and [k] of lines 35-41. *)
Definition trials (wins_a wins_b ties : Z) (exclude_ties : bool) : Z :=
  if exclude_ties then (wins_a + wins_b)%Z else (wins_a + wins_b + ties)%Z.

Definition successes (wins_a wins_b ties : Z) (exclude_ties : bool) : Q :=
  if exclude_ties then inject_Z wins_a
  else (inject_Z wins_a + inject_Z ties / 2)%Q.

Definition binomial_test (wins_a wins_b ties : Z) (exclude_ties : bool)
  : except result :=
  let n := trials wins_a wins_b ties exclude_ties in
  let k := successes wins_a wins_b ties exclude_ties in
  if (n =? 0)%Z then
    Ok {| p_value := 1; win_rate_a := 1 # 2; ci_lower := 0; ci_upper := 1;
          significant := false |}
  else
    p ← binom_test k n;
    let win_rate := (k / inject_Z n)%Q in
    let ci := binom_interval (95 # 100) n win_rate in
    Ok {| p_value := p;
          win_rate_a := win_rate;
          ci_lower := (fst ci / inject_Z n)%Q;
          ci_upper := (snd ci / inject_Z n)%Q;
          significant := Numpy.ltb p (5 # 100) |}.
End WithScipy.

End BinomialTest.

(** *** mcnemar_test *)

Module McNemar.

(** The first return has no ['odds_ratio'] key. *)
Record result : Type := {
  statistic : Q;
  p_value : Q;
  significant : bool;
  odds_ratio : option Numpy.float
}.

Section WithScipy.
(** [stats.binom_test(x, n, p=0.5)] *)
Variable binom_test : Q -> Z -> except Q.
(** [stats.chi2.sf(x, df=1)] *)
Variable chi2_sf : Q -> Q.

(** The entries are the [int64] scalars of the array numpy builds from
    Python integers: their sums, differences, absolute values and squares
    wrap around, and [/] gives a float. *)
Definition mcnemar_test (contingency_table : list (list Z)) : except result :=
  match contingency_table with
  | [[_; b]; [c; _]] =>
      let n := Numpy.int64 (b + c) in
      if (n =? 0)%Z then
        Ok {| statistic := 0; p_value := 1; significant := false;
              odds_ratio := None |}
      else
        let odds := if (0 <? c)%Z then Numpy.Finite (inject_Z b / inject_Z c)
                    else Numpy.PosInf in
        if (n <? 25)%Z then
          p ← binom_test (inject_Z b) n;
          Ok {| statistic :=
                  (inject_Z (Numpy.int64 (Numpy.int64 (b - c) ^ 2))
                   / inject_Z n)%Q;
                p_value := p;
                significant := Numpy.ltb p (5 # 100);
                odds_ratio := Some odds |}
        else
          let distance := Numpy.int64 (Z.abs (Numpy.int64 (b - c))) in
          let statistic :=
            (inject_Z (Numpy.int64 (Numpy.int64 (distance - 1) ^ 2))
             / inject_Z n)%Q in
          let p := chi2_sf statistic in
          Ok {| statistic := statistic;
                p_value := p;
                significant := Numpy.ltb p (5 # 100);
                odds_ratio := Some odds |}
  | _ => Raise ValueError
  end.
End WithScipy.

End McNemar.

(** *** bootstrap_confidence_interval *)

Module Bootstrap.

Record result : Type := {
  mean_diff : Q;
  ci_lower : Q;
  ci_upper : Q;
  p_value : Q;
  significant : bool
}.

Section WithGenerator.
(** The state of numpy's process-wide generator, the one [np.random.choice]
    draws from and advances. *)
Variable RandomState : Type.
(** [np.random.choice(a, size=size, replace=True)] *)
Variable np_random_choice : list Q -> nat -> RandomState -> list Q * RandomState.

(** Lines 140-145: one pass of the resampling loop. *)
Definition resample_once (scores_a scores_b : list Q)
    (st : list Q * RandomState) : list Q * RandomState :=
  let '(bootstrap_diffs, g) := st in
  let '(sample_a, g1) := np_random_choice scores_a (length scores_a) g in
  let '(sample_b, g2) := np_random_choice scores_b (length scores_b) g1 in
  (bootstrap_diffs ++ [(Numpy.mean sample_a - Numpy.mean sample_b)%Q], g2).

Fixpoint resample (scores_a scores_b : list Q) (n_bootstrap : nat)
    (st : list Q * RandomState) : list Q * RandomState :=
  match n_bootstrap with
  | O => st
  | S n => resample scores_a scores_b n (resample_once scores_a scores_b st)
  end.

(** [np.mean(mask)] for a boolean mask. *)
Definition fraction (mask : list bool) : Q :=
  (Numpy.of_nat (length (List.filter id mask)) / Numpy.of_nat (length mask))%Q.

(** The function takes the generator state it finds and returns the one it
    leaves behind. *)
Definition bootstrap_confidence_interval (scores_a scores_b : list Q)
    (n_bootstrap : nat) (confidence_level : Q) (g : RandomState)
  : result * RandomState :=
  let original_diff := (Numpy.mean scores_a - Numpy.mean scores_b)%Q in
  let '(bootstrap_diffs, g') := resample scores_a scores_b n_bootstrap ([], g) in
  let alpha := (1 - confidence_level)%Q in
  let lower := Numpy.percentile bootstrap_diffs (alpha / 2 * 100)%Q in
  let upper := Numpy.percentile bootstrap_diffs ((1 - alpha / 2) * 100)%Q in
  let p :=
    if Numpy.ltb 0 original_diff then
      (2 * fraction (map (fun d => Numpy.leb d 0) bootstrap_diffs))%Q
    else
      (2 * fraction (map (fun d => Numpy.leb 0 d) bootstrap_diffs))%Q in
  ({| mean_diff := original_diff;
      ci_lower := lower;
      ci_upper := upper;
      p_value := Qmin p 1;
      significant := Numpy.ltb 0 lower || Numpy.ltb upper 0 |}, g').

(** What one pass does to the generator alone. *)
Definition advance_once (scores_a scores_b : list Q) (g : RandomState)
  : RandomState :=
  snd (np_random_choice scores_b (length scores_b)
         (snd (np_random_choice scores_a (length scores_a) g))).
End WithGenerator.

(** A small linear congruential generator standing in for numpy's
    Mersenne Twister: each draw indexes the population by the state and
    steps the state. *)
Definition lcg_next (g : Z) : Z := ((1103515245 * g + 12345) mod 2147483648)%Z.

Fixpoint lcg_choice (a : list Q) (size : nat) (g : Z) : list Q * Z :=
  match size with
  | O => ([], g)
  | S size' =>
      let x := nth (Z.to_nat ((g / 65536) mod Z.of_nat (length a))) a 0%Q in
      let '(rest, g') := lcg_choice a size' (lcg_next g) in
      (x :: rest, g')
  end.

End Bootstrap.

(** *** bradley_terry_model *)

Module BradleyTerry.

(** One row of the [comparison_results] frame; [weight] is [None] when the
    frame has no such column. *)
Record row : Type := {
  model_a : string;
  model_b : string;
  winner : string;
  weight : option Q
}.

(** The first return has no ['win_probability'] key. *)
Record entry : Type := {
  strength : Numpy.float;
  se : Numpy.float;
  win_probability : option Q
}.

Fixpoint insert_model (m : string) (ms : list string) : list string :=
  match ms with
  | [] => [m]
  | x :: xs =>
      if String.eqb m x then ms
      else if String.ltb m x then m :: ms
      else x :: insert_model m xs
  end.

(** Lines 186-189: [sorted(set(... + ...))] *)
Definition models_of (comparison_results : list row) : list string :=
  fold_right insert_model []
    (map model_a comparison_results ++ map model_b comparison_results).

Fixpoint index_of (m : string) (ms : list string) : option nat :=
  match ms with
  | [] => None
  | x :: xs => if String.eqb m x then Some O else S <$> index_of m xs
  end.

(** [model_to_idx[name]] *)
Definition model_to_idx (models : list string) (name : string) : except nat :=
  match index_of name models with
  | Some i => Ok i
  | None => Raise KeyError
  end.

(** Lines 206-210 *)
Definition contrast (n_models idx_a idx_b : nat) : list Q :=
  let zeros := repeat 0%Q (n_models - 1) in
  let with_a := if (0 <? idx_a)%nat then <[(idx_a - 1)%nat := 1%Q]> zeros else zeros in
  if (0 <? idx_b)%nat then <[(idx_b - 1)%nat := (-1)%Q]> with_a else with_a.

Record design : Type := {
  comparisons : list (list Q);
  outcomes : list Q;
  weights : list Q
}.

(** Lines 198-214: the body of the loop over the rows. *)
Definition add_comparison (models : list string) (acc : design) (r : row)
  : except design :=
  if String.eqb (winner r) "tie" then Ok acc
  else
    idx_a ← model_to_idx models (model_a r);
    idx_b ← model_to_idx models (model_b r);
    Ok {| comparisons := comparisons acc ++ [contrast (length models) idx_a idx_b];
          outcomes := outcomes acc ++ [if String.eqb (winner r) "a" then 1%Q else 0%Q];
          weights := weights acc ++ [default 1%Q (weight r)] |}.

(** [target = np.zeros(n); target[1:] = source]: the source must have the
    length of the slice, or length one. *)
Definition zeros_with_tail (n : nat) (source : list Q) : except (list Q) :=
  if (length source =? n - 1)%nat then Ok (0%Q :: source)
  else match source with
       | [x] => Ok (0%Q :: repeat x (n - 1))
       | _ => Raise ValueError
       end.

Definition bool_count {A : Type} (f : A -> bool) (xs : list A) : Z :=
  Z.of_nat (length (List.filter f xs)).

Section WithLibraries.
(** [sm.GLM(y, sm.add_constant(X), family=Binomial(), freq_weights=w).fit()],
    as its [params] and [bse], or the exception it raises. *)
Variable glm_fit : list (list Q) -> list Q -> list Q -> except (list Q * list Q).
(** [np.exp] and [np.log] on finite, respectively positive, arguments. *)
Variable np_exp : Q -> Q.
Variable np_log : Q -> Q.

(** Lines 225-250: the [try] block. *)
Definition fitted (models : list string) (d : design) : except (odict entry) :=
  '(params, bse) ← glm_fit (comparisons d) (outcomes d) (weights d);
  strengths ← zeros_with_tail (length models) (tl params);
  errors ← zeros_with_tail (length models) (tl bse);
  let avg_strength := Numpy.mean strengths in
  let normalized_strengths := map (fun s => s - avg_strength)%Q strengths in
  for_each (fun results '(i, model_name) =>
      s ← list_item normalized_strengths i;
      e ← list_item errors i;
      Ok (od_set model_name
            {| strength := Numpy.Finite s;
               se := Numpy.Finite e;
               win_probability := Some (1 / (1 + np_exp (- s)))%Q |}
            results))
    (enumerate models) [].

(** Lines 257-266 *)
Definition win_rate (comparison_results : list row) (model : string) : Q :=
  let wins := bool_count (fun r =>
      (String.eqb (model_a r) model && String.eqb (winner r) "a")
      || (String.eqb (model_b r) model && String.eqb (winner r) "b"))
    comparison_results in
  let total := bool_count (fun r =>
      String.eqb (model_a r) model || String.eqb (model_b r) model)
    comparison_results in
  (inject_Z wins / inject_Z (Z.max total 1))%Q.

(** Lines 269-276: one entry of the returned comprehension.  [rate] is a
    Python float, [avg_rate] a numpy scalar. *)
Definition fallback_entry (avg_rate : Q) (results : odict entry)
    (item : string * Q) : except (odict entry) :=
  let '(model, rate) := item in
  odds ← float_truediv rate (1 - rate)%Q;
  Ok (od_set model
        {| strength := Numpy.sub (Numpy.log np_log (Numpy.Finite odds))
                         (Numpy.log np_log (Numpy.div avg_rate (1 - avg_rate)%Q));
           se := Numpy.PosInf;
           win_probability := Some rate |}
        results).

(** Lines 252-276: the [except] block. *)
Definition fallback (models : list string) (comparison_results : list row)
  : except (odict entry) :=
  let win_rates := fold_left (fun acc model =>
      od_set model (win_rate comparison_results model) acc) models [] in
  let avg_rate := Numpy.mean (map snd win_rates) in
  for_each (fallback_entry avg_rate) win_rates [].

Definition bradley_terry_model (comparison_results : list row)
  : except (odict entry) :=
  let models := models_of comparison_results in
  d ← for_each (add_comparison models) comparison_results
        {| comparisons := []; outcomes := []; weights := [] |};
  match comparisons d with
  | [] =>
      Ok (fold_left (fun acc model =>
            od_set model {| strength := Numpy.Finite 0; se := Numpy.PosInf;
                            win_probability := None |} acc) models [])
  | _ :: _ =>
      match fitted models d with
      | Ok results => Ok results
      | Raise _ => fallback models comparison_results
      end
  end.
End WithLibraries.

End BradleyTerry.

(** *** multiple_comparison_correction *)

Module Correction.

Record entry : Type := {
  original_p : Q;
  corrected_p : Q;
  significant : bool;
  method : string
}.

Section WithStatsmodels.
(** [multipletests(pvals, method=method)] at its default [alpha=0.05], as
    the [reject] and [pvals_corrected] arrays. *)
Variable multipletests : list Q -> string -> except (list bool * list Q).

Definition multiple_comparison_correction (p_values : odict Q)
    (method : string) : except (odict entry) :=
  let test_names := od_keys p_values in
  p_vals ← map_except (fun name => od_item name p_values) test_names;
  '(rejected, corrected) ← multipletests p_vals method;
  for_each (fun results '(i, name) =>
      p ← list_item p_vals i;
      c ← list_item corrected i;
      r ← list_item rejected i;
      Ok (od_set name
            {| original_p := p; corrected_p := c; significant := r;
               method := method |}
            results))
    (enumerate test_names) [].
End WithStatsmodels.

(** The entry the loop stores for a raw p-value [p], the library having
    corrected it to [f p] and decided [g p]. *)
Definition corrected_entry (f : Q -> Q) (g : Q -> bool) (name_of_method : string)
    (p : Q) : entry :=
  {| original_p := p; corrected_p := f p; significant := g p;
     method := name_of_method |}.

Definition store (f : Q -> Q) (g : Q -> bool) (name_of_method : string)
    (results : odict entry) (item : string * Q) : odict entry :=
  od_set (fst item) (corrected_entry f g name_of_method (snd item)) results.

(** statsmodels' Bonferroni branch: [alphacBonf = alphaf / float(ntests)],
    which raises for no test at all, [reject = pvals <= alphacBonf],
    [pvals_corrected = pvals * float(ntests)], clipped at 1.  The decision
    and the corrected value are two computations on the raw p-value;
    nothing is stated that derives one from the other. *)
Definition bonferroni (pvals : list Q) : except (list bool * list Q) :=
  let ntests := Numpy.of_nat (length pvals) in
  alphacBonf ← float_truediv (5 # 100) ntests;
  Ok (map (fun p => Numpy.leb p alphacBonf) pvals,
      map (fun p => if Numpy.ltb 1 (p * ntests)%Q then 1%Q else (p * ntests)%Q)
        pvals).

End Correction.

End StatisticalTests.

(** ** The specification's vocabulary *)

Module Spec.

(** The outcomes of one choice, for the model behind label "A" and for the
    model behind label "B": a win and a loss for "A", the inverse for "B",
    a tie for "Equal" (the last case is the remaining one). *)
Definition outcomes (choice : string) : Q * Q :=
  if String.eqb choice "A" then (1, 0)%Q
  else if String.eqb choice "B" then (0, 1)%Q
  else (1 # 2, 1 # 2)%Q.

(** What one [(dimension, choice)] item of an evaluation contributes to the
    cell of [model] and [dimension], the comparison's labels being [a] and
    [b]. *)
Definition item_outcomes (a b model dimension : string)
    (item : string * string) : list Q :=
  let '(d, choice) := item in
  if String.eqb d dimension then
    (if String.eqb a model then [fst (outcomes choice)] else [])
    ++ (if String.eqb b model then [snd (outcomes choice)] else [])
  else [].

Definition result_outcomes (comparisons : gmap string VideoComparison)
    (model dimension : string) (r : EvaluationResult) : list Q :=
  match comparisons !! result_comparison_id r with
  | Some c =>
      match randomized_labels c !! "A", randomized_labels c !! "B" with
      | Some a, Some b =>
          flat_map (item_outcomes a b model dimension) (dimension_scores r)
      | _, _ => []
      end
  | None => []
  end.

(** The outcomes of a (model, dimension) cell, in the order of the results. *)
Definition expected_outcomes (comparisons : gmap string VideoComparison)
    (results : list EvaluationResult) (model dimension : string) : list Q :=
  flat_map (result_outcomes comparisons model dimension) results.

(** Every stored comparison carries both labels. *)
Definition labelled (comparisons : gmap string VideoComparison) : Prop :=
  forall id c, comparisons !! id = Some c ->
    is_Some (randomized_labels c !! "A") /\ is_Some (randomized_labels c !! "B").

(** An evaluation result whose [comparison_id] resolves to nothing. *)
Definition orphaned (comparisons : gmap string VideoComparison)
    (r : EvaluationResult) : bool :=
  match comparisons !! result_comparison_id r with
  | Some _ => false
  | None => true
  end.

Definition orphan_count (comparisons : gmap string VideoComparison)
    (results : list EvaluationResult) : nat :=
  length (List.filter (orphaned comparisons) results).

(** The choice an evaluation casts on a dimension in the kappa matrix. *)
Definition vote (dimension : string) (r : EvaluationResult) : string :=
  default "Equal" (od_get dimension (dimension_scores r)).

Definition votes_for (choice dimension : string)
    (results : list EvaluationResult) : Z :=
  Z.of_nat (length (List.filter (fun r => String.eqb (vote dimension r) choice)
                      results)).

(** An evaluation without an entry for the dimension. *)
Definition abstains (dimension : string) (r : EvaluationResult) : bool :=
  match od_get dimension (dimension_scores r) with
  | Some _ => false
  | None => true
  end.

Definition valid_choice (choice : string) : Prop :=
  choice = "A" \/ choice = "B" \/ choice = "Equal".

(** A comparison with at least two evaluators. *)
Definition eligible (entry : string * list EvaluationResult) : bool :=
  negb (length (snd entry) <? 2)%nat.

(** The evaluations of one comparison, in the order of the results. *)
Definition evaluations_of (comparison_id : string)
    (results : list EvaluationResult) : list EvaluationResult :=
  List.filter (fun r => String.eqb (result_comparison_id r) comparison_id)
    results.

(** How many evaluations have [choice] as their entry for the dimension. *)
Definition recorded (choice dimension : string)
    (results : list EvaluationResult) : Z :=
  Z.of_nat (length (List.filter (fun r =>
      match od_get dimension (dimension_scores r) with
      | Some c => String.eqb c choice
      | None => false
      end) results)).

(** How many evaluations have no entry for the dimension. *)
Definition abstaining (dimension : string) (results : list EvaluationResult)
  : Z :=
  Z.of_nat (length (List.filter (abstains dimension) results)).

(** Every entry for the dimension is one of the three choices. *)
Definition choices_valid (dimension : string)
    (results : list EvaluationResult) : Prop :=
  forall r c, In r results ->
    od_get dimension (dimension_scores r) = Some c -> valid_choice c.

End Spec.

(** ** Sample data *)

Module Sample.

Definition comparison (id a b : string) : VideoComparison :=
  {| comparison_id := id;
     scenario_id := AStr "forest_walk";
     model_a_name := a;
     model_b_name := b;
     model_a_video_path := "a.mp4";
     model_b_video_path := "b.mp4";
     action_sequence := AActions [];
     scenario_metadata := ∅;
     randomized_labels := <["B" := b]> (<["A" := a]> ∅);
     created_at := 0 |}.

Definition evaluation (id evaluator : string) (scores : odict string)
  : EvaluationResult :=
  {| result_id := String.append id evaluator;
     result_comparison_id := id;
     evaluator_id := evaluator;
     dimension_scores := scores;
     detailed_ratings := [];
     completion_time_seconds := 60;
     submitted_at := 0 |}.

Definition stored : gmap string VideoComparison :=
  <["c2" := comparison "c2" "genie" "matrix"]>
    (<["c1" := comparison "c1" "matrix" "genie"]> ∅).

(** Three evaluations of [c1] and one of [c2]. *)
Definition evaluations : list EvaluationResult :=
  [ evaluation "c1" "e1" [("overall_quality", "A"); ("controllability", "Equal")];
    evaluation "c1" "e2" [("overall_quality", "A")];
    evaluation "c1" "e3" [("overall_quality", "B"); ("controllability", "B")];
    evaluation "c2" "e1" [("overall_quality", "B")] ].

(** One evaluation of a comparison that was never stored. *)
Definition orphan : EvaluationResult :=
  evaluation "missing" "e9" [("overall_quality", "A")].

(** Two models that generate their videos, a scenario with the keys
    [create_comparison] reads, an empty framework directory and one draw of
    the ambient values. *)
Definition matrix_model : BaseWorldModel unit unit :=
  {| model_name := "matrix"; generate_video := fun _ _ _ => Ok tt |}.

Definition genie_model : BaseWorldModel unit unit :=
  {| model_name := "genie"; generate_video := fun _ _ _ => Ok tt |}.

Definition scenario : gmap string any :=
  <["duration_frames" := AInt 65]>
    (<["actions" := AActions []]> (<["name" := AStr "forest_walk"]> ∅)).

Definition empty_framework : ABTestingFramework unit :=
  {| output_dir := "./data/ab_tests"; videos := ∅; comparisons := ∅;
     results := ∅ |}.

Definition draw : ambient :=
  {| uuid4 := "c0ffee"; random_random := 3 # 10; datetime_now := 0 |}.

(** A single decisive comparison. *)
Definition decisive : list StatisticalTests.BradleyTerry.row :=
  [ {| StatisticalTests.BradleyTerry.model_a := "X";
       StatisticalTests.BradleyTerry.model_b := "Y";
       StatisticalTests.BradleyTerry.winner := "a";
       StatisticalTests.BradleyTerry.weight := None |} ].

Definition scores_a : list Q := [0; 1; 1; 0; 1]%Q.
Definition scores_b : list Q := [0; 0; 1]%Q.

(** Two evaluators, one comparison, the same choice. *)
Definition unanimous : list EvaluationResult :=
  [ evaluation "c1" "e1" [("overall_quality", "A")];
    evaluation "c1" "e2" [("overall_quality", "A")] ].

End Sample.

(** ** evaluation/ab_testing.py: the result files, and what the analyzer
    loads *)

Module Store.

(** [s.endswith(suffix)] *)
Fixpoint endswith (s suffix : string) : bool :=
  if String.eqb s suffix then true
  else match s with
       | EmptyString => false
       | String _ s' => endswith s' suffix
       end.

(** [s] without its prefix [p], when it has it. *)
Fixpoint strip_prefix (p s : string) : option string :=
  match p, s with
  | EmptyString, _ => Some s
  | String c p', String d s' =>
      if Ascii.eqb c d then strip_prefix p' s' else None
  | String _ _, EmptyString => None
  end.

Fixpoint contains_char (c : ascii) (s : string) : bool :=
  match s with
  | EmptyString => false
  | String d s' => Ascii.eqb c d || contains_char c s'
  end.

(** [s.replace(old, '')] for a non-empty [old]: the occurrences of [old],
    found from the left and not overlapping, are dropped.  [skip] counts
    the characters of an occurrence still to drop. *)
Fixpoint remove_from (old : string) (s : string) (skip : nat) : string :=
  match s with
  | EmptyString => EmptyString
  | String c s' =>
      match skip with
      | S k => remove_from old s' k
      | O =>
          if String.prefix old s then remove_from old s' (String.length old - 1)
          else String c (remove_from old s' 0)
      end
  end.

Definition remove (old s : string) : string := remove_from old s 0.

(** [for filename in os.listdir(dir)] together with the content found at
    [os.path.join(dir, filename)]: the files directly in [dir], in the
    order the system lists them. *)
Definition dir_entry {X : Type} (dir : string) (file : string * X)
  : option (string * X) :=
  match strip_prefix (String.append dir "/") (fst file) with
  | Some name =>
      if contains_char "/"%char name then None else Some (name, snd file)
  | None => None
  end.

Definition dir_entries {X : Type} (dir : string) (files : gmap string X)
  : list (string * X) :=
  omap (dir_entry dir) (map_to_list files).

Section WithVideo.
Variable video : Type.

Definition results_dir (fw : ABTestingFramework video) : string :=
  path_join (output_dir video fw) "results".

Definition result_path (fw : ABTestingFramework video) (id : string) : string :=
  path_join (results_dir fw) (String.append id ".json").

(** Lines 218-245. *)
Definition record_evaluation_result (fw : ABTestingFramework video)
    (env : ambient) (comparison_id evaluator_id : string)
    (dimension_scores : odict string) (detailed_ratings : odict Z)
    (completion_time_seconds : Q)
  : EvaluationResult * ABTestingFramework video :=
  let result :=
    {| result_id := uuid4 env;
       result_comparison_id := comparison_id;
       evaluator_id := evaluator_id;
       dimension_scores := dimension_scores;
       detailed_ratings := detailed_ratings;
       completion_time_seconds := completion_time_seconds;
       submitted_at := datetime_now env |} in
  (result,
   {| output_dir := output_dir video fw;
      videos := videos video fw;
      comparisons := comparisons video fw;
      results := <[result_path fw (result_id result) := result]>
                   (results video fw) |}).

(** The [.json] files of a directory, with their content. *)
Definition json_files {X : Type} (dir : string) (files : gmap string X)
  : list (string * X) :=
  List.filter (fun entry => endswith (fst entry) ".json") (dir_entries dir files).

(** Lines 264-281. *)
Definition get_results_for_comparison (fw : ABTestingFramework video)
    (comparison_id : string) : list EvaluationResult :=
  map snd
    (List.filter (fun entry =>
         String.eqb (result_comparison_id (snd entry)) comparison_id)
       (json_files (results_dir fw) (results video fw))).

(** analyzer.py, lines 34-45. *)
Definition _load_all_comparisons (fw : ABTestingFramework video)
  : gmap string VideoComparison :=
  fold_left (fun comparisons entry =>
      let comp_id := remove ".json" (fst entry) in
      match get_comparison video fw comp_id with
      | Some comparison => <[comp_id := comparison]> comparisons
      | None => comparisons
      end)
    (json_files (comparisons_dir video fw) (ABTesting.comparisons video fw)) ∅.

(** analyzer.py, lines 47-58. *)
Definition _load_all_results (fw : ABTestingFramework video)
  : list EvaluationResult :=
  map snd (json_files (results_dir fw) (results video fw)).
End WithVideo.

End Store.

(** Names for the parts of what [create_comparison] computes. *)
Module Created.
Section WithTypes.
Variables image video : Type.

(** Lines 125-132: where the video of the model in [slot] is saved. *)
Definition video_path (fw : ABTestingFramework video) (id slot name : string)
  : string :=
  path_join (videos_dir video fw)
    (String.append id (String.append slot
      (String.append (replace "/"%char "_"%char name) ".mp4"))).

(** Line 138: whether the models swap places. *)
Definition swapped (env : ambient) (randomize_order : bool) : bool :=
  randomize_order && Numpy.ltb (random_random env) (1 # 2).
End WithTypes.
End Created.

(** ** More sample data *)

Module Samples.

(** The outcome of one request on the empty framework: the comparison and
    the framework afterwards. *)
Definition created : VideoComparison * ABTestingFramework unit :=
  match create_comparison unit unit Sample.empty_framework Sample.draw
          Sample.matrix_model Sample.genie_model Sample.scenario tt true with
  | Ok r => r
  | Raise _ =>
      (Sample.comparison "" "" "", Sample.empty_framework)
  end.

(** A model whose generation fails. *)
Definition failing_model : BaseWorldModel unit unit :=
  {| model_name := "broken"; generate_video := fun _ _ _ => Raise ValueError |}.

(** A scenario identified by "id" alone. *)
Definition nameless_scenario : gmap string any :=
  <["id" := AStr "s1"]>
    (<["duration_frames" := AInt 65]> (<["actions" := AActions []]> ∅)).

(** Two comparisons nobody won. *)
Definition drawn_games : list StatisticalTests.BradleyTerry.row :=
  [ {| StatisticalTests.BradleyTerry.model_a := "genie";
       StatisticalTests.BradleyTerry.model_b := "matrix";
       StatisticalTests.BradleyTerry.winner := "tie";
       StatisticalTests.BradleyTerry.weight := None |};
    {| StatisticalTests.BradleyTerry.model_a := "oasis";
       StatisticalTests.BradleyTerry.model_b := "genie";
       StatisticalTests.BradleyTerry.winner := "tie";
       StatisticalTests.BradleyTerry.weight := None |} ].

End Samples.

(** ** analysis/analyzer.py: the report's helpers *)

Module Report.

(** Lines 442-455. *)
Definition _interpret_kappa (kappa : Q) : string :=
  if Numpy.ltb kappa 0 then "Poor agreement"
  else if Numpy.ltb kappa (20 # 100) then "Slight agreement"
  else if Numpy.ltb kappa (40 # 100) then "Fair agreement"
  else if Numpy.ltb kappa (60 # 100) then "Moderate agreement"
  else if Numpy.ltb kappa (80 # 100) then "Substantial agreement"
  else "Almost perfect agreement".

(** The strength of an interpretation, weakest first. *)
Definition agreement_rank (label : string) : nat :=
  if String.eqb label "Poor agreement" then 0
  else if String.eqb label "Slight agreement" then 1
  else if String.eqb label "Fair agreement" then 2
  else if String.eqb label "Moderate agreement" then 3
  else if String.eqb label "Substantial agreement" then 4
  else if String.eqb label "Almost perfect agreement" then 5
  else 6.

End Report.

(** ** analysis/analyzer.py: [analyze_evaluation_quality] *)

Module Quality.

(** One value of [evaluator_stats]. *)
Record stats : Type := {
  num_evaluations : Z;
  avg_time : Q;
  total_time : Q;
  dimension_variance : odict Z
}.

(** One entry of ['evaluator_details']. *)
Record detail : Type := {
  detail_evaluator_id : string;
  detail_num_evaluations : Z;
  detail_avg_time : Q;
  response_entropy : Q;
  unique_responses : nat
}.

Record quality_metrics : Type := {
  total_evaluations : nat;
  unique_evaluators : nat;
  avg_time_per_evaluation : Numpy.float;
  median_time_per_evaluation : Numpy.float;
  evaluator_details : list detail
}.

(** [np.mean] of a list that may be empty. *)
Definition np_mean (xs : list Q) : Numpy.float :=
  match xs with
  | [] => Numpy.NaN
  | _ :: _ => Numpy.Finite (Numpy.mean xs)
  end.

(** [np.median] of a list that may be empty. *)
Definition np_median (xs : list Q) : Numpy.float :=
  match xs with
  | [] => Numpy.NaN
  | _ :: _ =>
      let sorted := Numpy.sort xs in
      let n := length xs in
      if Nat.even n then
        Numpy.Finite ((nth (n / 2 - 1) sorted 0 + nth (n / 2) sorted 0) / 2)%Q
      else Numpy.Finite (nth (n / 2) sorted 0%Q)
  end.

(** Lines 218-223: the value a new evaluator starts from. *)
Definition fresh_stats : stats :=
  {| num_evaluations := 0; avg_time := 0; total_time := 0;
     dimension_variance := [] |}.

(** Line 232: [dimension_variance[choice] += 1] on a [defaultdict(int)]. *)
Definition count_choice (variance : odict Z) (item : string * string)
  : odict Z :=
  od_set (snd item) (default 0%Z (od_get (snd item) variance) + 1)%Z variance.

(** Lines 228-232, on the evaluator's entry. *)
Definition add_result (s : stats) (result : EvaluationResult) : stats :=
  {| num_evaluations := (num_evaluations s + 1)%Z;
     avg_time := avg_time s;
     total_time := (total_time s + completion_time_seconds result)%Q;
     dimension_variance :=
       fold_left count_choice (dimension_scores result) (dimension_variance s) |}.

(** Lines 226-232: the body of the loop over the results. *)
Definition collect (evaluator_stats : odict stats) (result : EvaluationResult)
  : odict stats :=
  let evaluator := evaluator_id result in
  od_set evaluator
    (add_result (default fresh_stats (od_get evaluator evaluator_stats)) result)
    evaluator_stats.

(** Lines 248-250: [choices.extend([choice] * count)] for every item. *)
Definition choices_of (variance : odict Z) : list string :=
  flat_map (fun item => repeat (fst item) (Z.to_nat (snd item))) variance.

(** [choices.count(c)] *)
Definition count (c : string) (choices : list string) : Z :=
  Z.of_nat (length (List.filter (String.eqb c) choices)).

Section WithLog.
(** [np.log2] on positive arguments. *)
Variable np_log2 : Q -> Q.

(** Lines 253-257.  The exact sum does not depend on the order in which
    [set(choices)] is read; its elements are listed by first occurrence. *)
Definition entropy (choices : list string) : Q :=
  let unique := nodup string_dec choices in
  if (1 <? length unique)%nat then
    (- Numpy.sum
         (map (fun c =>
                 let p := (inject_Z (count c choices)
                           / Numpy.of_nat (length choices))%Q in
                 (p * np_log2 p)%Q)
            (List.filter (fun c => (0 <? count c choices)%Z) unique)))%Q
  else 0%Q.

(** Lines 244-265: the body of the loop over the evaluators. *)
Definition describe (entry : string * stats) : except detail :=
  let '(evaluator, s) := entry in
  avg ← float_truediv (total_time s) (inject_Z (num_evaluations s));
  let choices := choices_of (dimension_variance s) in
  Ok {| detail_evaluator_id := evaluator;
        detail_num_evaluations := num_evaluations s;
        detail_avg_time := avg;
        response_entropy := entropy choices;
        unique_responses := length (nodup string_dec choices) |}.

(** Lines 211-267. *)
Definition analyze_evaluation_quality (results : list EvaluationResult)
  : except quality_metrics :=
  let evaluator_stats := fold_left collect results [] in
  let times := map completion_time_seconds results in
  details ← map_except describe evaluator_stats;
  Ok {| total_evaluations := length results;
        unique_evaluators := length evaluator_stats;
        avg_time_per_evaluation := np_mean times;
        median_time_per_evaluation := np_median times;
        evaluator_details := details |}.
End WithLog.

(** The results of one evaluator, and the sum of the counts of a list of
    details. *)
Definition results_of (evaluator : string) (results : list EvaluationResult)
  : list EvaluationResult :=
  List.filter (fun r => String.eqb (evaluator_id r) evaluator) results.

(** The sum of the counts of the evaluators' entries. *)
Definition stats_count (evaluator_stats : odict stats) : Z :=
  fold_right (fun entry acc => (num_evaluations (snd entry) + acc)%Z) 0%Z
    evaluator_stats.

Definition total_count (details : list detail) : Z :=
  fold_right (fun d acc => (detail_num_evaluations d + acc)%Z) 0%Z details.

End Quality.

Module Interpolation.

(** The interpolation of [np.percentile] between the two closest ranks. *)
Definition interpolate (s : list Q) (pos : Q) : Q :=
  let lo := Qfloor pos in
  let frac := (pos - inject_Z lo)%Q in
  let below := nth (Z.to_nat lo) s 0%Q in
  let above := nth (Z.to_nat lo + 1) s below in
  (below + (above - below) * frac)%Q.

End Interpolation.

(** ** analysis/statistical_tests.py: names for parts of
    [bradley_terry_model] *)

Module BradleyTerryParts.
Import StatisticalTests.BradleyTerry.

(** Lines 194-214: the design the loop over the rows builds. *)
Definition design_of (comparison_results : list row) : except design :=
  for_each (add_comparison (models_of comparison_results)) comparison_results
    {| comparisons := []; outcomes := []; weights := [] |}.

(** Line 217: the entry of a model when nothing was decided. *)
Definition undecided : entry :=
  {| strength := Numpy.Finite 0; se := Numpy.PosInf; win_probability := None |}.

(** A row that enters the design. *)
Definition decisive (r : row) : bool := negb (String.eqb (winner r) "tie").

(** Lines 244-248: the entry of a model with normalized strength [s] and
    standard error [e]. *)
Definition fitted_entry (np_exp : Q -> Q) (item : string * (Q * Q))
  : string * entry :=
  (fst item,
   {| strength := Numpy.Finite (fst (snd item));
      se := Numpy.Finite (snd (snd item));
      win_probability := Some (1 / (1 + np_exp (- fst (snd item))))%Q |}).

(** The order of [sorted] on names. *)
Definition name_lt (a b : string) : Prop := String.ltb a b = true.

End BradleyTerryParts.

Module CorrectionParts.
Import StatisticalTests.Correction.

(** Lines 302-308: the entry stored for a test, given its raw p-value and
    what the library returned at its index. *)
Definition stored_entry (name_of_method : string)
    (item : string * (Q * (Q * bool))) : string * entry :=
  (fst item,
   {| original_p := fst (snd item);
      corrected_p := fst (snd (snd item));
      significant := snd (snd (snd item));
      method := name_of_method |}).

End CorrectionParts.

(** ** evaluation/ab_testing.py: [create_comparison_batch] *)

Module Batch.

(** Lines 192-197: all pairs of names at positions [i < j]. *)
Definition default_pairs (model_names : list string) : list (string * string) :=
  flat_map (fun i =>
      map (fun j => (nth i model_names "", nth j model_names ""))
        (seq (i + 1) (length model_names - (i + 1))))
    (seq 0 (length model_names)).

Section WithTypes.
Variables image video : Type.

(** [reference_images.get(key)] for a key that is [Any]: only a string
    can be a key of the dictionary; a list cannot be hashed. *)
Definition image_for (reference_images : gmap string image) (key : any)
  : except (option image) :=
  match key with
  | AStr s => Ok (reference_images !! s)
  | AInt _ | AFloat _ => Ok None
  | AActions _ => Raise TypeError
  end.

(** The framework, the number of draws taken so far, and the comparisons
    collected so far. *)
Definition progress : Type :=
  (ABTestingFramework video * nat * list VideoComparison)%type.

(** Lines 207-214: the body of the loop over the pairs.  The call [k] of
    [create_comparison] takes its draws from [env k]. *)
Definition create_pair (env : nat -> ambient)
    (models : odict (BaseWorldModel (option image) video))
    (scenario : gmap string any) (ref_image : option image)
    (st : progress) (pair : string * string) : except progress :=
  let '(fw, k, comparisons) := st in
  model_a ← od_item (fst pair) models;
  model_b ← od_item (snd pair) models;
  created ← create_comparison (option image) video fw (env k) model_a model_b
              scenario ref_image true;
  Ok (snd created, S k, comparisons ++ [fst created]).

(** Lines 199-214: the body of the loop over the scenarios. *)
Definition create_for_scenario (env : nat -> ambient)
    (models : odict (BaseWorldModel (option image) video))
    (reference_images : gmap string image) (pairs_per_scenario : nat)
    (model_pairs : list (string * string))
    (st : progress) (scenario : gmap string any) : except progress :=
  let scenario_biome := default (AStr "plains") (scenario !! "biome") in
  name ← scenario_item scenario "name";
  let key := default name (scenario !! "id") in
  by_biome ← image_for reference_images scenario_biome;
  by_key ← image_for reference_images key;
  let ref_image := match by_key with
                   | Some i => Some i
                   | None => by_biome
                   end in
  for_each (fun st _ =>
      for_each (create_pair env models scenario ref_image) model_pairs st)
    (seq 0 pairs_per_scenario) st.

(** Lines 167-216. *)
Definition create_comparison_batch (fw : ABTestingFramework video)
    (env : nat -> ambient)
    (models : odict (BaseWorldModel (option image) video))
    (scenarios : list (gmap string any))
    (reference_images : gmap string image) (pairs_per_scenario : nat)
    (model_pairs : option (list (string * string)))
  : except (list VideoComparison * ABTestingFramework video) :=
  let pairs := match model_pairs with
               | None => default_pairs (od_keys models)
               | Some pairs => pairs
               end in
  st ← for_each
         (create_for_scenario env models reference_images pairs_per_scenario pairs)
         scenarios (fw, 0, []);
  Ok (snd st, fst (fst st)).
End WithTypes.

End Batch.

(** Two models taking an optional reference image, the draws of a run
    (a new identifier at every call) and the batch of one scenario asked
    twice for the pair ("matrix", "genie"). *)
Module BatchSample.
Import Batch.

Definition models : odict (BaseWorldModel (option unit) unit) :=
  [ ("matrix", {| model_name := "matrix";
                  generate_video := fun _ _ _ => Ok tt |});
    ("genie", {| model_name := "genie";
                 generate_video := fun _ _ _ => Ok tt |}) ].

Definition draws (k : nat) : ambient :=
  {| uuid4 := String (ascii_of_nat (97 + k)) "c0ffee";
     random_random := 3 # 10; datetime_now := Z.of_nat k |}.

Definition batch : list VideoComparison * ABTestingFramework unit :=
  match create_comparison_batch unit unit Sample.empty_framework draws models
          [Sample.scenario] ∅ 2 (Some [("matrix", "genie")]) with
  | Ok r => r
  | Raise _ => ([], Sample.empty_framework)
  end.

End BatchSample.

(** ** scripts/analyze_results.py: the tallies of [run_statistical_tests] *)

Module AnalyzeResults.

(** One row of [comparison_df]. *)
Record comparison_row : Type := {
  comparison_id : string;
  evaluator_id : string;
  dimension : string;
  model_a : string;
  model_b : string;
  winner : string
}.

(** Line 89. *)
Definition winner_of (choice : string) : string :=
  if String.eqb choice "A" then "a"
  else if String.eqb choice "B" then "b"
  else "tie".

(** Lines 82-90: one [(dimension, choice)] item of one result; the labels
    are read for every item. *)
Definition add_row (result : EvaluationResult) (comparison : VideoComparison)
    (comparison_data : list comparison_row) (item : string * string)
  : except (list comparison_row) :=
  let '(dimension, choice) := item in
  a ← Analyzer.label_item comparison "A";
  b ← Analyzer.label_item comparison "B";
  Ok (comparison_data
        ++ [ {| comparison_id := result_comparison_id result;
                evaluator_id := ABTesting.evaluator_id result;
                dimension := dimension;
                model_a := a;
                model_b := b;
                winner := winner_of choice |} ]).

(** Lines 77-90: the body of the loop over [analyzer.results]. *)
Definition add_result (comparisons : gmap string VideoComparison)
    (comparison_data : list comparison_row) (result : EvaluationResult)
  : except (list comparison_row) :=
  match comparisons !! result_comparison_id result with
  | None => Ok comparison_data
  | Some comparison =>
      for_each (add_row result comparison) (dimension_scores result)
        comparison_data
  end.

(** Lines 75-90. *)
Definition comparison_data (comparisons : gmap string VideoComparison)
    (results : list EvaluationResult) : except (list comparison_row) :=
  for_each (add_result comparisons) results [].

(** Line 99: [comparison_df[comparison_df['dimension'] == dimension]].  A
    frame built from no rows has no columns, and selecting one raises. *)
Definition dim_data (comparison_df : list comparison_row) (d : string)
  : except (list comparison_row) :=
  match comparison_df with
  | [] => Raise KeyError
  | _ :: _ => Ok (List.filter (fun r => String.eqb (dimension r) d) comparison_df)
  end.

(** Lines 109-112. *)
Definition pair_data (rows : list comparison_row) (a b : string)
  : list comparison_row :=
  List.filter (fun r =>
      (String.eqb (model_a r) a && String.eqb (model_b r) b)
      || (String.eqb (model_a r) b && String.eqb (model_b r) a)) rows.

(** Lines 114-123: the wins of [model] among the rows of a pair. *)
Definition wins (rows : list comparison_row) (model : string) : Z :=
  StatisticalTests.BradleyTerry.bool_count (fun r =>
      (String.eqb (model_a r) model && String.eqb (winner r) "a")
      || (String.eqb (model_b r) model && String.eqb (winner r) "b")) rows.

(** Line 124. *)
Definition ties (rows : list comparison_row) : Z :=
  StatisticalTests.BradleyTerry.bool_count
    (fun r => String.eqb (winner r) "tie") rows.

(** The values line 89 gives a winner. *)
Definition decided (r : comparison_row) : Prop :=
  winner r = "a" \/ winner r = "b" \/ winner r = "tie".

End AnalyzeResults.

(** The frame of the sample evaluations and its rows on overall quality. *)
Module ScriptSample.

Definition frame : list AnalyzeResults.comparison_row :=
  match AnalyzeResults.comparison_data Sample.stored Sample.evaluations with
  | Ok df => df
  | Raise _ => []
  end.

Definition overall : list AnalyzeResults.comparison_row :=
  match AnalyzeResults.dim_data frame "overall_quality" with
  | Ok rows => rows
  | Raise _ => []
  end.

End ScriptSample.

(** ** analysis/analyzer.py: [analyze_by_scenario] *)

Module ByScenario.

(** Whether a value can be a dictionary key: a list cannot be hashed. *)
Definition hashable (k : any) : bool :=
  match k with
  | AActions _ => false
  | AStr _ | AInt _ | AFloat _ => true
  end.

(** [==] on keys: numbers compare by value, whatever their type. *)
Definition key_eqb (k k' : any) : bool :=
  match k, k' with
  | AStr s, AStr s' => String.eqb s s'
  | AInt n, AInt n' => Z.eqb n n'
  | AFloat q, AFloat q' => Qeq_bool q q'
  | AInt n, AFloat q | AFloat q, AInt n => Qeq_bool (inject_Z n) q
  | _, _ => false
  end.

(** [scenario_scores = defaultdict(lambda: defaultdict(lambda:
    defaultdict(list)))]: the outer level, keyed by the scenario. *)
Definition scenario_table : Type := list (any * Analyzer.scores_table).

Fixpoint sd_get (k : any) (t : scenario_table) : option Analyzer.scores_table :=
  match t with
  | [] => None
  | (k', v) :: t' => if key_eqb k k' then Some v else sd_get k t'
  end.

(** A present key keeps its place and its first spelling; a new one goes
    to the end. *)
Fixpoint sd_set (k : any) (v : Analyzer.scores_table) (t : scenario_table)
  : scenario_table :=
  match t with
  | [] => [(k, v)]
  | (k', v') :: t' =>
      if key_eqb k k' then (k', v) :: t' else (k', v') :: sd_set k v t'
  end.

(** [scenario_scores[scenario][model][dimension].append(x)] *)
Definition sd_append (scenario : any) (model dimension : string) (x : Q)
    (t : scenario_table) : except scenario_table :=
  if hashable scenario then
    Ok (sd_set scenario
          (Analyzer.dd_append model dimension x (default [] (sd_get scenario t)))
          t)
  else Raise TypeError.

(** Lines 184-193: one [(dimension, choice)] item of one result. *)
Definition score_choice (scenario : any) (model_a_actual model_b_actual : string)
    (t : scenario_table) (item : string * string) : except scenario_table :=
  let '(dimension, choice) := item in
  if String.eqb choice "A" then
    t1 ← sd_append scenario model_a_actual dimension 1%Q t;
    sd_append scenario model_b_actual dimension 0%Q t1
  else if String.eqb choice "B" then
    t1 ← sd_append scenario model_a_actual dimension 0%Q t;
    sd_append scenario model_b_actual dimension 1%Q t1
  else
    t1 ← sd_append scenario model_a_actual dimension (1 # 2)%Q t;
    sd_append scenario model_b_actual dimension (1 # 2)%Q t1.

(** Line 180. *)
Definition scenario_of (comparison : VideoComparison) : any :=
  default (AStr "unknown") (scenario_metadata comparison !! "biome").

(** Lines 175-193: the body of the loop over [self.results]. *)
Definition score_result (comparisons : gmap string VideoComparison)
    (t : scenario_table) (result : EvaluationResult) : except scenario_table :=
  match comparisons !! result_comparison_id result with
  | None => Ok t
  | Some comparison =>
      let scenario := scenario_of comparison in
      model_a_actual ← Analyzer.label_item comparison "A";
      model_b_actual ← Analyzer.label_item comparison "B";
      for_each (score_choice scenario model_a_actual model_b_actual)
        (dimension_scores result) t
  end.

(** One row of the returned [DataFrame]. *)
Record scenario_row : Type := {
  scenario : any;
  model : string;
  dimension : string;
  win_rate : Q;
  num_evaluations : nat
}.

(** Lines 196-207. *)
Definition scenario_data (t : scenario_table) : list scenario_row :=
  flat_map (fun '(s, models) =>
    flat_map (fun '(m, dimensions) =>
      flat_map (fun '(d, scores) =>
        match scores with
        | [] => []
        | _ :: _ =>
            [ {| scenario := s; model := m; dimension := d;
                 win_rate := Numpy.mean scores;
                 num_evaluations := length scores |} ]
        end) (dimensions : odict (list Q))) (models : Analyzer.scores_table)) t.

(** Lines 166-209. *)
Definition analyze_by_scenario (comparisons : gmap string VideoComparison)
    (results : list EvaluationResult) : except (list scenario_row) :=
  t ← for_each (score_result comparisons) results [];
  Ok (scenario_data t).

(** A row of the overall performance, read as a row of scenario [s]. *)
Definition in_scenario (s : any) (row : Analyzer.performance_row)
  : scenario_row :=
  {| scenario := s;
     model := Analyzer.model row;
     dimension := Analyzer.dimension row;
     win_rate := Analyzer.win_rate row;
     num_evaluations := Analyzer.num_evaluations row |}.

(** The scenario table that holds [ms] under [s], once [ms] has an entry. *)
Definition under (s : any) (ms : Analyzer.scores_table) : scenario_table :=
  match ms with
  | [] => []
  | _ :: _ => [(s, ms)]
  end.

End ByScenario.
(** * Properties *)

(** ** Ordered dictionaries *)

Section OrderedDictFacts.
Context {V : Type}.
Implicit Types (d : odict V) (k : string) (v : V).

Lemma od_get_set k k' v d :
  od_get k' (od_set k v d) = if String.eqb k' k then Some v else od_get k' d.
Proof.
  induction d as [|[k0 v0] d IH]; simpl.
  - destruct (String.eqb_spec k' k); reflexivity.
  - destruct (String.eqb_spec k k0) as [->|Hk]; simpl.
    + destruct (String.eqb_spec k' k0); reflexivity.
    + rewrite IH.
      destruct (String.eqb_spec k' k0) as [->|Hk'].
      * destruct (String.eqb_spec k0 k); congruence.
      * reflexivity.
Qed.

Lemma od_get_In k v d : od_get k d = Some v -> In (k, v) d.
Proof.
  induction d as [|[k0 v0] d IH]; simpl; [discriminate|].
  destruct (String.eqb_spec k k0) as [->|Hk].
  - intros [= ->]. now left.
  - intros H. right. auto.
Qed.

Lemma od_get_None k d : od_get k d = None <-> ~ In k (od_keys d).
Proof.
  induction d as [|[k0 v0] d IH]; simpl.
  - tauto.
  - destruct (String.eqb_spec k k0) as [->|Hk].
    + split; [discriminate | intros H; exfalso; apply H; now left].
    + rewrite IH. split; intros H; [intros [E|E]; [congruence | tauto] | tauto].
Qed.

Lemma In_od_get k v d : od_wf d -> In (k, v) d -> od_get k d = Some v.
Proof.
  unfold od_wf.
  induction d as [|[k0 v0] d IH]; simpl; [tauto|].
  intros Hnd [E|Hin].
  - injection E as -> ->. now rewrite String.eqb_refl.
  - apply NoDup_cons in Hnd as [Hk0 Hnd].
    destruct (String.eqb_spec k k0) as [->|Hk].
    + exfalso. apply Hk0, list_elem_of_In.
      change k0 with (fst (k0, v)). now apply in_map.
    + auto.
Qed.

Lemma od_keys_set k v d :
  od_keys (od_set k v d)
  = match od_get k d with
    | Some _ => od_keys d
    | None => od_keys d ++ [k]
    end.
Proof.
  induction d as [|[k0 v0] d IH]; simpl; [reflexivity|].
  destruct (String.eqb_spec k k0) as [->|Hk]; simpl; [reflexivity|].
  rewrite IH. now destruct (od_get k d).
Qed.

Lemma od_set_wf k v d : od_wf d -> od_wf (od_set k v d).
Proof.
  unfold od_wf. intros Hnd. rewrite od_keys_set.
  destruct (od_get k d) eqn:E; [exact Hnd|].
  apply od_get_None in E.
  apply NoDup_app; split; [exact Hnd|split].
  - intros x Hx Hx'. apply list_elem_of_singleton in Hx' as ->.
    apply E, list_elem_of_In, Hx.
  - apply NoDup_singleton.
Qed.

Lemma od_set_Forall (P : string * V -> Prop) k v d :
  Forall P d -> P (k, v) -> Forall P (od_set k v d).
Proof.
  intros Hd Hkv.
  induction d as [|[k0 v0] d IH]; simpl.
  - now constructor.
  - apply Forall_cons in Hd as [H0 Hd].
    destruct (String.eqb k k0); constructor; auto.
Qed.
End OrderedDictFacts.

(** ** Aggregation: [calculate_model_performance] *)

Module AnalyzerFacts.
Import Analyzer.

Lemma table_wf_dims ms m dims :
  table_wf ms -> od_get m ms = Some dims -> od_wf dims.
Proof.
  intros [_ Hall] Hget. apply od_get_In in Hget.
  rewrite List.Forall_forall in Hall. exact (Hall _ Hget).
Qed.

Lemma dd_append_wf m d x ms : table_wf ms -> table_wf (dd_append m d x ms).
Proof.
  intros Hwf. pose proof Hwf as [Hms Hall]. unfold dd_append. split.
  - now apply od_set_wf.
  - apply od_set_Forall; [exact Hall|]. simpl. apply od_set_wf.
    destruct (od_get m ms) as [dims|] eqn:E; simpl.
    + eapply table_wf_dims; eauto.
    + apply NoDup_nil_2.
Qed.

Lemma cell_dd_append m d x ms m' d' :
  cell (dd_append m d x ms) m' d'
  = cell ms m' d'
    ++ (if String.eqb m' m && String.eqb d' d then [x] else []).
Proof.
  unfold cell, dd_append. rewrite od_get_set.
  destruct (String.eqb_spec m' m) as [->|Hm]; simpl.
  - rewrite od_get_set.
    destruct (String.eqb_spec d' d) as [->|Hd].
    + now destruct (od_get m ms).
    + rewrite app_nil_r. now destruct (od_get m ms).
  - now rewrite app_nil_r.
Qed.

Lemma cell_score_choice a b ms item m d :
  cell (score_choice a b ms item) m d
  = cell ms m d ++ Spec.item_outcomes a b m d item.
Proof.
  destruct item as [d0 choice]. unfold score_choice, Spec.item_outcomes, Spec.outcomes.
  rewrite (String.eqb_sym d0 d), (String.eqb_sym a m), (String.eqb_sym b m).
  destruct (String.eqb choice "A"); [|destruct (String.eqb choice "B")];
    rewrite !cell_dd_append, <- app_assoc;
    destruct (String.eqb m a), (String.eqb m b), (String.eqb d d0);
    reflexivity.
Qed.

Lemma score_choice_wf a b ms item :
  table_wf ms -> table_wf (score_choice a b ms item).
Proof.
  destruct item as [d0 choice]. unfold score_choice. intros H.
  destruct (String.eqb choice "A"); [|destruct (String.eqb choice "B")];
    now do 2 apply dd_append_wf.
Qed.

Lemma fold_score_choice a b items : forall ms m d,
  table_wf ms ->
  table_wf (fold_left (score_choice a b) items ms)
  /\ cell (fold_left (score_choice a b) items ms) m d
     = cell ms m d ++ flat_map (Spec.item_outcomes a b m d) items.
Proof.
  induction items as [|item items IH]; intros ms m d Hwf; simpl.
  - now rewrite app_nil_r.
  - destruct (IH (score_choice a b ms item) m d) as [Hwf' Hcell].
    { now apply score_choice_wf. }
    split; [exact Hwf'|].
    now rewrite Hcell, cell_score_choice, <- app_assoc.
Qed.

Lemma score_result_spec comparisons ms r :
  Spec.labelled comparisons -> table_wf ms ->
  exists ms', score_result comparisons ms r = Ok ms'
    /\ table_wf ms'
    /\ forall m d, cell ms' m d = cell ms m d ++ Spec.result_outcomes comparisons m d r.
Proof.
  intros Hlab Hwf. unfold score_result, Spec.result_outcomes.
  destruct (comparisons !! result_comparison_id r) as [c|] eqn:Hc.
  - destruct (Hlab _ _ Hc) as [[a Ha] [b Hb]].
    unfold label_item. rewrite Ha, Hb. simpl.
    eexists. split; [reflexivity|].
    split; [now apply fold_score_choice|].
    intros m d. now apply fold_score_choice.
  - exists ms. split; [reflexivity|]. split; [exact Hwf|].
    intros. now rewrite app_nil_r.
Qed.

Lemma collect_scores_from comparisons results : forall ms,
  Spec.labelled comparisons -> table_wf ms ->
  exists ms', for_each (score_result comparisons) results ms = Ok ms'
    /\ table_wf ms'
    /\ forall m d,
         cell ms' m d = cell ms m d ++ Spec.expected_outcomes comparisons results m d.
Proof.
  induction results as [|r results IH]; intros ms Hlab Hwf; simpl.
  - exists ms. split; [reflexivity|]. split; [exact Hwf|].
    intros. now rewrite app_nil_r.
  - destruct (score_result_spec comparisons ms r Hlab Hwf) as (ms1 & -> & Hwf1 & Hcell1).
    destruct (IH ms1 Hlab Hwf1) as (ms2 & -> & Hwf2 & Hcell2).
    exists ms2. split; [reflexivity|]. split; [exact Hwf2|].
    intros m d. now rewrite Hcell2, Hcell1, <- app_assoc.
Qed.

Lemma collect_scores_spec comparisons results :
  Spec.labelled comparisons ->
  exists ms, collect_scores comparisons results = Ok ms
    /\ table_wf ms
    /\ forall m d, cell ms m d = Spec.expected_outcomes comparisons results m d.
Proof.
  intros Hlab.
  destruct (collect_scores_from comparisons results [] Hlab) as (ms & H & Hwf & Hcell).
  { split; [apply NoDup_nil_2 | constructor]. }
  exists ms. split; [exact H|]. split; [exact Hwf|]. exact Hcell.
Qed.

Lemma In_performance_data np_sqrt ms row :
  table_wf ms ->
  In row (performance_data np_sqrt ms)
  <-> cell ms (model row) (dimension row) <> []
      /\ row = make_row np_sqrt (model row) (dimension row)
                 (cell ms (model row) (dimension row)).
Proof.
  intros Hwf. unfold performance_data. rewrite in_flat_map. split.
  - intros ([m dims] & Hm & Hrow). rewrite in_flat_map in Hrow.
    destruct Hrow as ([d scores] & Hd & Hrow).
    destruct scores as [|s scores]; [destruct Hrow|].
    destruct Hrow as [<-|[]]. simpl.
    apply (@In_od_get (odict (list Q))) in Hm; [|apply Hwf].
    apply (@In_od_get (list Q)) in Hd; [|eapply table_wf_dims; eauto].
    unfold cell. rewrite Hm, Hd. simpl. split; [discriminate|reflexivity].
  - intros [Hne Hrow]. unfold cell in *.
    destruct (od_get (model row) ms) as [dims|] eqn:Hm; [|congruence].
    exists (model row, dims). split; [now apply od_get_In|].
    rewrite in_flat_map.
    destruct (od_get (dimension row) dims) as [scores|] eqn:Hd; [|simpl in Hne; congruence].
    exists (dimension row, scores). split; [now apply od_get_In|].
    simpl in *. destruct scores; [congruence|]. left. now symmetry.
Qed.

End AnalyzerFacts.

Section AggregationClaims.
Import Analyzer AnalyzerFacts.

(** C1.  Given comparisons that carry both labels, the aggregation returns
    a table whose rows are exactly the (model, dimension) cells with at
    least one outcome, the outcomes of a cell being those of
    [Spec.expected_outcomes]: per evaluation and dimension, 1 for the model
    behind "A" and 0 for the other when the choice is "A", the inverse for
    "B", 1/2 for both for "Equal".  The row of a cell reports the mean of
    its outcomes as [win_rate], their number as [num_evaluations], and
    their population standard deviation over the square root of their
    number as [std_error]. *)
Theorem model_performance_mean_of_outcomes (np_sqrt : Q -> Q)
    (comparisons : gmap string VideoComparison)
    (results : list EvaluationResult) :
  Spec.labelled comparisons ->
  exists rows,
    calculate_model_performance np_sqrt comparisons results = Ok rows
    /\ forall row,
         In row rows <->
         let outs := Spec.expected_outcomes comparisons results
                       (model row) (dimension row) in
         outs <> []
         /\ win_rate row = Numpy.mean outs
         /\ num_evaluations row = length outs
         /\ std_error row
            = (Numpy.std np_sqrt outs / np_sqrt (Numpy.of_nat (length outs)))%Q.
Proof.
  intros Hlab.
  destruct (collect_scores_spec comparisons results Hlab) as (ms & Hms & Hwf & Hcell).
  exists (performance_data np_sqrt ms). split.
  - unfold calculate_model_performance. now rewrite Hms.
  - intros row. rewrite (In_performance_data np_sqrt ms row Hwf), Hcell.
    destruct row as [m d w n e]. cbn [model dimension win_rate num_evaluations std_error].
    unfold make_row. split.
    + intros [Hne [= -> -> ->]]. auto.
    + intros (Hne & -> & -> & ->). auto.
Qed.

Lemma model_performance_mean_of_outcomes_witness :
  exists rows,
    calculate_model_performance (fun x => x) Sample.stored Sample.evaluations
    = Ok rows
    /\ forall row,
         In row rows <->
         let outs := Spec.expected_outcomes Sample.stored Sample.evaluations
                       (model row) (dimension row) in
         outs <> []
         /\ win_rate row = Numpy.mean outs
         /\ num_evaluations row = length outs
         /\ std_error row = (Numpy.std (fun x => x) outs
                             / Numpy.of_nat (length outs))%Q.
Proof.
  apply (model_performance_mean_of_outcomes (fun x => x)).
  intros id c H. unfold Sample.stored in H.
  apply lookup_insert_Some in H as [[_ <-]|[_ H]].
  - split; eexists; reflexivity.
  - apply lookup_insert_Some in H as [[_ <-]|[_ H]].
    + split; eexists; reflexivity.
    + rewrite lookup_empty in H. discriminate H.
Defined.

Lemma for_each_skip_orphans comparisons results : forall ms,
  for_each (score_result comparisons) results ms
  = for_each (score_result comparisons)
      (List.filter (fun r => negb (Spec.orphaned comparisons r)) results) ms.
Proof.
  induction results as [|r results IH]; intros ms; [reflexivity|].
  cbn [List.filter]. unfold Spec.orphaned at 1.
  destruct (comparisons !! result_comparison_id r) as [c|] eqn:Hc; cbn [negb].
  - cbn [for_each]. destruct (score_result comparisons ms r); [apply IH|reflexivity].
  - cbn [for_each]. unfold score_result at 1. rewrite Hc. apply IH.
Qed.

(** C4, as the code has it.  Evaluation results whose [comparison_id] does
    not resolve are left out of the aggregation: the returned table is the
    one computed from the resolving results alone.  (The table has no place
    for a count of what was left out.) *)
Theorem orphans_excluded_from_performance (np_sqrt : Q -> Q)
    (comparisons : gmap string VideoComparison)
    (results : list EvaluationResult) :
  calculate_model_performance np_sqrt comparisons results
  = calculate_model_performance np_sqrt comparisons
      (List.filter (fun r => negb (Spec.orphaned comparisons r)) results).
Proof.
  unfold calculate_model_performance, collect_scores.
  now rewrite for_each_skip_orphans.
Qed.

(** C4, as stated, fails: no reading of the aggregation output gives the
    number of orphaned records, since the sample evaluations with and
    without one orphan aggregate to the same output. *)
Lemma orphan_count_not_surfaced :
  ~ exists count : except (list performance_row) -> nat,
      forall results,
        count (calculate_model_performance (fun x => x) Sample.stored results)
        = Spec.orphan_count Sample.stored results.
Proof.
  intros [count Hcount].
  pose proof (Hcount Sample.evaluations) as H0.
  pose proof (Hcount (Sample.orphan :: Sample.evaluations)) as H1.
  assert (E : calculate_model_performance (fun x => x) Sample.stored
                (Sample.orphan :: Sample.evaluations)
              = calculate_model_performance (fun x => x) Sample.stored
                  Sample.evaluations) by (vm_compute; reflexivity).
  rewrite E, H0 in H1. vm_compute in H1. discriminate H1.
Qed.
End AggregationClaims.

(** ** Reliability: [calculate_inter_rater_reliability] *)

Module KappaFacts.
Import Analyzer.

Lemma group_results_Forall (P : EvaluationResult -> Prop) results : forall acc,
  Forall (fun entry => Forall P (snd entry)) acc ->
  Forall P results ->
  Forall (fun entry => Forall P (snd entry)) (fold_left group_result results acc).
Proof.
  induction results as [|r results IH]; intros acc Hacc Hres; [exact Hacc|].
  apply Forall_cons in Hres as [Hr Hres]. cbn [fold_left].
  apply IH; [|exact Hres].
  unfold group_result. apply od_set_Forall; [exact Hacc|]. cbn [snd].
  apply Forall_app. split; [|now repeat constructor].
  destruct (od_get (result_comparison_id r) acc) as [rs|] eqn:E; [|constructor].
  apply od_get_In in E. rewrite List.Forall_forall in Hacc. exact (Hacc _ E).
Qed.

Lemma votes_for_cons choice dimension r results :
  Spec.votes_for choice dimension (r :: results)
  = ((if String.eqb (Spec.vote dimension r) choice then 1 else 0)
     + Spec.votes_for choice dimension results)%Z.
Proof.
  unfold Spec.votes_for. cbn [List.filter].
  destruct (String.eqb (Spec.vote dimension r) choice); cbn [length]; lia.
Qed.

(** The vote counting loop, from any running totals. *)
Lemma cast_votes dimension results : forall a b e,
  Forall (fun r => Spec.valid_choice (Spec.vote dimension r)) results ->
  for_each (cast_vote dimension) results [("A", a); ("B", b); ("Equal", e)]
  = Ok [("A", (a + Spec.votes_for "A" dimension results)%Z);
        ("B", (b + Spec.votes_for "B" dimension results)%Z);
        ("Equal", (e + Spec.votes_for "Equal" dimension results)%Z)].
Proof.
  induction results as [|r results IH]; intros a b e Hvalid.
  - unfold Spec.votes_for. cbn. now rewrite !Z.add_0_r.
  - apply Forall_cons in Hvalid as [Hr Hvalid].
    rewrite !votes_for_cons. cbn [for_each]. unfold cast_vote.
    fold (Spec.vote dimension r).
    destruct Hr as [-> | [-> | ->]]; cbn; rewrite (IH _ _ _ Hvalid);
      repeat match goal with
             | |- Ok _ = Ok _ => f_equal
             | |- _ :: _ = _ :: _ => f_equal
             | |- (_, _) = (_, _) => f_equal
             end; lia.
Qed.

Lemma rating_row_spec dimension results :
  Forall (fun r => Spec.valid_choice (Spec.vote dimension r)) results ->
  rating_row dimension results
  = Ok [Spec.votes_for "A" dimension results;
        Spec.votes_for "B" dimension results;
        Spec.votes_for "Equal" dimension results].
Proof.
  intros Hvalid. unfold rating_row, initial_votes.
  rewrite (cast_votes dimension results _ _ _ Hvalid). reflexivity.
Qed.

Lemma votes_total dimension results :
  Forall (fun r => Spec.valid_choice (Spec.vote dimension r)) results ->
  (Spec.votes_for "A" dimension results + Spec.votes_for "B" dimension results
   + Spec.votes_for "Equal" dimension results)%Z
  = Z.of_nat (length results).
Proof.
  induction 1 as [|r results Hr _ IH].
  - reflexivity.
  - rewrite !votes_for_cons. cbn [length].
    destruct Hr as [-> | [-> | ->]]; cbn; lia.
Qed.

Lemma build_rating_matrix_from dimension grouped : forall rating_matrix,
  Forall (fun entry =>
      Forall (fun r => Spec.valid_choice (Spec.vote dimension r)) (snd entry))
    grouped ->
  for_each (add_rating_row dimension) grouped rating_matrix
  = Ok (rating_matrix
        ++ map (fun entry =>
                  [Spec.votes_for "A" dimension (snd entry);
                   Spec.votes_for "B" dimension (snd entry);
                   Spec.votes_for "Equal" dimension (snd entry)])
             (List.filter Spec.eligible grouped)).
Proof.
  induction grouped as [|[id rs] grouped IH]; intros rating_matrix Hvalid.
  - cbn. now rewrite app_nil_r.
  - apply Forall_cons in Hvalid as [Hrs Hvalid]. cbn [snd] in Hrs.
    cbn [for_each List.filter]. unfold add_rating_row at 1, Spec.eligible at 1.
    cbn [snd]. destruct (length rs <? 2)%nat; cbn [negb].
    + now apply IH.
    + rewrite (rating_row_spec dimension rs Hrs). cbn.
      rewrite (IH _ Hvalid), <- app_assoc. reflexivity.
Qed.

(** Whatever a non-empty rating matrix holds, the agreement loop stops in
    its first pass: the quotient is taken of [None]. *)
Lemma fleiss_kappa_raises row rating_matrix :
  fleiss_kappa (row :: rating_matrix) = Raise TypeError.
Proof. reflexivity. Qed.

Lemma kappa_for_dimension_keeps grouped dimension kappa_scores kappa_scores' :
  kappa_for_dimension grouped kappa_scores dimension = Ok kappa_scores' ->
  kappa_scores' = kappa_scores.
Proof.
  unfold kappa_for_dimension.
  destruct (build_rating_matrix dimension grouped) as [[|row rm]|e]; cbn.
  - now intros [= <-].
  - discriminate.
  - discriminate.
Qed.

(** The function never returns a kappa: it raises, or returns the empty
    dictionary. *)
Lemma inter_rater_reliability_reports_nothing results kappa_scores :
  calculate_inter_rater_reliability results = Ok kappa_scores ->
  kappa_scores = [].
Proof.
  unfold calculate_inter_rater_reliability.
  generalize (group_results results) as grouped. intros grouped.
  generalize canonical_dimensions as dims.
  intros dims. generalize (@nil (string * Q)) as acc. 
  induction dims as [|dimension dims IH]; intros acc; cbn [for_each].
  - now intros [= <-].
  - destruct (kappa_for_dimension grouped acc dimension) as [acc'|e] eqn:E;
      [|discriminate].
    apply kappa_for_dimension_keeps in E as ->. apply IH.
Qed.

End KappaFacts.

Section KappaClaims.
Import Analyzer KappaFacts.

(** C2, on the code.  For two evaluators who gave one comparison the same
    choice, the computation does not return kappa = 1 for the dimension: it
    ends in [TypeError], raised by the statement that appends to [P_i] and
    divides what [append] returned. *)
Theorem unanimous_kappa_raises_type_error :
  calculate_inter_rater_reliability Sample.unanimous = Raise TypeError.
Proof. vm_compute. reflexivity. Qed.
End KappaClaims.

(** ** Inference: [StatisticalTests] *)

Section BinomialClaims.
Import StatisticalTests.BinomialTest.

(** C8.  With no trials to count (no wins on either side and, when ties
    are counted, no ties), [binomial_test] returns, without raising,
    p_value = 1.0, win_rate_a = 0.5, the interval [0, 1] and
    significant = false. *)
Theorem binomial_test_no_trials (binom_test : Q -> Z -> except Q)
    (binom_interval : Q -> Z -> Q -> Q * Q)
    (wins_a wins_b ties : Z) (exclude_ties : bool) :
  wins_a = 0%Z -> wins_b = 0%Z -> (exclude_ties = false -> ties = 0%Z) ->
  binomial_test binom_test binom_interval wins_a wins_b ties exclude_ties
  = Ok {| p_value := 1; win_rate_a := 1 # 2; ci_lower := 0; ci_upper := 1;
          significant := false |}.
Proof.
  intros -> -> Hties. unfold binomial_test, trials.
  destruct exclude_ties; [reflexivity|].
  now rewrite (Hties eq_refl).
Qed.

Lemma binomial_test_no_trials_witness :
  binomial_test Scipy.binom_test
    (fun _ _ _ => (0, 0)%Q) 0 0 0 false
  = Ok {| p_value := 1; win_rate_a := 1 # 2; ci_lower := 0; ci_upper := 1;
          significant := false |}.
Proof.
  apply binomial_test_no_trials; [reflexivity | reflexivity | reflexivity].
Defined.
End BinomialClaims.

Module McNemarFacts.
Import StatisticalTests.McNemar.

(** An operation whose result fits leaves that result. *)
Lemma int64_fits (z : Z) :
  (- 2 ^ 63 <= z < 2 ^ 63)%Z -> Numpy.int64 z = z.
Proof.
  intros Hz. unfold Numpy.int64.
  change (2 ^ 63)%Z with 9223372036854775808%Z in *.
  change (2 ^ 64)%Z with 18446744073709551616%Z.
  rewrite Z.mod_small; lia.
Qed.

(** With equal off-diagonal counts that do not overflow, the two
    statistics are those of the difference 0. *)
Lemma equal_counts (b : Z) :
  (0 <= b < 2 ^ 62)%Z ->
  Numpy.int64 (b + b) = (b + b)%Z
  /\ Numpy.int64 (Numpy.int64 (b - b) ^ 2) = 0%Z
  /\ Numpy.int64
       (Numpy.int64 (Numpy.int64 (Z.abs (Numpy.int64 (b - b))) - 1) ^ 2)
     = 1%Z.
Proof.
  intros Hb. change (2 ^ 62)%Z with 4611686018427387904%Z in Hb.
  rewrite Z.sub_diag. split; [|split; reflexivity].
  apply int64_fits. change (2 ^ 63)%Z with 9223372036854775808%Z. lia.
Qed.

End McNemarFacts.

Section McNemarClaims.
Import StatisticalTests.McNemar McNemarFacts.

(** C3, as the code has it.  For a table whose off-diagonal counts are
    equal and small enough for their sum not to overflow, with an exact
    binomial test that gives 1 at the centre of its distribution and a
    chi-square survival function between 0.05 and 1 on (0, 1/26]: the
    result is never significant; when b + c < 25 (b + c = 0 included) the
    statistic is 0 and the p-value 1.0; when b + c >= 25 the
    continuity-corrected statistic is (|b - c| - 1)^2 / (b + c)
    = 1 / (b + c), which is not 0, and the p-value is the survival
    function at it, which is not 1. *)
Theorem mcnemar_equal_off_diagonal (binom_test : Q -> Z -> except Q)
    (chi2_sf : Q -> Q) (a b d : Z) :
  (0 <= b < 2 ^ 62)%Z ->
  (forall n, (0 < n)%Z -> binom_test (inject_Z n) (n + n)%Z = Ok 1%Q) ->
  (forall x, (0 < x)%Q -> (x <= 1 # 26)%Q ->
             (5 # 100 <= chi2_sf x)%Q /\ (chi2_sf x < 1)%Q) ->
  exists r,
    mcnemar_test binom_test chi2_sf [[a; b]; [b; d]] = Ok r
    /\ significant r = false
    /\ ((b + b < 25)%Z -> statistic r == 0 /\ p_value r = 1%Q)
    /\ ((25 <= b + b)%Z ->
        statistic r == 1 / inject_Z (b + b)
        /\ ~ statistic r == 0
        /\ p_value r = chi2_sf (statistic r)
        /\ ~ p_value r == 1).
Proof.
  intros Hb Hcentre Hsf. unfold mcnemar_test.
  destruct (equal_counts b Hb) as (-> & -> & ->).
  destruct (Z.eqb_spec (b + b) 0) as [H0|H0].
  - eexists. split; [reflexivity|]. cbn. split; [reflexivity|].
    split; [intros _|lia]. split; reflexivity.
  - destruct (Z.ltb_spec (b + b) 25) as [Hsmall|Hlarge].
    + rewrite (Hcentre b) by lia. cbn. eexists. split; [reflexivity|].
      cbn. split; [reflexivity|]. split; [intros _|lia].
      split; reflexivity.
    + eexists. split; [reflexivity|]. cbn [statistic p_value significant].
      assert (Hpos : (0 < inject_Z (b + b))%Q).
      { change 0%Q with (inject_Z 0). rewrite <- Zlt_Qlt. lia. }
      assert (Hstat : (0 < inject_Z 1 / inject_Z (b + b))%Q).
      { apply Qlt_shift_div_l; [exact Hpos|]. rewrite Qmult_0_l. reflexivity. }
      assert (Hbound : (inject_Z 1 / inject_Z (b + b) <= 1 # 26)%Q).
      { apply Qle_shift_div_r; [exact Hpos|].
        assert (H26 : (inject_Z 26 <= inject_Z (b + b))%Q)
          by (rewrite <- Zle_Qle; lia).
        change (inject_Z 26) with 26%Q in H26. change (inject_Z 1) with 1%Q.
        lra. }
      destruct (Hsf _ Hstat Hbound) as [Hlow Hhigh].
      split; [|split; [lia|intros _]].
      * unfold Numpy.ltb. apply negb_false_iff, Qle_bool_iff. exact Hlow.
      * repeat split; try reflexivity.
        -- intros Hzero. rewrite Hzero in Hstat. now apply Qlt_irrefl in Hstat.
        -- intros Hone. rewrite Hone in Hhigh. now apply Qlt_irrefl in Hhigh.
Qed.

Lemma mcnemar_equal_off_diagonal_witness :
  exists r,
    mcnemar_test Scipy.binom_test (fun x => (1 - x)%Q) [[7; 13]; [13; 3]]%Z = Ok r
    /\ significant r = false
    /\ ((13 + 13 < 25)%Z -> statistic r == 0 /\ p_value r = 1%Q)
    /\ ((25 <= 13 + 13)%Z ->
        statistic r == 1 / inject_Z (13 + 13)
        /\ ~ statistic r == 0
        /\ p_value r = (1 - statistic r)%Q
        /\ ~ p_value r == 1).
Proof.
  apply (mcnemar_equal_off_diagonal Scipy.binom_test (fun x => (1 - x)%Q) 7 13 3).
  - lia.
  - intros n Hn. unfold Scipy.binom_test. rewrite Qfloor_Z.
    destruct (Z.ltb_spec n 0); [lia|].
    destruct (Z.ltb_spec (n + n) n); [lia|].
    destruct (Z.ltb_spec (n + n) 1); [lia|].
    cbn [orb]. destruct (Z.eqb_spec (2 * n) (n + n)); [reflexivity|lia].
  - intros x Hx0 Hx1. split; lra.
Defined.

(** C3, as stated, fails: with 13 in both off-diagonal cells the statistic
    is 1/26, whatever the chi-square survival function. *)
Lemma mcnemar_equal_large_counts_statistic :
  ~ (forall (chi2_sf : Q -> Q) (b : Z), (0 <= b)%Z ->
       exists r,
         mcnemar_test Scipy.binom_test chi2_sf [[b; b]; [b; b]] = Ok r
         /\ statistic r == 0 /\ p_value r == 1 /\ significant r = false).
Proof.
  intros H.
  destruct (H (fun _ => 1%Q) 13%Z ltac:(lia)) as (r & Hr & Hs & _).
  vm_compute in Hr. injection Hr as <-. vm_compute in Hs. discriminate Hs.
Qed.
End McNemarClaims.

Module CorrectionFacts.
Import StatisticalTests.Correction.

Lemma map_except_items (p_values : odict Q) :
  od_wf p_values ->
  map_except (fun name => od_item name p_values) (od_keys p_values)
  = Ok (map snd p_values).
Proof.
  intros Hwf.
  assert (H : forall l, (forall k v, In (k, v) l -> od_get k p_values = Some v) ->
            map_except (fun name => od_item name p_values) (od_keys l)
            = Ok (map snd l)).
  { induction l as [|[k v] l IH]; intros Hl; [reflexivity|].
    cbn. unfold od_item at 1. rewrite (Hl k v) by now left.
    unfold od_keys in IH. rewrite IH; [reflexivity|].
    intros k' v' Hin. apply Hl. now right. }
  apply H. intros k v Hin. now apply In_od_get.
Qed.

Section Loop.
Variables (f : Q -> Q) (g : Q -> bool) (name_of_method : string).

Lemma results_loop (p_values : odict Q) : forall rest seen results,
  p_values = seen ++ rest ->
  for_each (fun results '(i, name) =>
      p ← list_item (map snd p_values) i;
      c ← list_item (map f (map snd p_values)) i;
      r ← list_item (map g (map snd p_values)) i;
      Ok (od_set name
            {| original_p := p; corrected_p := c; significant := r;
               method := name_of_method |}
            results))
    (combine (seq (length seen) (length rest)) (map fst rest)) results
  = Ok (fold_left (store f g name_of_method) rest results).
Proof.
  induction rest as [|[k p] rest IH]; intros seen results Hp; [reflexivity|].
  cbn [length seq map combine for_each fst].
  assert (Hnth : nth_error p_values (length seen) = Some (k, p)).
  { rewrite Hp, nth_error_app2 by lia. now rewrite Nat.sub_diag. }
  assert (H1 : list_item (map snd p_values) (length seen) = Ok p).
  { unfold list_item. now rewrite nth_error_map, Hnth. }
  assert (H2 : list_item (map f (map snd p_values)) (length seen) = Ok (f p)).
  { unfold list_item. now rewrite !nth_error_map, Hnth. }
  assert (H3 : list_item (map g (map snd p_values)) (length seen) = Ok (g p)).
  { unfold list_item. now rewrite !nth_error_map, Hnth. }
  rewrite H1, H2, H3. cbn [mbind except_bind].
  cbn [fold_left].
  pose proof (IH (seen ++ [(k, p)]) (store f g name_of_method results (k, p)))
    as IH'.
  rewrite length_app in IH'. cbn [length] in IH'. rewrite Nat.add_1_r in IH'.
  apply IH'. now rewrite <- app_assoc.
Qed.

Lemma od_get_stored name (l : odict Q) : forall results,
  od_wf l ->
  od_get name (fold_left (store f g name_of_method) l results)
  = match od_get name l with
    | Some p => Some (corrected_entry f g name_of_method p)
    | None => od_get name results
    end.
Proof.
  induction l as [|[k p] l IH]; intros results Hwf; [reflexivity|].
  apply NoDup_cons in Hwf as [Hk Hwf]. cbn [fold_left od_get].
  rewrite (IH _ Hwf). unfold store at 1. cbn [fst snd]. rewrite od_get_set.
  destruct (String.eqb_spec name k) as [->|Hne]; [|reflexivity].
  assert (E : od_get k l = None).
  { apply od_get_None. intros Hin. apply Hk, list_elem_of_In, Hin. }
  now rewrite E.
Qed.
End Loop.

Lemma bonferroni_numbers (p m : Q) :
  (0 <= p)%Q -> (p <= 1)%Q -> (1 <= m)%Q ->
  let c := if Numpy.ltb 1 (p * m)%Q then 1%Q else (p * m)%Q in
  c == Qmin 1 (p * m) /\ (p <= c)%Q.
Proof.
  intros Hp0 Hp1 Hm. cbv zeta. unfold Numpy.ltb.
  assert (Hpm : (p <= p * m)%Q).
  { pose proof (Qmult_le_compat_r 1 m p Hm Hp0) as H. lra. }
  destruct (Qle_bool (p * m) 1) eqn:E; cbn [negb].
  - apply Qle_bool_iff in E. split.
    + symmetry. now apply Q.min_r.
    + exact Hpm.
  - assert (Hgt : (1 < p * m)%Q).
    { apply Qnot_le_lt. intros H. apply Qle_bool_iff in H. congruence. }
    split.
    + symmetry. apply Q.min_l. lra.
    + exact Hp1.
Qed.

(** With at least one test the threshold is computed. *)
Lemma bonferroni_arrays (pvals : list Q) :
  pvals <> [] ->
  bonferroni pvals
  = Ok (map (fun p => Numpy.leb p ((5 # 100) / Numpy.of_nat (length pvals))%Q)
          pvals,
        map (fun p => if Numpy.ltb 1 (p * Numpy.of_nat (length pvals))%Q
                      then 1%Q else (p * Numpy.of_nat (length pvals))%Q)
          pvals).
Proof.
  intros Hne. unfold bonferroni, float_truediv.
  destruct pvals as [|p pvals]; [congruence|reflexivity].
Qed.

End CorrectionFacts.

Section CorrectionClaims.
Import StatisticalTests.Correction CorrectionFacts.

(** C9, as the code has it.  For named raw p-values in [0, 1], m >= 1 of
    them, and a [multipletests] that answers with statsmodels' Bonferroni
    arrays, every test gets an entry with its original p-value, the
    corrected p-value min(1, p * m), which is at least the original one,
    and a significant flag that is true exactly when the raw p-value is at
    most the threshold 0.05 / m: the flag is decided on the raw p-value,
    not on the corrected one. *)
Theorem bonferroni_correction_entries
    (multipletests : list Q -> string -> except (list bool * list Q))
    (p_values : odict Q) :
  od_wf p_values ->
  p_values <> [] ->
  (forall name p, In (name, p) p_values -> (0 <= p)%Q /\ (p <= 1)%Q) ->
  multipletests (map snd p_values) "bonferroni"
  = bonferroni (map snd p_values) ->
  exists results,
    multiple_comparison_correction multipletests p_values "bonferroni"
    = Ok results
    /\ forall name p, od_get name p_values = Some p ->
         exists e,
           od_get name results = Some e
           /\ original_p e = p
           /\ method e = "bonferroni"
           /\ corrected_p e == Qmin 1 (p * Numpy.of_nat (length p_values))
           /\ (p <= corrected_p e)%Q
           /\ (significant e = true
               <-> (p <= (5 # 100) / Numpy.of_nat (length p_values))%Q).
Proof.
  intros Hwf Hne Hrange Hlib.
  unfold multiple_comparison_correction.
  rewrite (map_except_items p_values Hwf). cbn [mbind except_bind].
  rewrite Hlib, bonferroni_arrays by (destruct p_values; [congruence|discriminate]).
  cbn [mbind except_bind].
  unfold enumerate, od_keys. rewrite !length_map.
  set (m := Numpy.of_nat (length p_values)).
  pose proof (results_loop
                (fun p => if Numpy.ltb 1 (p * m)%Q then 1%Q else (p * m)%Q)
                (fun p => Numpy.leb p ((5 # 100) / m)%Q)
                "bonferroni" p_values p_values [] [] eq_refl) as Hloop.
  cbn [length] in Hloop. rewrite Hloop.
  eexists. split; [reflexivity|].
  intros name p Hget. rewrite (od_get_stored _ _ _ name p_values [] Hwf), Hget.
  eexists. split; [reflexivity|].
  cbn [original_p method corrected_p significant corrected_entry].
  split; [reflexivity|]. split; [reflexivity|].
  apply od_get_In in Hget. destruct (Hrange _ _ Hget) as [Hp0 Hp1].
  assert (Hm : (1 <= m)%Q).
  { unfold m, Numpy.of_nat. change 1%Q with (inject_Z 1). rewrite <- Zle_Qle.
    destruct p_values; [destruct Hget|]. cbn [length]. lia. }
  destruct (bonferroni_numbers p m Hp0 Hp1 Hm) as [Hmin Hle].
  split; [exact Hmin|]. split; [exact Hle|].
  unfold Numpy.leb. apply Qle_bool_iff.
Qed.

Lemma bonferroni_correction_entries_witness :
  exists results,
    multiple_comparison_correction (fun pvals _ => bonferroni pvals)
      [("quality", 1 # 100); ("control", 4 # 10)]%Q "bonferroni"
    = Ok results
    /\ forall name p,
         od_get name [("quality", 1 # 100); ("control", 4 # 10)]%Q = Some p ->
         exists e,
           od_get name results = Some e
           /\ original_p e = p
           /\ method e = "bonferroni"
           /\ corrected_p e == Qmin 1 (p * Numpy.of_nat 2)
           /\ (p <= corrected_p e)%Q
           /\ (significant e = true <-> (p <= (5 # 100) / Numpy.of_nat 2)%Q).
Proof.
  apply (bonferroni_correction_entries (fun pvals _ => bonferroni pvals)
           [("quality", 1 # 100); ("control", 4 # 10)]%Q).
  - unfold od_wf. cbn. apply NoDup_cons. split.
    + intros H. apply list_elem_of_singleton in H. discriminate H.
    + apply NoDup_singleton.
  - discriminate.
  - intros name p [[= <- <-]|[[= <- <-]|[]]]; split; discriminate.
  - reflexivity.
Defined.

(** C9, as stated, fails at its last clause: a single test with p = 0.05
    is flagged significant, its corrected p-value being 0.05, not below. *)
Lemma bonferroni_boundary_significant :
  exists results e,
    multiple_comparison_correction (fun pvals _ => bonferroni pvals)
      [("quality", 5 # 100)%Q] "bonferroni" = Ok results
    /\ od_get "quality" results = Some e
    /\ ~ (significant e = true <-> (corrected_p e < 5 # 100)%Q).
Proof.
  eexists. eexists. split; [vm_compute; reflexivity|].
  split; [reflexivity|].
  cbn. intros [H _]. specialize (H eq_refl). discriminate H.
Qed.
End CorrectionClaims.

Module BradleyTerryFacts.
Import StatisticalTests.BradleyTerry.

Lemma win_rates_recorded (comparison_results : list row) (m : string) models :
  forall acc,
    In m models \/ od_get m acc = Some (win_rate comparison_results m) ->
    od_get m (fold_left (fun acc model =>
                od_set model (win_rate comparison_results model) acc) models acc)
    = Some (win_rate comparison_results m).
Proof.
  induction models as [|x models IH]; intros acc H; cbn [fold_left].
  - destruct H as [[]|H]. exact H.
  - apply IH. rewrite od_get_set.
    destruct (String.eqb_spec m x) as [->|Hne]; [now right|].
    destruct H as [[E|H]|H]; [congruence|now left|now right].
Qed.

Section Fallback.
Variable np_log : Q -> Q.

Lemma fallback_entries_raise avg_rate items : forall results,
  Exists (fun item => snd item == 1) items ->
  for_each (fallback_entry np_log avg_rate) items results
  = Raise ZeroDivisionError.
Proof.
  induction items as [|[m rate] items IH]; intros results Hex.
  - inversion Hex.
  - cbn [for_each]. unfold fallback_entry at 1, float_truediv.
    destruct (Qeq_bool (1 - rate) 0) eqn:E; [reflexivity|].
    cbn [mbind except_bind]. apply IH.
    apply Exists_cons in Hex as [Hhead|Htail]; [|exact Htail].
    cbn [snd] in Hhead. exfalso.
    assert (Hz : 1 - rate == 0) by (rewrite Hhead; ring).
    apply Qeq_bool_iff in Hz. congruence.
Qed.

(** The fallback itself raises as soon as one model has won every
    comparison it took part in. *)
Lemma fallback_raises_for_certain_winner models comparison_results m :
  In m models ->
  win_rate comparison_results m == 1 ->
  fallback np_log models comparison_results = Raise ZeroDivisionError.
Proof.
  intros Hin Hrate. unfold fallback. apply fallback_entries_raise.
  apply List.Exists_exists. exists (m, win_rate comparison_results m).
  split; [|exact Hrate].
  apply od_get_In, win_rates_recorded. now left.
Qed.
End Fallback.

End BradleyTerryFacts.

Section BradleyTerryClaims.
Import StatisticalTests.BradleyTerry.

(** C7, on the code.  For a single comparison that X wins against Y, a
    failing fit sends [bradley_terry_model] to its fallback, where the
    odds of X's win rate of 1 divide by zero: the call ends in
    [ZeroDivisionError] instead of returning the fallback entries. *)
Theorem bradley_terry_failed_fit_certain_winner
    (glm_fit : list (list Q) -> list Q -> list Q -> except (list Q * list Q))
    (np_exp np_log : Q -> Q) (e : exception) :
  glm_fit [[(-1)%Q]] [1%Q] [1%Q] = Raise e ->
  bradley_terry_model glm_fit np_exp np_log Sample.decisive
  = Raise ZeroDivisionError.
Proof.
  intros Hfit. unfold bradley_terry_model.
  change (for_each (add_comparison (models_of Sample.decisive)) Sample.decisive
            {| comparisons := []; outcomes := []; weights := [] |})
    with (Ok {| comparisons := [[(-1)%Q]]; outcomes := [1%Q]; weights := [1%Q] |}).
  cbn [mbind except_bind comparisons]. unfold fitted.
  cbn [comparisons outcomes weights]. rewrite Hfit. reflexivity.
Qed.

Lemma bradley_terry_failed_fit_certain_winner_witness :
  bradley_terry_model (fun _ _ _ => Raise PerfectSeparationError)
    (fun x => x) (fun x => x) Sample.decisive
  = Raise ZeroDivisionError.
Proof.
  apply (bradley_terry_failed_fit_certain_winner
           (fun _ _ _ => Raise PerfectSeparationError) (fun x => x) (fun x => x)
           PerfectSeparationError).
  reflexivity.
Defined.
End BradleyTerryClaims.

Module BootstrapFacts.
Import StatisticalTests.Bootstrap.

Section WithGenerator.
Variable RandomState : Type.
Variable np_random_choice : list Q -> nat -> RandomState -> list Q * RandomState.

Lemma resample_once_state scores_a scores_b diffs g :
  snd (resample_once RandomState np_random_choice scores_a scores_b (diffs, g))
  = advance_once RandomState np_random_choice scores_a scores_b g.
Proof.
  unfold resample_once, advance_once.
  destruct (np_random_choice scores_a (length scores_a) g) as [sample_a g1].
  cbn [snd].
  now destruct (np_random_choice scores_b (length scores_b) g1) as [sample_b g2].
Qed.

Lemma resample_state scores_a scores_b n : forall st,
  snd (resample RandomState np_random_choice scores_a scores_b n st)
  = Nat.iter n (advance_once RandomState np_random_choice scores_a scores_b)
      (snd st).
Proof.
  induction n as [|n IH]; intros [diffs g]; [reflexivity|].
  cbn [resample]. rewrite IH, resample_once_state.
  now rewrite Nat.iter_succ_r.
Qed.
End WithGenerator.

End BootstrapFacts.

Section BootstrapClaims.
Import StatisticalTests.Bootstrap BootstrapFacts.

(** C5, as the code has it.  The procedure takes no seed; it draws from
    the process-wide generator.  Two runs with the same arguments that
    start from the same generator state return the same result and leave
    the same state, and that state is the initial one advanced by two
    draws for each of the [n_bootstrap] resamples. *)
Theorem bootstrap_determined_by_generator_state (RandomState : Type)
    (np_random_choice : list Q -> nat -> RandomState -> list Q * RandomState)
    (scores_a scores_b : list Q) (n_bootstrap : nat) (confidence_level : Q)
    (g1 g2 : RandomState) :
  g1 = g2 ->
  bootstrap_confidence_interval RandomState np_random_choice
    scores_a scores_b n_bootstrap confidence_level g1
  = bootstrap_confidence_interval RandomState np_random_choice
      scores_a scores_b n_bootstrap confidence_level g2
  /\ snd (bootstrap_confidence_interval RandomState np_random_choice
            scores_a scores_b n_bootstrap confidence_level g1)
     = Nat.iter n_bootstrap
         (advance_once RandomState np_random_choice scores_a scores_b) g1.
Proof.
  intros <-. split; [reflexivity|].
  unfold bootstrap_confidence_interval.
  pose proof (resample_state RandomState np_random_choice scores_a scores_b
                n_bootstrap ([], g1)) as Hstate.
  cbn [snd] in Hstate. rewrite <- Hstate.
  now destruct (resample RandomState np_random_choice scores_a scores_b
                  n_bootstrap ([], g1)).
Qed.

Lemma bootstrap_determined_by_generator_state_witness :
  bootstrap_confidence_interval Z lcg_choice
    Sample.scores_a Sample.scores_b 4 (95 # 100) 1%Z
  = bootstrap_confidence_interval Z lcg_choice
      Sample.scores_a Sample.scores_b 4 (95 # 100) 1%Z
  /\ snd (bootstrap_confidence_interval Z lcg_choice
            Sample.scores_a Sample.scores_b 4 (95 # 100) 1%Z)
     = Nat.iter 4 (advance_once Z lcg_choice Sample.scores_a Sample.scores_b) 1%Z.
Proof.
  apply (bootstrap_determined_by_generator_state Z lcg_choice).
  reflexivity.
Defined.

(** C5, as stated, fails: with a generator in place of numpy's, a run
    leaves the shared generator in another state, and the next run with
    the same arguments returns another interval. *)
Lemma bootstrap_rerun_differs :
  let run := bootstrap_confidence_interval Z lcg_choice
               Sample.scores_a Sample.scores_b 4 (95 # 100) in
  snd (run 1%Z) <> 1%Z
  /\ ~ ci_upper (fst (run 1%Z)) == ci_upper (fst (run (snd (run 1%Z)))).
Proof.
  vm_compute. split; intros H; discriminate H.
Qed.
End BootstrapClaims.

Section ComparisonClaims.
Import ABTesting.
Context {image video : Type}.

(** C6, as the code has it.  [create_comparison] does not look at whether
    the two model names differ.  For every request whose scenario has
    "actions", "duration_frames" and "name" and whose two models generate
    their videos, it returns a comparison under the drawn id and stores it,
    labelled with the two names in one order or the other. *)
Theorem create_comparison_stores (fw : ABTestingFramework video) (env : ambient)
    (model_a model_b : BaseWorldModel image video) (scenario : gmap string any)
    (reference_image : image) (randomize_order : bool)
    (actions frames name : any) (video_a video_b : video) :
  scenario !! "actions" = Some actions ->
  scenario !! "duration_frames" = Some frames ->
  scenario !! "name" = Some name ->
  generate_video image video model_a reference_image actions frames = Ok video_a ->
  generate_video image video model_b reference_image actions frames = Ok video_b ->
  exists c fw',
    create_comparison image video fw env model_a model_b scenario
      reference_image randomize_order = Ok (c, fw')
    /\ get_comparison video fw' (uuid4 env) = Some c
    /\ comparison_id c = uuid4 env
    /\ model_a_name c = model_name image video model_a
    /\ model_b_name c = model_name image video model_b
    /\ ((randomized_labels c !! "A" = Some (model_name image video model_a)
         /\ randomized_labels c !! "B" = Some (model_name image video model_b))
        \/ (randomized_labels c !! "A" = Some (model_name image video model_b)
            /\ randomized_labels c !! "B" = Some (model_name image video model_a))).
Proof.
  intros Hactions Hframes Hname Ha Hb.
  unfold create_comparison, scenario_item.
  rewrite Hactions, Hframes, Hname. cbn [mbind except_bind].
  rewrite Ha. cbn [mbind except_bind]. rewrite Hb. cbn [mbind except_bind].
  destruct (randomize_order && Numpy.ltb (random_random env) (1 # 2));
    (eexists; eexists; split; [reflexivity|]);
    (split; [apply lookup_insert_eq|]);
    cbn [comparison_id model_a_name model_b_name randomized_labels];
    repeat (split; [reflexivity|]).
  - right. split; reflexivity.
  - left. split; reflexivity.
Qed.

End ComparisonClaims.

Section ComparisonSamples.
Import ABTesting.

Lemma create_comparison_stores_witness :
  exists c fw',
    create_comparison unit unit Sample.empty_framework Sample.draw
      Sample.matrix_model Sample.genie_model Sample.scenario tt true
    = Ok (c, fw')
    /\ get_comparison unit fw' (uuid4 Sample.draw) = Some c
    /\ comparison_id c = uuid4 Sample.draw
    /\ model_a_name c = "matrix"
    /\ model_b_name c = "genie"
    /\ ((randomized_labels c !! "A" = Some "matrix"
         /\ randomized_labels c !! "B" = Some "genie")
        \/ (randomized_labels c !! "A" = Some "genie"
            /\ randomized_labels c !! "B" = Some "matrix")).
Proof.
  apply (create_comparison_stores Sample.empty_framework Sample.draw
           Sample.matrix_model Sample.genie_model Sample.scenario tt true
           (AActions []) (AInt 65) (AStr "forest_walk") tt tt);
    reflexivity.
Defined.

(** C6, as stated, fails: asked to compare the model "matrix" with itself,
    [create_comparison] raises nothing, returns a comparison whose two
    labels name the same model, and stores it. *)
Lemma create_comparison_accepts_same_model :
  exists c fw',
    create_comparison unit unit Sample.empty_framework Sample.draw
      Sample.matrix_model Sample.matrix_model Sample.scenario tt true
    = Ok (c, fw')
    /\ get_comparison unit fw' (uuid4 Sample.draw) = Some c
    /\ randomized_labels c !! "A" = Some "matrix"
    /\ randomized_labels c !! "B" = Some "matrix".
Proof.
  eexists. eexists. split; [vm_compute; reflexivity|].
  split; [vm_compute; reflexivity|]. split; reflexivity.
Qed.
End ComparisonSamples.

(** ** Files: results, comparisons and what the analyzer loads *)

Module StringFacts.

Lemma append_nil (b : string) : String.append "" b = b.
Proof. reflexivity. Qed.

Lemma append_cons (c : ascii) (a b : string) :
  String.append (String c a) b = String c (String.append a b).
Proof. reflexivity. Qed.

Lemma length_append (a b : string) :
  String.length (String.append a b) = String.length a + String.length b.
Proof.
  induction a as [|c a IH]; [reflexivity|].
  rewrite append_cons. cbn [String.length]. now rewrite IH.
Qed.

Lemma append_inj_l (p a b : string) :
  String.append p a = String.append p b -> a = b.
Proof.
  induction p as [|c p IH]; [auto|]. rewrite !append_cons. intros [= H]. auto.
Qed.

Lemma append_inj_r (s : string) : forall a b,
  String.append a s = String.append b s -> a = b.
Proof.
  induction a as [|c a IH]; intros [|d b] H;
    rewrite ?append_nil, ?append_cons in H.
  - reflexivity.
  - apply (f_equal String.length) in H. cbn [String.length] in H.
    rewrite length_append in H. lia.
  - apply (f_equal String.length) in H. cbn [String.length] in H.
    rewrite length_append in H. lia.
  - injection H as -> H. f_equal. auto.
Qed.

Lemma append_assoc (a b c : string) :
  String.append (String.append a b) c = String.append a (String.append b c).
Proof.
  induction a as [|x a IH]; [reflexivity|]. rewrite !append_cons. now f_equal.
Qed.

Lemma path_join_inj (dir a b : string) :
  path_join dir a = path_join dir b -> a = b.
Proof.
  unfold path_join. intros H. apply append_inj_l in H.
  now apply (append_inj_l "/") in H.
Qed.

End StringFacts.

Module StoreFacts.
Import Store StringFacts.

Lemma endswith_refl (s : string) : endswith s s = true.
Proof. destruct s; cbn [endswith]; now rewrite String.eqb_refl. Qed.

Lemma endswith_append (a suffix : string) :
  endswith (String.append a suffix) suffix = true.
Proof.
  induction a as [|c a IH]; [apply endswith_refl|].
  rewrite append_cons. cbn [endswith]. rewrite IH. now destruct (String.eqb _ _).
Qed.

Lemma strip_prefix_append (p s : string) :
  strip_prefix p (String.append p s) = Some s.
Proof.
  induction p as [|c p IH]; [reflexivity|].
  rewrite append_cons. cbn [strip_prefix]. now rewrite Ascii.eqb_refl.
Qed.

Lemma strip_prefix_Some (p : string) : forall s name,
  strip_prefix p s = Some name -> s = String.append p name.
Proof.
  induction p as [|c p IH]; intros s name; cbn [strip_prefix].
  - intros [= <-]. reflexivity.
  - destruct s as [|d s]; [discriminate|].
    destruct (Ascii.eqb_spec c d) as [->|]; [|discriminate].
    intros H. now rewrite append_cons, (IH _ _ H).
Qed.

Lemma contains_char_append (c : ascii) (a b : string) :
  contains_char c (String.append a b) = contains_char c a || contains_char c b.
Proof.
  induction a as [|d a IH]; [reflexivity|].
  rewrite append_cons. cbn [contains_char]. now rewrite IH, orb_assoc.
Qed.

(** A name without a dot loses exactly its [.json] extension. *)
Lemma remove_json_extension (id : string) :
  contains_char "."%char id = false ->
  remove ".json" (String.append id ".json") = id.
Proof.
  unfold remove. induction id as [|c id IH]; [reflexivity|].
  cbn [contains_char]. intros H. apply orb_false_elim in H as [Hc Hid].
  rewrite append_cons. cbn [remove_from String.prefix].
  destruct (ascii_dec "."%char c) as [<-|_].
  - discriminate Hc.
  - now rewrite (IH Hid).
Qed.

Lemma elem_of_dir_entries {X : Type} (dir name : string) (x : X)
    (files : gmap string X) :
  (name, x) ∈ dir_entries dir files
  <-> files !! path_join dir name = Some x
      /\ contains_char "/"%char name = false.
Proof.
  unfold dir_entries. rewrite list_elem_of_omap. split.
  - intros ([path y] & Hin & Hentry). apply elem_of_map_to_list in Hin.
    unfold dir_entry in Hentry. cbn [fst snd] in Hentry.
    destruct (strip_prefix (String.append dir "/") path) as [n|] eqn:Hstrip;
      [|discriminate].
    destruct (contains_char "/"%char n) eqn:Hslash; [discriminate|].
    injection Hentry as -> ->. apply strip_prefix_Some in Hstrip.
    split; [|exact Hslash].
    unfold path_join. now rewrite <- append_assoc, <- Hstrip.
  - intros [Hfile Hslash]. exists (path_join dir name, x).
    split; [now apply elem_of_map_to_list|].
    unfold dir_entry, path_join. cbn [fst snd].
    now rewrite <- append_assoc, strip_prefix_append, Hslash.
Qed.

Lemma filter_Permutation {A : Type} (f : A -> bool) (l l' : list A) :
  l ≡ₚ l' -> List.filter f l ≡ₚ List.filter f l'.
Proof.
  induction 1 as [|x l l' _ IH|x y l|l l' l'' _ IH1 _ IH2]; cbn.
  - reflexivity.
  - destruct (f x); [now constructor|exact IH].
  - destruct (f x), (f y); try reflexivity. apply perm_swap.
  - now transitivity (List.filter f l').
Qed.

(** A file written under a fresh name joins the directory's [.json]
    files when its name ends in [.json] and has no slash. *)
Lemma json_files_insert {X : Type} (dir name : string) (x : X)
    (files : gmap string X) :
  files !! path_join dir name = None ->
  contains_char "/"%char name = false ->
  endswith name ".json" = true ->
  json_files dir (<[path_join dir name := x]> files)
  ≡ₚ (name, x) :: json_files dir files.
Proof.
  intros Hfresh Hslash Hjson. unfold json_files, dir_entries.
  assert (Hentry : dir_entry dir (path_join dir name, x) = Some (name, x)).
  { unfold dir_entry, path_join. cbn [fst snd].
    now rewrite <- append_assoc, strip_prefix_append, Hslash. }
  transitivity
    (List.filter (fun entry : string * X => endswith (fst entry) ".json")
       (omap (dir_entry dir) ((path_join dir name, x) :: map_to_list files))).
  - apply filter_Permutation, omap_Permutation.
    now apply map_to_list_insert.
  - change (omap (dir_entry dir) ((path_join dir name, x) :: map_to_list files))
      with (match dir_entry dir (path_join dir name, x) with
            | Some e => e :: omap (dir_entry dir) (map_to_list files)
            | None => omap (dir_entry dir) (map_to_list files)
            end).
    rewrite Hentry. cbn [List.filter fst]. now rewrite Hjson.
Qed.

End StoreFacts.

Module CreateFacts.
Import ABTesting Created StringFacts.

Section WithTypes.
Context {image video : Type}.

(** What a successful [create_comparison] has done. *)
Lemma create_comparison_Ok (fw fw' : ABTestingFramework video) (env : ambient)
    (model_a model_b : BaseWorldModel image video) (scenario : gmap string any)
    (reference_image : image) (randomize_order : bool) (c : VideoComparison) :
  create_comparison image video fw env model_a model_b scenario
    reference_image randomize_order = Ok (c, fw') ->
  exists actions frames name video_a video_b,
    scenario !! "actions" = Some actions
    /\ scenario !! "duration_frames" = Some frames
    /\ scenario !! "name" = Some name
    /\ generate_video image video model_a reference_image actions frames
       = Ok video_a
    /\ generate_video image video model_b reference_image actions frames
       = Ok video_b
    /\ let path_a := video_path video fw (uuid4 env) "_model_a_"
                       (model_name image video model_a) in
       let path_b := video_path video fw (uuid4 env) "_model_b_"
                       (model_name image video model_b) in
       fw' = _save_comparison video
               (_save_video video (_save_video video fw video_a path_a)
                  video_b path_b) c
       /\ comparison_id c = uuid4 env
       /\ model_a_name c = model_name image video model_a
       /\ model_b_name c = model_name image video model_b
       /\ scenario_metadata c = scenario
       /\ if swapped env randomize_order then
            randomized_labels c
            = <["B" := model_name image video model_a]>
                (<["A" := model_name image video model_b]> ∅)
            /\ model_a_video_path c = path_b /\ model_b_video_path c = path_a
          else
            randomized_labels c
            = <["B" := model_name image video model_b]>
                (<["A" := model_name image video model_a]> ∅)
            /\ model_a_video_path c = path_a /\ model_b_video_path c = path_b.
Proof.
  unfold create_comparison, scenario_item, swapped, video_path.
  destruct (scenario !! "actions") as [actions|] eqn:Hactions; [|discriminate].
  destruct (scenario !! "duration_frames") as [frames|] eqn:Hframes;
    [|discriminate].
  cbn [mbind except_bind].
  destruct (generate_video image video model_a reference_image actions frames)
    as [video_a|] eqn:Ha; [|discriminate].
  cbn [mbind except_bind].
  destruct (generate_video image video model_b reference_image actions frames)
    as [video_b|] eqn:Hb; [|discriminate].
  cbn [mbind except_bind].
  destruct (scenario !! "name") as [name|] eqn:Hname; [|
    destruct (randomize_order && Numpy.ltb (random_random env) (1 # 2));
    discriminate].
  destruct (randomize_order && Numpy.ltb (random_random env) (1 # 2));
    cbn [mbind except_bind]; intros [= <- <-];
    exists actions, frames, name, video_a, video_b;
    cbn [comparison_id model_a_name model_b_name scenario_metadata
           randomized_labels model_a_video_path model_b_video_path];
    cbv zeta; repeat split; first [reflexivity | assumption].
Qed.

Lemma comparison_path_inj (fw : ABTestingFramework video) (id id' : string) :
  comparison_path video fw id = comparison_path video fw id' -> id = id'.
Proof.
  unfold comparison_path. intros H. apply path_join_inj in H.
  now apply append_inj_r in H.
Qed.

Lemma video_paths_differ (fw : ABTestingFramework video) (id a b : string) :
  video_path video fw id "_model_a_" a <> video_path video fw id "_model_b_" b.
Proof.
  unfold video_path. intros H. apply path_join_inj, append_inj_l in H.
  discriminate H.
Qed.
End WithTypes.

End CreateFacts.

Section CreateComparisonProperties.
Import ABTesting Created StringFacts CreateFacts.
Context {image video : Type}.

(** X1.  After a successful [create_comparison], the video stored at the
    comparison's [model_a_video_path] is the video of the model that label
    "A" names, and likewise for "B": when the models swap places (order
    randomised and the draw below 0.5) "A" is [model_b] and its video is
    shown first, otherwise "A" is [model_a].  The fields [model_a_name] and
    [model_b_name] keep the request's order either way. *)
Theorem create_comparison_labels_follow_videos
    (fw fw' : ABTestingFramework video) (env : ambient)
    (model_a model_b : BaseWorldModel image video) (scenario : gmap string any)
    (reference_image : image) (randomize_order : bool) (c : VideoComparison) :
  create_comparison image video fw env model_a model_b scenario
    reference_image randomize_order = Ok (c, fw') ->
  exists actions frames video_a video_b,
    scenario !! "actions" = Some actions
    /\ scenario !! "duration_frames" = Some frames
    /\ generate_video image video model_a reference_image actions frames
       = Ok video_a
    /\ generate_video image video model_b reference_image actions frames
       = Ok video_b
    /\ model_a_name c = model_name image video model_a
    /\ model_b_name c = model_name image video model_b
    /\ if swapped env randomize_order then
         randomized_labels c !! "A" = Some (model_name image video model_b)
         /\ videos video fw' !! model_a_video_path c = Some video_b
         /\ randomized_labels c !! "B" = Some (model_name image video model_a)
         /\ videos video fw' !! model_b_video_path c = Some video_a
       else
         randomized_labels c !! "A" = Some (model_name image video model_a)
         /\ videos video fw' !! model_a_video_path c = Some video_a
         /\ randomized_labels c !! "B" = Some (model_name image video model_b)
         /\ videos video fw' !! model_b_video_path c = Some video_b.
Proof.
  intros Hcreate.
  destruct (create_comparison_Ok _ _ _ _ _ _ _ _ _ Hcreate)
    as (actions & frames & name & video_a & video_b & Hactions & Hframes & _
        & Ha & Hb & Hfw & _ & Hna & Hnb & _ & Hswap).
  cbv zeta in Hfw, Hswap.
  exists actions, frames, video_a, video_b.
  repeat (split; [assumption|]).
  pose proof (video_paths_differ fw (uuid4 env)
                (model_name image video model_a)
                (model_name image video model_b)) as Hdiff.
  assert (Hva : videos video fw'
                !! video_path video fw (uuid4 env) "_model_a_"
                     (model_name image video model_a) = Some video_a).
  { rewrite Hfw. cbn [_save_comparison _save_video videos].
    rewrite lookup_insert_ne by (intros E; apply Hdiff; now symmetry).
    apply lookup_insert_eq. }
  assert (Hvb : videos video fw'
                !! video_path video fw (uuid4 env) "_model_b_"
                     (model_name image video model_b) = Some video_b).
  { rewrite Hfw. cbn [_save_comparison _save_video videos].
    apply lookup_insert_eq. }
  destruct (swapped env randomize_order);
    destruct Hswap as (-> & -> & ->); repeat split;
    first [assumption | reflexivity].
Qed.


(** X2.  A successful [create_comparison] whose drawn id is a plain file
    name (no path separator, as the ids of [uuid4] are) stores the new
    comparison under that id; what is read under any other plain file
    name, and every stored evaluation result, is as it was. *)
Theorem create_comparison_keeps_other_comparisons
    (fw fw' : ABTestingFramework video) (env : ambient)
    (model_a model_b : BaseWorldModel image video) (scenario : gmap string any)
    (reference_image : image) (randomize_order : bool) (c : VideoComparison) :
  create_comparison image video fw env model_a model_b scenario
    reference_image randomize_order = Ok (c, fw') ->
  Store.contains_char "/"%char (uuid4 env) = false ->
  get_comparison video fw' (uuid4 env) = Some c
  /\ (forall id, Store.contains_char "/"%char id = false -> id <> uuid4 env ->
        get_comparison video fw' id = get_comparison video fw id)
  /\ results video fw' = results video fw.
Proof.
  intros Hcreate _.
  destruct (create_comparison_Ok _ _ _ _ _ _ _ _ _ Hcreate)
    as (_ & _ & _ & video_a & video_b & _ & _ & _ & _ & _ & Hfw & Hid & _).
  cbv zeta in Hfw. rewrite Hfw. unfold get_comparison, comparison_path.
  cbn [_save_comparison _save_video comparisons results output_dir
         comparisons_dir]. rewrite Hid.
  split; [apply lookup_insert_eq|]. split; [|reflexivity].
  intros id _ Hne. apply lookup_insert_ne. intros E. apply Hne.
  symmetry. exact (comparison_path_inj fw _ _ E).
Qed.


(** X3.  A scenario without the key "name" never yields a comparison,
    whether or not it has an "id": the default of
    [scenario.get("id", scenario["name"])] is evaluated first.  The name
    is read only after the generations: the call raises what the first
    failing generation raises, and [KeyError] when both models generate. *)
Theorem create_comparison_needs_scenario_name
    (fw : ABTestingFramework video) (env : ambient)
    (model_a model_b : BaseWorldModel image video) (scenario : gmap string any)
    (reference_image : image) (randomize_order : bool) (actions frames : any) :
  scenario !! "name" = None ->
  scenario !! "actions" = Some actions ->
  scenario !! "duration_frames" = Some frames ->
  create_comparison image video fw env model_a model_b scenario
    reference_image randomize_order
  = match generate_video image video model_a reference_image actions frames with
    | Raise e => Raise e
    | Ok _ =>
        match generate_video image video model_b reference_image actions
                frames with
        | Raise e => Raise e
        | Ok _ => Raise KeyError
        end
    end.
Proof.
  intros Hname Hactions Hframes.
  unfold create_comparison, scenario_item.
  rewrite Hactions, Hframes, Hname. cbn [mbind except_bind].
  destruct (generate_video image video model_a reference_image actions frames);
    [|reflexivity].
  cbn [mbind except_bind].
  destruct (generate_video image video model_b reference_image actions frames);
    [|reflexivity].
  cbn [mbind except_bind].
  now destruct (randomize_order && Numpy.ltb (random_random env) (1 # 2)).
Qed.
End CreateComparisonProperties.

Section CreateComparisonSamples.
Import ABTesting Created.

Lemma create_comparison_labels_follow_videos_witness :
  exists actions frames video_a video_b,
    Sample.scenario !! "actions" = Some actions
    /\ Sample.scenario !! "duration_frames" = Some frames
    /\ generate_video unit unit Sample.matrix_model tt actions frames
       = Ok video_a
    /\ generate_video unit unit Sample.genie_model tt actions frames
       = Ok video_b
    /\ model_a_name (Samples.created).1 = "matrix"
    /\ model_b_name (Samples.created).1 = "genie"
    /\ if swapped Sample.draw true then
         randomized_labels (Samples.created).1 !! "A" = Some "genie"
         /\ videos unit (Samples.created).2
              !! model_a_video_path (Samples.created).1 = Some video_b
         /\ randomized_labels (Samples.created).1 !! "B" = Some "matrix"
         /\ videos unit (Samples.created).2
              !! model_b_video_path (Samples.created).1 = Some video_a
       else
         randomized_labels (Samples.created).1 !! "A" = Some "matrix"
         /\ videos unit (Samples.created).2
              !! model_a_video_path (Samples.created).1 = Some video_a
         /\ randomized_labels (Samples.created).1 !! "B" = Some "genie"
         /\ videos unit (Samples.created).2
              !! model_b_video_path (Samples.created).1 = Some video_b.
Proof.
  apply (create_comparison_labels_follow_videos
           Sample.empty_framework (Samples.created).2 Sample.draw
           Sample.matrix_model Sample.genie_model Sample.scenario tt true
           (Samples.created).1).
  vm_compute. reflexivity.
Defined.

Lemma create_comparison_keeps_other_comparisons_witness :
  get_comparison unit (Samples.created).2 (uuid4 Sample.draw)
  = Some (Samples.created).1
  /\ (forall id, Store.contains_char "/"%char id = false ->
        id <> uuid4 Sample.draw ->
        get_comparison unit (Samples.created).2 id
        = get_comparison unit Sample.empty_framework id)
  /\ results unit (Samples.created).2 = results unit Sample.empty_framework.
Proof.
  apply (create_comparison_keeps_other_comparisons
           Sample.empty_framework (Samples.created).2 Sample.draw
           Sample.matrix_model Sample.genie_model Sample.scenario tt true
           (Samples.created).1).
  - vm_compute. reflexivity.
  - reflexivity.
Defined.

Lemma create_comparison_needs_scenario_name_witness :
  create_comparison unit unit Sample.empty_framework Sample.draw
    Samples.failing_model Sample.genie_model Samples.nameless_scenario tt true
  = match generate_video unit unit Samples.failing_model tt (AActions [])
            (AInt 65) with
    | Raise e => Raise e
    | Ok _ =>
        match generate_video unit unit Sample.genie_model tt (AActions [])
                (AInt 65) with
        | Raise e => Raise e
        | Ok _ => Raise KeyError
        end
    end.
Proof.
  apply (create_comparison_needs_scenario_name
           Sample.empty_framework Sample.draw Samples.failing_model
           Sample.genie_model Samples.nameless_scenario tt true
           (AActions []) (AInt 65));
    reflexivity.
Defined.
End CreateComparisonSamples.

Module LoadFacts.
Import ABTesting Store StringFacts StoreFacts.

Section WithVideo.
Context {video : Type}.

Lemma map_filter_snd {A B : Type} (f : B -> bool) (l : list (A * B)) :
  map snd (List.filter (fun entry => f (snd entry)) l)
  = List.filter f (map snd l).
Proof.
  induction l as [|[a b] l IH]; cbn; [reflexivity|].
  destruct (f b); cbn; now rewrite IH.
Qed.

(** The loop of [_load_all_comparisons] from any dictionary. *)
Lemma load_comparisons_from (fw : ABTestingFramework video) (id : string)
    (entries : list (string * VideoComparison)) :
  forall acc : gmap string VideoComparison,
    fold_left (fun comparisons entry =>
        let comp_id := remove ".json" (fst entry) in
        match get_comparison video fw comp_id with
        | Some comparison => <[comp_id := comparison]> comparisons
        | None => comparisons
        end) entries acc !! id
    = if existsb (fun entry => String.eqb (remove ".json" (fst entry)) id) entries
      then match get_comparison video fw id with
           | Some c => Some c
           | None => acc !! id
           end
      else acc !! id.
Proof.
  induction entries as [|[name x] entries IH]; intros acc; [reflexivity|].
  cbn [fold_left existsb fst]. rewrite IH. cbv zeta.
  destruct (String.eqb_spec (remove ".json" name) id) as [->|Hne]; cbn [orb].
  - destruct (get_comparison video fw id) as [c|] eqn:Hc.
    + destruct (existsb _ entries); [reflexivity|apply lookup_insert_eq].
    + now destruct (existsb _ entries).
  - destruct (get_comparison video fw (remove ".json" name)) as [c'|];
      [|reflexivity].
    rewrite lookup_insert_ne by exact Hne. reflexivity.
Qed.

Lemma loaded_is_stored (fw : ABTestingFramework video) (id : string)
    (c : VideoComparison) :
  _load_all_comparisons video fw !! id = Some c ->
  get_comparison video fw id = Some c.
Proof.
  unfold _load_all_comparisons.
  rewrite load_comparisons_from, lookup_empty.
  destruct (existsb _ _); [|discriminate].
  now destruct (get_comparison video fw id).
Qed.

Lemma load_plain_id (fw : ABTestingFramework video) (id : string) :
  contains_char "."%char id = false ->
  contains_char "/"%char id = false ->
  _load_all_comparisons video fw !! id = get_comparison video fw id.
Proof.
  intros Hdot Hslash. unfold _load_all_comparisons.
  rewrite load_comparisons_from, lookup_empty.
  destruct (get_comparison video fw id) as [c|] eqn:Hc;
    [|now destruct (existsb _ _)].
  assert (Hex : existsb (fun entry : string * VideoComparison =>
                   String.eqb (remove ".json" (fst entry)) id)
                  (json_files (comparisons_dir video fw)
                     (comparisons video fw)) = true).
  { apply existsb_exists. exists (String.append id ".json", c). split.
    - unfold json_files. apply filter_In. split.
      + apply list_elem_of_In, elem_of_dir_entries. split; [exact Hc|].
        rewrite contains_char_append, Hslash. reflexivity.
      + apply endswith_append.
    - cbn [fst]. rewrite remove_json_extension by exact Hdot.
      apply String.eqb_refl. }
  now rewrite Hex.
Qed.
End WithVideo.

End LoadFacts.

Section StoreProperties.
Import ABTesting Store StringFacts StoreFacts LoadFacts.
Context {video : Type}.

(** X4.  Recording an evaluation under a fresh id without a slash adds
    exactly that result to what [get_results_for_comparison] returns for
    its comparison, and changes nothing for any other comparison (the
    results of a comparison are compared up to the order of the directory
    listing). *)
Theorem recorded_result_is_returned (fw : ABTestingFramework video)
    (env : ambient) (comparison_id evaluator_id : string)
    (dimension_scores : odict string) (detailed_ratings : odict Z)
    (completion_time_seconds : Q) :
  contains_char "/"%char (uuid4 env) = false ->
  results video fw !! result_path video fw (uuid4 env) = None ->
  let recorded := record_evaluation_result video fw env comparison_id
                    evaluator_id dimension_scores detailed_ratings
                    completion_time_seconds in
  result_comparison_id (fst recorded) = comparison_id
  /\ forall id,
       get_results_for_comparison video (snd recorded) id
       ≡ₚ (if String.eqb comparison_id id then [fst recorded] else [])
          ++ get_results_for_comparison video fw id.
Proof.
  intros Hslash Hfresh recorded. split; [reflexivity|]. intros id.
  unfold get_results_for_comparison, recorded, record_evaluation_result.
  cbn [fst snd results result_id]. unfold results_dir at 1.
  cbn [output_dir]. fold (results_dir video fw).
  unfold result_path in *.
  set (r := {| result_id := uuid4 env;
               result_comparison_id := comparison_id;
               ABTesting.evaluator_id := evaluator_id;
               ABTesting.dimension_scores := dimension_scores;
               ABTesting.detailed_ratings := detailed_ratings;
               ABTesting.completion_time_seconds := completion_time_seconds;
               submitted_at := datetime_now env |}).
  assert (Hfiles :
    json_files (results_dir video fw)
      (<[path_join (results_dir video fw) (String.append (uuid4 env) ".json") := r]>
         (results video fw))
    ≡ₚ (String.append (uuid4 env) ".json", r)
       :: json_files (results_dir video fw) (results video fw)).
  { apply json_files_insert; [exact Hfresh| |apply endswith_append].
    rewrite contains_char_append, Hslash. reflexivity. }
  etransitivity.
  { apply Permutation_map, filter_Permutation, Hfiles. }
  cbn [List.filter snd result_comparison_id r].
  destruct (String.eqb comparison_id id); reflexivity.
Qed.


(** X5.  The results the framework returns for one comparison are the
    results the analyzer loads, restricted to that comparison and in the
    same order. *)
Theorem results_for_comparison_of_loaded (fw : ABTestingFramework video)
    (comparison_id : string) :
  get_results_for_comparison video fw comparison_id
  = List.filter (fun r => String.eqb (result_comparison_id r) comparison_id)
      (_load_all_results video fw).
Proof.
  unfold get_results_for_comparison, _load_all_results.
  apply (map_filter_snd
           (fun r => String.eqb (result_comparison_id r) comparison_id)).
Qed.

(** X6.  Whatever the analyzer loads under an id is what [get_comparison]
    returns for that id; and for an id without a dot or a slash the two
    agree entirely: a stored comparison is loaded, a missing one is not. *)
Theorem loaded_comparisons_are_stored (fw : ABTestingFramework video) :
  (forall id c, _load_all_comparisons video fw !! id = Some c ->
                get_comparison video fw id = Some c)
  /\ (forall id,
        contains_char "."%char id = false ->
        contains_char "/"%char id = false ->
        _load_all_comparisons video fw !! id = get_comparison video fw id).
Proof.
  split; [apply loaded_is_stored | apply load_plain_id].
Qed.
End StoreProperties.

Section CreateThenLoad.
Import ABTesting Store CreateFacts LoadFacts.
Context {image video : Type}.

(** X7.  A comparison created under an id without a dot or a slash (as
    the ids [uuid4] draws are) is among the comparisons the analyzer loads
    afterwards, so no evaluation result that refers to it is an orphan for
    the aggregation. *)
Theorem created_comparison_is_loaded
    (fw fw' : ABTestingFramework video) (env : ambient)
    (model_a model_b : BaseWorldModel image video) (scenario : gmap string any)
    (reference_image : image) (randomize_order : bool) (c : VideoComparison) :
  create_comparison image video fw env model_a model_b scenario
    reference_image randomize_order = Ok (c, fw') ->
  contains_char "."%char (uuid4 env) = false ->
  contains_char "/"%char (uuid4 env) = false ->
  _load_all_comparisons video fw' !! uuid4 env = Some c
  /\ forall r, result_comparison_id r = uuid4 env ->
       Spec.orphaned (_load_all_comparisons video fw') r = false.
Proof.
  intros Hcreate Hdot Hslash.
  assert (Hload : _load_all_comparisons video fw' !! uuid4 env = Some c).
  { rewrite load_plain_id by assumption.
    destruct (create_comparison_Ok _ _ _ _ _ _ _ _ _ Hcreate)
      as (_ & _ & _ & video_a & video_b & _ & _ & _ & _ & _ & Hfw & Hid & _).
    cbv zeta in Hfw. rewrite Hfw. unfold get_comparison, comparison_path.
    cbn [_save_comparison _save_video comparisons output_dir comparisons_dir].
    rewrite Hid. apply lookup_insert_eq. }
  split; [exact Hload|].
  intros r Hr. unfold Spec.orphaned. now rewrite Hr, Hload.
Qed.
End CreateThenLoad.

Section StoreSamples.
Import ABTesting Store.

Lemma created_comparison_is_loaded_witness :
  _load_all_comparisons unit (Samples.created).2 !! uuid4 Sample.draw
  = Some (Samples.created).1
  /\ forall r, result_comparison_id r = uuid4 Sample.draw ->
       Spec.orphaned (_load_all_comparisons unit (Samples.created).2) r = false.
Proof.
  apply (created_comparison_is_loaded
           Sample.empty_framework (Samples.created).2 Sample.draw
           Sample.matrix_model Sample.genie_model Sample.scenario tt true
           (Samples.created).1);
    vm_compute; reflexivity.
Defined.

Lemma recorded_result_is_returned_witness :
  let recorded := record_evaluation_result unit Sample.empty_framework
                    Sample.draw "c1" "e1" [("overall_quality", "A")] [] 42 in
  result_comparison_id (fst recorded) = "c1"
  /\ forall id,
       get_results_for_comparison unit (snd recorded) id
       ≡ₚ (if String.eqb "c1" id then [fst recorded] else [])
          ++ get_results_for_comparison unit Sample.empty_framework id.
Proof.
  apply (recorded_result_is_returned (video := unit) Sample.empty_framework
           Sample.draw "c1" "e1" [("overall_quality", "A")] [] 42);
    reflexivity.
Defined.
End StoreSamples.

(** ** Dictionaries updated by key in a loop *)

Section KeyedFold.
Context {A V : Type}.
Variables (key : A -> string) (upd : V -> A -> V) (d0 : V).

(** After the loop, a key holds the updates of the elements with that key,
    in order, applied to what it held before (or to the default). *)
Lemma od_get_keyed_fold (k : string) (l : list A) : forall acc,
  od_get k (fold_left (fun acc a =>
              od_set (key a) (upd (default d0 (od_get (key a) acc)) a) acc)
            l acc)
  = match List.filter (fun a => String.eqb (key a) k) l with
    | [] => od_get k acc
    | mine => Some (fold_left upd mine (default d0 (od_get k acc)))
    end.
Proof.
  induction l as [|a l IH]; intros acc; [reflexivity|].
  cbn [fold_left List.filter]. rewrite IH.
  rewrite od_get_set, (String.eqb_sym k (key a)).
  destruct (String.eqb_spec (key a) k) as [->|Hne].
  - cbn [default]. now destruct (List.filter _ l).
  - reflexivity.
Qed.

Lemma keyed_fold_wf (l : list A) : forall acc,
  od_wf acc ->
  od_wf (fold_left (fun acc a =>
           od_set (key a) (upd (default d0 (od_get (key a) acc)) a) acc)
         l acc).
Proof.
  induction l as [|a l IH]; intros acc Hwf; [exact Hwf|].
  cbn [fold_left]. apply IH. now apply od_set_wf.
Qed.
End KeyedFold.

Module KappaMore.
Import Analyzer KappaFacts.

Lemma fold_snoc {A : Type} (l : list A) : forall acc,
  fold_left (fun v a => v ++ [a]) l acc = acc ++ l.
Proof.
  induction l as [|a l IH]; intros acc; cbn; [now rewrite app_nil_r|].
  now rewrite IH, <- app_assoc.
Qed.

Lemma od_get_group_results (id : string) (results : list EvaluationResult) :
  od_get id (group_results results)
  = match List.filter (fun r => String.eqb (result_comparison_id r) id) results with
    | [] => None
    | mine => Some mine
    end.
Proof.
  unfold group_results.
  refine (eq_trans (od_get_keyed_fold result_comparison_id
                      (fun v r => v ++ [r]) [] id results []) _).
  destruct (List.filter _ results) as [|r mine] eqn:E; [reflexivity|].
  now rewrite fold_snoc.
Qed.

Lemma group_results_wf (results : list EvaluationResult) :
  od_wf (group_results results).
Proof.
  exact (keyed_fold_wf result_comparison_id (fun v r => v ++ [r]) []
           results [] (NoDup_nil_2 : od_wf [])).
Qed.

Lemma In_group_results (id : string) (rs results : list EvaluationResult) :
  In (id, rs) (group_results results) ->
  rs = List.filter (fun r => String.eqb (result_comparison_id r) id) results
  /\ rs <> [].
Proof.
  intros Hin. apply In_od_get in Hin; [|apply group_results_wf].
  rewrite od_get_group_results in Hin.
  destruct (List.filter _ results); [discriminate|].
  injection Hin as <-. split; [reflexivity|discriminate].
Qed.

Lemma no_eligible_rows dimension grouped : forall rating_matrix,
  Forall (fun entry => Spec.eligible entry = false) grouped ->
  for_each (add_rating_row dimension) grouped rating_matrix = Ok rating_matrix.
Proof.
  induction grouped as [|[id rs] grouped IH]; intros rm Hall; [reflexivity|].
  apply Forall_cons in Hall as [H Hall]. cbn [for_each].
  unfold add_rating_row at 1. unfold Spec.eligible in H. cbn [snd] in H.
  destruct (length rs <? 2)%nat; [|discriminate]. now apply IH.
Qed.

(** The votes of the rating matrix, read off the entries: an evaluation
    without an entry is among the votes for "Equal". *)
Lemma votes_for_recorded (choice dimension : string)
    (results : list EvaluationResult) :
  Spec.votes_for choice dimension results
  = (Spec.recorded choice dimension results
     + if String.eqb "Equal" choice then Spec.abstaining dimension results
       else 0)%Z.
Proof.
  unfold Spec.votes_for, Spec.recorded, Spec.abstaining, Spec.vote,
    Spec.abstains.
  induction results as [|r results IH]; cbn [List.filter length].
  - now destruct (String.eqb "Equal" choice).
  - destruct (od_get dimension (dimension_scores r)) as [c|];
      cbn [from_option id].
    + destruct (String.eqb c choice); cbn [length];
        destruct (String.eqb "Equal" choice); lia.
    + destruct (String.eqb "Equal" choice); cbn [length]; lia.
Qed.

Lemma choices_valid_votes (dimension : string)
    (results : list EvaluationResult) :
  Spec.choices_valid dimension results ->
  Forall (fun r => Spec.valid_choice (Spec.vote dimension r)) results.
Proof.
  intros Hvalid. apply List.Forall_forall. intros r Hr. unfold Spec.vote.
  destruct (od_get dimension (dimension_scores r)) as [c|] eqn:E;
    [exact (Hvalid r c Hr E)|].
  right. now right.
Qed.

Lemma NoDup_filter_keys {V : Type} (f : string * V -> bool) (d : odict V) :
  od_wf d -> NoDup (map fst (List.filter f d)).
Proof.
  unfold od_wf, od_keys. induction d as [|[k v] d IH]; intros Hwf;
    [constructor|].
  cbn [map fst] in Hwf. apply NoDup_cons in Hwf as [Hk Hwf].
  cbn [List.filter]. destruct (f (k, v)); [|now apply IH].
  cbn [map fst]. apply NoDup_cons. split; [|now apply IH].
  intros Hin. apply Hk. apply list_elem_of_In in Hin. apply list_elem_of_In.
  apply in_map_iff in Hin as (e & He & Hin). apply in_map_iff.
  exists e. split; [exact He|]. now apply List.filter_In in Hin as [Hin _].
Qed.

End KappaMore.

Section KappaProperties.
Import Analyzer KappaFacts KappaMore.

(** X8.  Grouping by comparison keeps, under each comparison id that
    occurs, exactly the results of that comparison in their original
    order; an id that does not occur has no entry, and no id has two. *)
Theorem group_results_by_comparison (results : list EvaluationResult)
    (id : string) :
  od_get id (group_results results)
  = match List.filter (fun r => String.eqb (result_comparison_id r) id) results with
    | [] => None
    | mine => Some mine
    end
  /\ od_wf (group_results results).
Proof. split; [apply od_get_group_results | apply group_results_wf]. Qed.

(** X9.  When no comparison has two evaluations, the reliability
    computation returns the empty dictionary and raises nothing, whatever
    the evaluations chose. *)
Theorem reliability_empty_without_pairs (results : list EvaluationResult) :
  (forall id,
     length (List.filter (fun r => String.eqb (result_comparison_id r) id)
               results) < 2) ->
  calculate_inter_rater_reliability results = Ok [].
Proof.
  intros Hsmall.
  assert (Hnone : Forall (fun entry => Spec.eligible entry = false)
                    (group_results results)).
  { apply List.Forall_forall. intros [id rs] Hin.
    apply In_group_results in Hin as [-> _].
    unfold Spec.eligible. cbn [snd]. specialize (Hsmall id).
    apply Nat.ltb_lt in Hsmall. now rewrite Hsmall. }
  unfold calculate_inter_rater_reliability.
  assert (Hdim : forall dimension kappa_scores,
            kappa_for_dimension (group_results results) kappa_scores dimension
            = Ok kappa_scores).
  { intros dimension kappa_scores. unfold kappa_for_dimension, build_rating_matrix.
    now rewrite (no_eligible_rows dimension _ [] Hnone). }
  unfold canonical_dimensions. cbn [for_each]. now rewrite !Hdim.
Qed.

Lemma reliability_empty_without_pairs_witness :
  calculate_inter_rater_reliability
    [Sample.evaluation "c1" "e1" [("overall_quality", "A")];
     Sample.evaluation "c2" "e1" [("overall_quality", "nonsense")]]
  = Ok [].
Proof.
  apply reliability_empty_without_pairs.
  intros id. cbn [List.filter Sample.evaluation result_comparison_id].
  destruct (String.eqb_spec "c1" id) as [<-|_];
    [|destruct (String.eqb "c2" id)]; cbn; lia.
Defined.

(** X10.  When some comparison has at least two evaluations and every
    evaluation's choice on "overall_quality" (or "Equal" in its absence)
    is one of "A", "B", "Equal", the reliability computation raises
    [TypeError]: the first dimension already has a non-empty rating
    matrix. *)
Theorem reliability_raises_with_pairs (results : list EvaluationResult)
    (id : string) :
  (forall r, In r results ->
             Spec.valid_choice (Spec.vote "overall_quality" r)) ->
  2 <= length (List.filter (fun r => String.eqb (result_comparison_id r) id)
                 results) ->
  calculate_inter_rater_reliability results = Raise TypeError.
Proof.
  intros Hvalid Hpair.
  assert (Hgroups : Forall (fun entry =>
            Forall (fun r => Spec.valid_choice (Spec.vote "overall_quality" r))
              (snd entry))
          (group_results results)).
  { apply group_results_Forall; [constructor|]. now apply List.Forall_forall. }
  assert (Hin : In (id, List.filter (fun r =>
                       String.eqb (result_comparison_id r) id) results)
                  (List.filter Spec.eligible (group_results results))).
  { apply filter_In. split.
    - apply od_get_In. rewrite od_get_group_results.
      destruct (List.filter _ results); [cbn in Hpair; lia|reflexivity].
    - unfold Spec.eligible. cbn [snd].
      destruct (Nat.ltb_spec (length (List.filter (fun r =>
                  String.eqb (result_comparison_id r) id) results)) 2);
        [lia|reflexivity]. }
  unfold calculate_inter_rater_reliability, canonical_dimensions.
  cbn [for_each]. unfold kappa_for_dimension at 1, build_rating_matrix.
  rewrite (build_rating_matrix_from "overall_quality" _ [] Hgroups).
  cbn [app mbind except_bind].
  destruct (List.filter Spec.eligible (group_results results)) as [|e es];
    [destruct Hin|].
  reflexivity.
Qed.

Lemma reliability_raises_with_pairs_witness :
  calculate_inter_rater_reliability Sample.evaluations = Raise TypeError.
Proof.
  apply (reliability_raises_with_pairs Sample.evaluations "c1").
  - intros r Hr. unfold Spec.valid_choice.
    destruct Hr as [<-|[<-|[<-|[<-|[]]]]]; vm_compute; auto.
  - vm_compute. lia.
Defined.
End KappaProperties.

Section KappaVotes.
Import Analyzer KappaFacts KappaMore.

(** C10.  For every dimension, when every entry the evaluations have for
    it is one of "A", "B" and "Equal", the rating matrix has exactly one
    row per comparison with at least two evaluations among the results;
    the row counts that comparison's entries "A", "B" and "Equal", an
    evaluation without an entry for the dimension counting under "Equal";
    and the row adds up to the number of the comparison's evaluations. *)
Theorem missing_dimension_votes_equal (dimension : string)
    (results : list EvaluationResult) :
  Spec.choices_valid dimension results ->
  exists ids rating_matrix,
    build_rating_matrix dimension (group_results results) = Ok rating_matrix
    /\ NoDup ids
    /\ (forall id,
          In id ids <-> 2 <= length (Spec.evaluations_of id results))
    /\ Forall2 (fun id row =>
           let mine := Spec.evaluations_of id results in
           row = [Spec.recorded "A" dimension mine;
                  Spec.recorded "B" dimension mine;
                  (Spec.recorded "Equal" dimension mine
                   + Spec.abstaining dimension mine)%Z]
           /\ row_sum row = Z.of_nat (length mine))
         ids rating_matrix.
Proof.
  intros Hvalid.
  pose proof (choices_valid_votes dimension results Hvalid) as Hvotes.
  assert (Hgroups : Forall (fun entry =>
            Forall (fun r => Spec.valid_choice (Spec.vote dimension r)) (snd entry))
          (group_results results)).
  { apply group_results_Forall; [constructor|exact Hvotes]. }
  exists (map fst (List.filter Spec.eligible (group_results results))).
  eexists. split; [|split; [|split]].
  - unfold build_rating_matrix.
    rewrite (build_rating_matrix_from dimension _ [] Hgroups). reflexivity.
  - apply NoDup_filter_keys, group_results_wf.
  - intros id. unfold Spec.evaluations_of. split.
    + intros Hin. apply in_map_iff in Hin as ([id' rs] & <- & Hin).
      apply List.filter_In in Hin as [Hin Hel].
      apply In_group_results in Hin as [-> _]. cbn [fst].
      unfold Spec.eligible in Hel. cbn [snd] in Hel.
      apply negb_true_iff, Nat.ltb_ge in Hel. exact Hel.
    + intros Hlen. apply in_map_iff.
      exists (id, List.filter (fun r =>
                    String.eqb (result_comparison_id r) id) results).
      split; [reflexivity|]. apply List.filter_In. split.
      * apply od_get_In. rewrite od_get_group_results.
        destruct (List.filter _ results); [cbn in Hlen; lia|reflexivity].
      * unfold Spec.eligible. cbn [snd].
        apply negb_true_iff, Nat.ltb_ge. exact Hlen.
  - cbn [app].
    assert (Hentries : forall entry,
              In entry (List.filter Spec.eligible (group_results results)) ->
              snd entry = Spec.evaluations_of (fst entry) results).
    { intros [id rs] Hin. apply List.filter_In in Hin as [Hin _].
      now apply In_group_results in Hin as [-> _]. }
    induction (List.filter Spec.eligible (group_results results))
      as [|[id rs] entries IH]; cbn [map]; constructor.
    + specialize (Hentries (id, rs) (or_introl eq_refl)).
      cbn [fst snd] in *. subst rs. cbv zeta.
      set (mine := Spec.evaluations_of id results).
      assert (Hmine : Forall (fun r =>
                  Spec.valid_choice (Spec.vote dimension r)) mine).
      { apply List.Forall_forall. intros r Hr.
        apply List.filter_In in Hr as [Hr _].
        rewrite List.Forall_forall in Hvotes. now apply Hvotes. }
      rewrite !votes_for_recorded.
      cbn [String.eqb Ascii.eqb Bool.eqb]. rewrite !Z.add_0_r.
      split; [reflexivity|].
      rewrite <- (votes_total dimension mine Hmine), !votes_for_recorded.
      cbn [String.eqb Ascii.eqb Bool.eqb row_sum fold_right]. lia.
    + apply IH. intros entry Hin. apply Hentries. now right.
Qed.

Lemma missing_dimension_votes_equal_witness :
  exists ids rating_matrix,
    build_rating_matrix "controllability" (group_results Sample.evaluations)
    = Ok rating_matrix
    /\ NoDup ids
    /\ (forall id,
          In id ids <-> 2 <= length (Spec.evaluations_of id Sample.evaluations))
    /\ Forall2 (fun id row =>
           let mine := Spec.evaluations_of id Sample.evaluations in
           row = [Spec.recorded "A" "controllability" mine;
                  Spec.recorded "B" "controllability" mine;
                  (Spec.recorded "Equal" "controllability" mine
                   + Spec.abstaining "controllability" mine)%Z]
           /\ row_sum row = Z.of_nat (length mine))
         ids rating_matrix.
Proof.
  apply (missing_dimension_votes_equal "controllability" Sample.evaluations).
  intros r c Hr Hc. unfold Spec.valid_choice.
  destruct Hr as [<-|[<-|[<-|[<-|[]]]]]; vm_compute in Hc;
    try discriminate Hc; injection Hc as <-; auto.
Defined.
End KappaVotes.

Section InterpretationProperties.
Import Report.

(** X11.  The interpretation of kappa never weakens as kappa grows: for
    kappa1 <= kappa2 the label of kappa2 is at least as strong as the
    label of kappa1, in the order poor, slight, fair, moderate,
    substantial, almost perfect. *)
Theorem interpret_kappa_monotone (kappa1 kappa2 : Q) :
  (kappa1 <= kappa2)%Q ->
  agreement_rank (_interpret_kappa kappa1)
  <= agreement_rank (_interpret_kappa kappa2).
Proof.
  intros Hle. unfold _interpret_kappa, Numpy.ltb.
  repeat match goal with
         | |- context [Qle_bool ?a ?b] =>
             let E := fresh "E" in
             destruct (Qle_bool a b) eqn:E;
             [apply Qle_bool_iff in E
             |assert (~ (a <= b)%Q)
                by (intros Hc; apply Qle_bool_iff in Hc; congruence); clear E]
         end;
    cbn [negb]; try (cbn; lia); exfalso; lra.
Qed.

Lemma interpret_kappa_monotone_witness :
  agreement_rank (_interpret_kappa (35 # 100))
  <= agreement_rank (_interpret_kappa (61 # 100)).
Proof.
  apply interpret_kappa_monotone. vm_compute. discriminate.
Defined.
End InterpretationProperties.

(** ** Evaluation quality *)

Module QualityFacts.
Import Quality.

Lemma map_except_Ok {A B : Type} (f : A -> except B) (g : A -> B) (l : list A) :
  (forall x, In x l -> f x = Ok (g x)) ->
  map_except f l = Ok (map g l).
Proof.
  induction l as [|x l IH]; intros H; [reflexivity|].
  cbn [map_except map]. rewrite (H x) by now left.
  rewrite IH; [reflexivity|]. intros y Hy. apply H. now right.
Qed.

(** What the updates of one evaluator's results add up to. *)
Lemma add_results (mine : list EvaluationResult) : forall s,
  num_evaluations (fold_left add_result mine s)
  = (num_evaluations s + Z.of_nat (length mine))%Z
  /\ total_time (fold_left add_result mine s)
     == total_time s + Numpy.sum (map completion_time_seconds mine).
Proof.
  induction mine as [|r mine IH]; intros s; cbn [fold_left length map Numpy.sum fold_right].
  - split; [lia|ring].
  - destruct (IH (add_result s r)) as [Hn Ht]. rewrite Hn, Ht.
    cbn [add_result num_evaluations total_time]. split; [lia|].
    unfold Numpy.sum. ring.
Qed.

Lemma stats_count_set (k : string) (v : stats) (d : odict stats) :
  stats_count (od_set k v d)
  = (stats_count d + num_evaluations v
     - num_evaluations (default fresh_stats (od_get k d)))%Z.
Proof.
  induction d as [|[k0 v0] d IH]; cbn [od_set od_get].
  - cbn. lia.
  - destruct (String.eqb k k0).
    + cbn. lia.
    + change (stats_count ((k0, v0) :: od_set k v d))
        with (num_evaluations v0 + stats_count (od_set k v d))%Z.
      change (stats_count ((k0, v0) :: d))
        with (num_evaluations v0 + stats_count d)%Z.
      rewrite IH. lia.
Qed.

Lemma stats_count_collect (results : list EvaluationResult) : forall acc,
  stats_count (fold_left collect results acc)
  = (stats_count acc + Z.of_nat (length results))%Z.
Proof.
  induction results as [|r results IH]; intros acc; cbn [fold_left length].
  - lia.
  - rewrite IH. unfold collect. rewrite stats_count_set.
    cbn [add_result num_evaluations]. lia.
Qed.

Lemma od_get_collect (evaluator : string) (results : list EvaluationResult) :
  od_get evaluator (fold_left collect results [])
  = match results_of evaluator results with
    | [] => None
    | mine => Some (fold_left add_result mine fresh_stats)
    end.
Proof.
  exact (od_get_keyed_fold evaluator_id add_result fresh_stats
           evaluator results []).
Qed.

Lemma collect_wf (results : list EvaluationResult) :
  od_wf (fold_left collect results []).
Proof.
  exact (keyed_fold_wf evaluator_id add_result fresh_stats results []
           (NoDup_nil_2 : od_wf [])).
Qed.

End QualityFacts.

Section QualityProperties.
Import Quality QualityFacts.

(** X12.  [analyze_evaluation_quality] never raises (no evaluator entry
    has a zero count to divide by).  It reports the number of results as
    [total_evaluations]; [evaluator_details] has one entry per evaluator
    id, as many as [unique_evaluators]; an entry's count is the number of
    that evaluator's results and its [avg_time] the mean of their
    completion times; and the counts of the entries add up to
    [total_evaluations]. *)
Theorem evaluation_quality_counts (np_log2 : Q -> Q)
    (results : list EvaluationResult) :
  exists m,
    analyze_evaluation_quality np_log2 results = Ok m
    /\ total_evaluations m = length results
    /\ unique_evaluators m = length (evaluator_details m)
    /\ NoDup (map detail_evaluator_id (evaluator_details m))
    /\ total_count (evaluator_details m) = Z.of_nat (length results)
    /\ forall d, In d (evaluator_details m) ->
         let mine := results_of (detail_evaluator_id d) results in
         mine <> []
         /\ detail_num_evaluations d = Z.of_nat (length mine)
         /\ detail_avg_time d == Numpy.mean (map completion_time_seconds mine).
Proof.
  set (evaluator_stats := fold_left collect results []).
  set (g := fun entry : string * stats =>
         let choices := choices_of (dimension_variance (snd entry)) in
         {| detail_evaluator_id := fst entry;
            detail_num_evaluations := num_evaluations (snd entry);
            detail_avg_time :=
              (total_time (snd entry) / inject_Z (num_evaluations (snd entry)))%Q;
            response_entropy := entropy np_log2 choices;
            unique_responses := length (nodup string_dec choices) |}).
  assert (Hentry : forall ev s, In (ev, s) evaluator_stats ->
            let mine := results_of ev results in
            mine <> [] /\ s = fold_left add_result mine fresh_stats).
  { intros ev s Hin. apply In_od_get in Hin; [|apply collect_wf].
    unfold evaluator_stats in Hin. rewrite od_get_collect in Hin.
    cbv zeta. destruct (results_of ev results) as [|r mine]; [discriminate|].
    injection Hin as <-. split; [discriminate|reflexivity]. }
  assert (Hnum : forall ev s, In (ev, s) evaluator_stats ->
            num_evaluations s = Z.of_nat (length (results_of ev results))
            /\ (0 < num_evaluations s)%Z).
  { intros ev s Hin. destruct (Hentry ev s Hin) as [Hne ->].
    destruct (add_results (results_of ev results) fresh_stats) as [-> _].
    cbn [fresh_stats num_evaluations].
    destruct (results_of ev results); [congruence|]. cbn [length]. lia. }
  assert (Hdescribe : forall entry, In entry evaluator_stats ->
            describe np_log2 entry = Ok (g entry)).
  { intros [ev s] Hin. destruct (Hnum ev s Hin) as [_ Hpos].
    unfold describe, float_truediv.
    assert (E : Qeq_bool (inject_Z (num_evaluations s)) 0 = false).
    { destruct (Qeq_bool _ 0) eqn:E; [|reflexivity].
      apply Qeq_bool_iff in E. unfold Qeq in E. cbn in E. exfalso. lia. }
    now rewrite E. }
  exists {| total_evaluations := length results;
            unique_evaluators := length evaluator_stats;
            avg_time_per_evaluation := np_mean (map completion_time_seconds results);
            median_time_per_evaluation :=
              np_median (map completion_time_seconds results);
            evaluator_details := map g evaluator_stats |}.
  split.
  { unfold analyze_evaluation_quality. fold evaluator_stats.
    now rewrite (map_except_Ok _ g _ Hdescribe). }
  cbn [total_evaluations unique_evaluators evaluator_details].
  split; [reflexivity|]. split; [now rewrite length_map|]. split.
  { rewrite map_map. exact (collect_wf results). }
  split.
  { transitivity (stats_count evaluator_stats).
    - unfold total_count, stats_count. clear.
      induction evaluator_stats as [|e l IH]; [reflexivity|].
      cbn [map fold_right]. now rewrite IH.
    - unfold evaluator_stats. rewrite stats_count_collect. reflexivity. }
  intros d Hd. apply in_map_iff in Hd as ([ev s] & <- & Hin).
  cbn [g detail_evaluator_id detail_num_evaluations detail_avg_time fst snd].
  destruct (Hentry ev s Hin) as [Hne Hs]. destruct (Hnum ev s Hin) as [Hn _].
  cbv zeta. split; [exact Hne|]. split; [exact Hn|].
  rewrite Hn. rewrite Hs.
  destruct (add_results (results_of ev results) fresh_stats) as [_ ->].
  cbn [fresh_stats total_time]. unfold Numpy.mean, Numpy.of_nat.
  rewrite length_map. now rewrite Qplus_0_l.
Qed.
End QualityProperties.

(** ** More on the tests *)

Section BinomialProperties.
Import StatisticalTests.BinomialTest.

(** X13.  With at least one trial, testing A against B and B against A
    (same ties, same treatment of ties) gives win rates that add up to 1,
    whenever both tests return. *)
Theorem binomial_win_rates_complementary (binom_test : Q -> Z -> except Q)
    (binom_interval : Q -> Z -> Q -> Q * Q)
    (wins_a wins_b ties : Z) (exclude_ties : bool) (r1 r2 : result) :
  trials wins_a wins_b ties exclude_ties <> 0%Z ->
  binomial_test binom_test binom_interval wins_a wins_b ties exclude_ties
  = Ok r1 ->
  binomial_test binom_test binom_interval wins_b wins_a ties exclude_ties
  = Ok r2 ->
  (win_rate_a r1 + win_rate_a r2 == 1)%Q.
Proof.
  intros Hn. unfold binomial_test.
  assert (Hswap : trials wins_b wins_a ties exclude_ties
                  = trials wins_a wins_b ties exclude_ties).
  { unfold trials. destruct exclude_ties; lia. }
  rewrite Hswap.
  destruct (Z.eqb_spec (trials wins_a wins_b ties exclude_ties) 0) as [|_];
    [contradiction|].
  destruct (binom_test (successes wins_a wins_b ties exclude_ties) _);
    [|discriminate].
  destruct (binom_test (successes wins_b wins_a ties exclude_ties) _);
    [|discriminate].
  cbn [mbind except_bind]. intros [= <-] [= <-]. cbn [win_rate_a].
  assert (Hq : ~ (inject_Z (trials wins_a wins_b ties exclude_ties) == 0)%Q).
  { unfold Qeq. cbn. lia. }
  revert Hq. unfold successes, trials. destruct exclude_ties; intros Hq.
  - rewrite inject_Z_plus in *. field. exact Hq.
  - rewrite !inject_Z_plus in *. field. exact Hq.
Qed.

Lemma binomial_win_rates_complementary_witness :
  exists r1 r2,
    binomial_test Scipy.binom_test (fun _ _ _ => (0, 0)%Q) 7 3 2 false = Ok r1
    /\ binomial_test Scipy.binom_test (fun _ _ _ => (0, 0)%Q) 3 7 2 false = Ok r2
    /\ (win_rate_a r1 + win_rate_a r2 == 1)%Q.
Proof.
  eexists. eexists. split; [vm_compute; reflexivity|].
  split; [vm_compute; reflexivity|].
  apply (binomial_win_rates_complementary Scipy.binom_test
           (fun _ _ _ => (0, 0)%Q) 7 3 2 false).
  - vm_compute. discriminate.
  - vm_compute. reflexivity.
  - vm_compute. reflexivity.
Defined.
End BinomialProperties.

Section McNemarProperties.
Import StatisticalTests.McNemar.

(** X14.  For off-diagonal counts between 0 and 2^31 (where no sum,
    difference or square overflows) the reported statistic is never
    negative, and it is the same for a table and for its transpose (the
    two models exchanged), whenever both tests return. *)
Theorem mcnemar_statistic_symmetric (binom_test : Q -> Z -> except Q)
    (chi2_sf : Q -> Q) (a b c d : Z) (r1 r2 : result) :
  (0 <= b < 2 ^ 31)%Z -> (0 <= c < 2 ^ 31)%Z ->
  mcnemar_test binom_test chi2_sf [[a; b]; [c; d]] = Ok r1 ->
  mcnemar_test binom_test chi2_sf [[a; c]; [b; d]] = Ok r2 ->
  statistic r1 = statistic r2 /\ (0 <= statistic r1)%Q.
Proof.
  intros Hb Hc. unfold mcnemar_test.
  change (2 ^ 31)%Z with 2147483648%Z in Hb, Hc.
  assert (Hfits : forall z, (- 2 ^ 63 <= z < 2 ^ 63)%Z -> Numpy.int64 z = z).
  { intros z Hz. unfold Numpy.int64.
    change (2 ^ 63)%Z with 9223372036854775808%Z in *.
    change (2 ^ 64)%Z with 18446744073709551616%Z.
    rewrite Z.mod_small; lia. }
  change (2 ^ 63)%Z with 9223372036854775808%Z in Hfits.
  replace (c + b)%Z with (b + c)%Z by lia.
  rewrite (Hfits (b + c)%Z) by lia.
  rewrite (Hfits (b - c)%Z), (Hfits (c - b)%Z) by lia.
  replace ((c - b) ^ 2)%Z with ((b - c) ^ 2)%Z by lia.
  replace (Z.abs (c - b)) with (Z.abs (b - c)) by lia.
  rewrite (Hfits ((b - c) ^ 2)%Z) by (rewrite Z.pow_2_r; nia).
  rewrite (Hfits (Z.abs (b - c))) by lia.
  rewrite (Hfits (Z.abs (b - c) - 1)%Z) by lia.
  rewrite (Hfits ((Z.abs (b - c) - 1) ^ 2)%Z) by (rewrite Z.pow_2_r; nia).
  assert (Hnonneg : forall n m : Z, (0 <= n)%Z -> (0 < m)%Z ->
            (0 <= inject_Z n / inject_Z m)%Q).
  { intros n m Hn Hm. apply Qle_shift_div_l.
    - change 0%Q with (inject_Z 0). rewrite <- Zlt_Qlt. exact Hm.
    - rewrite Qmult_0_l. change 0%Q with (inject_Z 0). rewrite <- Zle_Qle.
      exact Hn. }
  destruct (Z.eqb_spec (b + c) 0) as [H0|H0].
  - intros [= <-] [= <-]. cbn. split; [reflexivity|discriminate].
  - destruct (b + c <? 25)%Z.
    + destruct (binom_test (inject_Z b) (b + c)%Z); [|discriminate].
      destruct (binom_test (inject_Z c) (b + c)%Z); [|discriminate].
      cbn [mbind except_bind]. intros [= <-] [= <-]. cbn [statistic].
      split; [reflexivity|]. apply Hnonneg; nia.
    + intros [= <-] [= <-]. cbn [statistic].
      split; [reflexivity|]. apply Hnonneg; nia.
Qed.

Lemma mcnemar_statistic_symmetric_witness :
  exists r1 r2,
    mcnemar_test Scipy.binom_test (fun x => x) [[10; 8]; [3; 4]]%Z = Ok r1
    /\ mcnemar_test Scipy.binom_test (fun x => x) [[10; 3]; [8; 4]]%Z = Ok r2
    /\ statistic r1 = statistic r2 /\ (0 <= statistic r1)%Q.
Proof.
  eexists. eexists. split; [vm_compute; reflexivity|].
  split; [vm_compute; reflexivity|].
  apply (mcnemar_statistic_symmetric Scipy.binom_test (fun x => x) 10 8 3 4).
  - lia.
  - lia.
  - vm_compute. reflexivity.
  - vm_compute. reflexivity.
Defined.
End McNemarProperties.

Module PercentileFacts.

Lemma insert_sorted_length (x : Q) (xs : list Q) :
  length (Numpy.insert_sorted x xs) = S (length xs).
Proof.
  induction xs as [|y ys IH]; cbn; [reflexivity|].
  destruct (Numpy.leb x y); cbn; [reflexivity|now rewrite IH].
Qed.

Lemma sort_length (xs : list Q) : length (Numpy.sort xs) = length xs.
Proof.
  induction xs as [|x xs IH]; [reflexivity|].
  change (Numpy.sort (x :: xs)) with (Numpy.insert_sorted x (Numpy.sort xs)).
  now rewrite insert_sorted_length, IH.
Qed.

Lemma insert_sorted_In (x y : Q) (xs : list Q) :
  In y (Numpy.insert_sorted x xs) -> y = x \/ In y xs.
Proof.
  induction xs as [|z zs IH]; cbn.
  - intros [<-|[]]. now left.
  - destruct (Numpy.leb x z); cbn.
    + intros [<-|H]; [now left|now right].
    + intros [<-|H]; [right; now left|].
      destruct (IH H) as [->|H']; [now left|right; now right].
Qed.

Lemma insert_sorted_sorted (x : Q) (xs : list Q) :
  StronglySorted Qle xs -> StronglySorted Qle (Numpy.insert_sorted x xs).
Proof.
  induction 1 as [|y ys Hys IH Hy]; cbn.
  - repeat constructor.
  - unfold Numpy.leb. destruct (Qle_bool x y) eqn:E.
    + apply Qle_bool_iff in E. constructor; [now constructor|].
      constructor; [exact E|].
      rewrite List.Forall_forall in *. intros z Hz.
      apply Qle_trans with y; auto.
    + assert (Hyx : (y <= x)%Q).
      { apply Qlt_le_weak, Qnot_le_lt. intros H.
        apply Qle_bool_iff in H. congruence. }
      constructor; [exact IH|].
      rewrite List.Forall_forall in *. intros z Hz.
      apply insert_sorted_In in Hz as [->|Hz]; auto.
Qed.

Lemma sort_sorted (xs : list Q) : StronglySorted Qle (Numpy.sort xs).
Proof.
  induction xs as [|x xs IH]; [constructor|].
  change (Numpy.sort (x :: xs)) with (Numpy.insert_sorted x (Numpy.sort xs)).
  now apply insert_sorted_sorted.
Qed.

Lemma sorted_nth (s : list Q) : StronglySorted Qle s ->
  forall i j, (i <= j)%nat -> (j < length s)%nat ->
  (nth i s 0 <= nth j s 0)%Q.
Proof.
  induction 1 as [|y ys Hys IH Hy]; intros i j Hij Hj; [cbn in Hj; lia|].
  destruct i as [|i], j as [|j]; cbn [nth]; cbn [length] in Hj.
  - apply Qle_refl.
  - rewrite List.Forall_forall in Hy. apply Hy, nth_In. lia.
  - lia.
  - apply IH; lia.
Qed.

Lemma scaled_between (d f : Q) :
  (0 <= d)%Q -> (0 <= f)%Q -> (f <= 1)%Q -> (0 <= d * f)%Q /\ (d * f <= d)%Q.
Proof.
  intros Hd Hf Hf1. split.
  - now apply Qmult_le_0_compat.
  - pose proof (Qmult_le_compat_r f 1 d Hf1 Hd) as H. lra.
Qed.

Lemma interpolate_monotone (s : list Q) (pos1 pos2 : Q) :
  StronglySorted Qle s ->
  (0 <= pos1)%Q -> (pos1 <= pos2)%Q ->
  (pos2 <= Numpy.of_nat (length s - 1))%Q -> (0 < length s)%nat ->
  (Interpolation.interpolate s pos1 <= Interpolation.interpolate s pos2)%Q.
Proof.
  intros Hs H0 H12 Hmax Hlen. unfold Interpolation.interpolate.
  set (lo1 := Qfloor pos1). set (lo2 := Qfloor pos2).
  assert (Hlo1 : (0 <= lo1)%Z).
  { change 0%Z with (Qfloor 0). now apply Qfloor_resp_le. }
  assert (Hlo12 : (lo1 <= lo2)%Z) by now apply Qfloor_resp_le.
  assert (Hlo2 : (lo2 <= Z.of_nat (length s - 1))%Z).
  { unfold lo2. rewrite <- (Qfloor_Z (Z.of_nat (length s - 1))).
    now apply Qfloor_resp_le. }
  pose proof (Qfloor_le pos1) as Hf1. pose proof (Qlt_floor pos1) as Hf1'.
  pose proof (Qfloor_le pos2) as Hf2. pose proof (Qlt_floor pos2) as Hf2'.
  fold lo1 in Hf1, Hf1'. fold lo2 in Hf2, Hf2'.
  rewrite inject_Z_plus in Hf1', Hf2'.
  change (inject_Z 1) with 1%Q in Hf1', Hf2'.
  assert (Habove : forall lo : Z, (0 <= lo <= Z.of_nat (length s - 1))%Z ->
            (nth (Z.to_nat lo) s 0 <= nth (Z.to_nat lo + 1) s (nth (Z.to_nat lo) s 0))%Q).
  { intros lo Hlo.
    destruct (Nat.lt_ge_cases (Z.to_nat lo + 1) (length s)) as [Hin|Hout].
    - rewrite (nth_indep s _ 0%Q Hin). apply sorted_nth; [exact Hs|lia|exact Hin].
    - rewrite (nth_overflow s _ Hout). apply Qle_refl. }
  set (below1 := nth (Z.to_nat lo1) s 0%Q) in *.
  set (below2 := nth (Z.to_nat lo2) s 0%Q) in *.
  pose proof (Habove lo1 ltac:(lia)) as Ha1. fold below1 in Ha1.
  pose proof (Habove lo2 ltac:(lia)) as Ha2. fold below2 in Ha2.
  set (above1 := nth (Z.to_nat lo1 + 1) s below1) in *.
  set (above2 := nth (Z.to_nat lo2 + 1) s below2) in *.
  destruct (Z.eq_dec lo1 lo2) as [Heq|Hne].
  - assert (below1 = below2) as Hb by (unfold below1, below2; now rewrite Heq).
    assert (above1 = above2) as Ha.
    { unfold above1, above2. now rewrite Hb, Heq. }
    rewrite <- Hb, <- Ha, <- Heq.
    assert (Hd : (0 <= above1 - below1)%Q) by lra.
    assert (Hfr : (0 <= (pos2 - inject_Z lo1) - (pos1 - inject_Z lo1))%Q) by lra.
    pose proof (Qmult_le_0_compat _ _ Hd Hfr) as Hprod.
    ring_simplify in Hprod. ring_simplify. lra.
  - assert (Hmid : (above1 <= below2)%Q).
    { unfold above1, below2.
      assert (Hin : (Z.to_nat lo1 + 1 < length s)%nat) by lia.
      rewrite (nth_indep s _ 0%Q Hin).
      apply sorted_nth; [exact Hs|lia|lia]. }
    destruct (scaled_between (above1 - below1) (pos1 - inject_Z lo1))
      as [_ Hup1]; [lra|lra|lra|].
    destruct (scaled_between (above2 - below2) (pos2 - inject_Z lo2))
      as [Hlow2 _]; [lra|lra|lra|].
    lra.
Qed.

Lemma percentile_interpolate (xs : list Q) (q : Q) :
  Numpy.percentile xs q
  = Interpolation.interpolate (Numpy.sort xs) (q / 100 * Numpy.of_nat (length xs - 1)).
Proof. reflexivity. Qed.

Lemma percentile_monotone (xs : list Q) (q1 q2 : Q) :
  xs <> [] -> (0 <= q1)%Q -> (q1 <= q2)%Q -> (q2 <= 100)%Q ->
  (Numpy.percentile xs q1 <= Numpy.percentile xs q2)%Q.
Proof.
  intros Hne H0 H12 H100. rewrite !percentile_interpolate.
  assert (Hn : (0 <= Numpy.of_nat (length xs - 1))%Q).
  { unfold Numpy.of_nat. change 0%Q with (inject_Z 0). rewrite <- Zle_Qle. lia. }
  unfold Qdiv. change (/ 100)%Q with (1 # 100)%Q.
  apply interpolate_monotone.
  - apply sort_sorted.
  - apply Qmult_le_0_compat; [|exact Hn]. lra.
  - apply Qmult_le_compat_r; [|exact Hn]. lra.
  - rewrite sort_length.
    pose proof (Qmult_le_compat_r (q2 * (1 # 100)) 1 _ ltac:(lra) Hn) as H.
    lra.
  - rewrite sort_length. destruct xs; [congruence|cbn; lia].
Qed.

End PercentileFacts.

Module BootstrapMore.
Import StatisticalTests.Bootstrap.

Section WithGenerator.
Variable RandomState : Type.
Variable np_random_choice : list Q -> nat -> RandomState -> list Q * RandomState.

Lemma resample_once_length scores_a scores_b diffs g :
  length (fst (resample_once RandomState np_random_choice scores_a scores_b
                 (diffs, g)))
  = S (length diffs).
Proof.
  unfold resample_once.
  destruct (np_random_choice scores_a (length scores_a) g) as [sample_a g1].
  destruct (np_random_choice scores_b (length scores_b) g1) as [sample_b g2].
  cbn [fst]. rewrite length_app. cbn [length]. lia.
Qed.

(** Every pass of the loop adds one difference. *)
Lemma resample_length scores_a scores_b n : forall st,
  length (fst (resample RandomState np_random_choice scores_a scores_b n st))
  = length (fst st) + n.
Proof.
  induction n as [|n IH]; intros [diffs g]; cbn [resample fst]; [lia|].
  rewrite IH.
  destruct (resample_once RandomState np_random_choice scores_a scores_b
              (diffs, g)) as [diffs' g'] eqn:E.
  pose proof (resample_once_length scores_a scores_b diffs g) as H.
  rewrite E in H. cbn [fst] in *. lia.
Qed.
End WithGenerator.

Lemma fraction_nonneg (mask : list bool) : (0 <= fraction mask)%Q.
Proof.
  unfold fraction, Qdiv, Numpy.of_nat. apply Qmult_le_0_compat.
  - change 0%Q with (inject_Z 0). rewrite <- Zle_Qle. lia.
  - apply Qinv_le_0_compat. change 0%Q with (inject_Z 0).
    rewrite <- Zle_Qle. lia.
Qed.

End BootstrapMore.

Section BootstrapProperties.
Import StatisticalTests.Bootstrap PercentileFacts BootstrapMore.

(** X15.  For non-empty lists of scores between 0 and 1 (the outcomes
    of comparisons), at least one resample and a confidence level between
    0.5 and 1, the reported interval is ordered, [ci_lower <= ci_upper],
    and the reported p-value lies between 0 and 1, whatever the generator
    draws. *)
Theorem bootstrap_interval_ordered (RandomState : Type)
    (np_random_choice : list Q -> nat -> RandomState -> list Q * RandomState)
    (scores_a scores_b : list Q) (n_bootstrap : nat) (confidence_level : Q)
    (g : RandomState) :
  scores_a <> [] -> scores_b <> [] ->
  Forall (fun x => 0 <= x /\ x <= 1)%Q scores_a ->
  Forall (fun x => 0 <= x /\ x <= 1)%Q scores_b ->
  (0 < n_bootstrap)%nat ->
  (1 # 2 <= confidence_level)%Q -> (confidence_level <= 1)%Q ->
  let r := fst (bootstrap_confidence_interval RandomState np_random_choice
                  scores_a scores_b n_bootstrap confidence_level g) in
  (ci_lower r <= ci_upper r)%Q /\ (0 <= p_value r)%Q /\ (p_value r <= 1)%Q.
Proof.
  intros _ _ _ _ Hn Hc0 Hc1. unfold bootstrap_confidence_interval.
  pose proof (resample_length RandomState np_random_choice scores_a scores_b
                n_bootstrap ([], g)) as Hlen.
  destruct (resample RandomState np_random_choice scores_a scores_b
              n_bootstrap ([], g)) as [diffs g'].
  cbn [fst length] in Hlen. cbn [fst ci_lower ci_upper p_value].
  split; [|split].
  - apply percentile_monotone.
    + destruct diffs; [cbn in Hlen; lia|discriminate].
    + unfold Qdiv. change (/ 2)%Q with (1 # 2)%Q. lra.
    + unfold Qdiv. change (/ 2)%Q with (1 # 2)%Q. lra.
    + unfold Qdiv. change (/ 2)%Q with (1 # 2)%Q. lra.
  - apply Q.min_glb; [|discriminate].
    destruct (Numpy.ltb 0 (Numpy.mean scores_a - Numpy.mean scores_b));
      (apply Qmult_le_0_compat; [discriminate|apply fraction_nonneg]).
  - apply Q.le_min_r.
Qed.

Lemma bootstrap_interval_ordered_witness :
  let r := fst (bootstrap_confidence_interval Z lcg_choice
                  Sample.scores_a Sample.scores_b 4 (95 # 100) 1%Z) in
  (ci_lower r <= ci_upper r)%Q /\ (0 <= p_value r)%Q /\ (p_value r <= 1)%Q.
Proof.
  apply (bootstrap_interval_ordered Z lcg_choice).
  - discriminate.
  - discriminate.
  - repeat constructor; discriminate.
  - repeat constructor; discriminate.
  - lia.
  - discriminate.
  - discriminate.
Defined.
End BootstrapProperties.

(** ** Bradley-Terry: the models, the design, the fit *)

Module ModelsFacts.
Import StatisticalTests.BradleyTerry BradleyTerryParts.

Lemma compare_refl (s : string) : String.compare s s = Eq.
Proof.
  pose proof (String.compare_antisym s s) as H.
  destruct (String.compare s s); [reflexivity|discriminate|discriminate].
Qed.

Lemma ltb_irrefl (s : string) : String.ltb s s = false.
Proof. unfold String.ltb. now rewrite compare_refl. Qed.

Lemma ltb_le (a b : string) :
  String.ltb a b = true <-> String.le a b /\ a <> b.
Proof.
  unfold String.ltb, String.le, String.leb. split.
  - destruct (String.compare a b) eqn:E; try discriminate.
    intros _. split; [exact I|]. intros ->. rewrite compare_refl in E.
    discriminate.
  - intros [Hle Hne]. destruct (String.compare a b) eqn:E.
    + apply String.compare_eq_iff in E. contradiction.
    + reflexivity.
    + destruct Hle.
Qed.

Lemma name_lt_trans (a b c : string) :
  name_lt a b -> name_lt b c -> name_lt a c.
Proof.
  unfold name_lt. rewrite !ltb_le. intros [Hab Hne] [Hbc Hne'].
  split; [now transitivity b|].
  intros ->. apply Hne. now apply (anti_symm String.le).
Qed.

Lemma name_lt_total (a b : string) :
  String.eqb a b = false -> String.ltb a b = false -> name_lt b a.
Proof.
  intros Hne Hlt. apply String.eqb_neq in Hne. unfold name_lt, String.ltb in *.
  rewrite String.compare_antisym.
  destruct (String.compare a b) eqn:E; cbn.
  - apply String.compare_eq_iff in E. contradiction.
  - discriminate.
  - reflexivity.
Qed.

Lemma In_insert_model (x m : string) (ms : list string) :
  In x (insert_model m ms) <-> x = m \/ In x ms.
Proof.
  induction ms as [|y ys IH]; cbn [insert_model].
  - cbn. intuition.
  - destruct (String.eqb_spec m y) as [->|Hne].
    + cbn. intuition.
    + destruct (String.ltb m y); cbn [In].
      * intuition.
      * rewrite IH. intuition.
Qed.

Lemma insert_model_sorted (m : string) (ms : list string) :
  StronglySorted name_lt ms -> StronglySorted name_lt (insert_model m ms).
Proof.
  induction 1 as [|y ys Hys IH Hy]; cbn [insert_model].
  - repeat constructor.
  - destruct (String.eqb m y) eqn:Heq; [now constructor|].
    destruct (String.ltb m y) eqn:Hlt.
    + constructor; [now constructor|].
      constructor; [exact Hlt|].
      rewrite List.Forall_forall in *. intros z Hz.
      apply name_lt_trans with y; [exact Hlt|auto].
    + constructor; [exact IH|].
      rewrite List.Forall_forall in *. intros z Hz.
      apply In_insert_model in Hz as [->|Hz]; [|auto].
      now apply name_lt_total.
Qed.

Lemma models_sorted (names : list string) :
  StronglySorted name_lt (fold_right insert_model [] names).
Proof.
  induction names as [|x names IH]; cbn [fold_right]; [constructor|].
  now apply insert_model_sorted.
Qed.

Lemma In_models (x : string) (names : list string) :
  In x (fold_right insert_model [] names) <-> In x names.
Proof.
  induction names as [|y names IH]; cbn [fold_right]; [reflexivity|].
  rewrite In_insert_model, IH. cbn. intuition.
Qed.

Lemma sorted_NoDup (ms : list string) : StronglySorted name_lt ms -> NoDup ms.
Proof.
  induction 1 as [|y ys Hys IH Hy]; [apply NoDup_nil_2|].
  apply NoDup_cons. split; [|exact IH].
  intros Hin. apply list_elem_of_In in Hin.
  rewrite List.Forall_forall in Hy. specialize (Hy _ Hin).
  unfold name_lt in Hy. rewrite ltb_irrefl in Hy. discriminate.
Qed.

Lemma models_of_NoDup (rows : list row) : NoDup (models_of rows).
Proof. apply sorted_NoDup, models_sorted. Qed.

Lemma In_models_of (m : string) (rows : list row) :
  In m (models_of rows)
  <-> exists r, In r rows /\ (model_a r = m \/ model_b r = m).
Proof.
  unfold models_of. rewrite In_models, in_app_iff, !in_map_iff. split.
  - intros [(r & <- & Hr)|(r & <- & Hr)]; exists r; auto.
  - intros (r & Hr & [<-|<-]); [left|right]; exists r; auto.
Qed.

Lemma index_of_In (m : string) (ms : list string) :
  In m ms -> exists i, index_of m ms = Some i /\ i < length ms.
Proof.
  induction ms as [|y ys IH]; [intros []|]. cbn [index_of length].
  intros Hin. destruct (String.eqb_spec m y) as [->|Hne].
  - exists 0. split; [reflexivity|lia].
  - destruct Hin as [->|Hin]; [contradiction|].
    destruct (IH Hin) as (i & -> & Hi). exists (S i). split; [reflexivity|lia].
Qed.

Lemma contrast_length (n i j : nat) : length (contrast n i j) = n - 1.
Proof.
  unfold contrast.
  destruct (0 <? i)%nat, (0 <? j)%nat; rewrite ?length_insert;
    apply repeat_length.
Qed.

End ModelsFacts.

Section OrderedDictAppend.
Context {V : Type}.

Lemma od_set_fresh (k : string) (v : V) (d : odict V) :
  ~ In k (od_keys d) -> od_set k v d = d ++ [(k, v)].
Proof.
  induction d as [|[k0 v0] d IH]; cbn [od_set od_keys map fst In app];
    [reflexivity|].
  intros Hk. destruct (String.eqb_spec k k0) as [->|Hne]; [tauto|].
  rewrite IH; [reflexivity|]. unfold od_keys. tauto.
Qed.

(** Storing under distinct new keys appends the entries in order. *)
Lemma fold_od_set_fresh (f : string -> V) (ks : list string) : forall acc,
  NoDup ks -> (forall k, In k ks -> ~ In k (od_keys acc)) ->
  fold_left (fun acc k => od_set k (f k) acc) ks acc
  = acc ++ map (fun k => (k, f k)) ks.
Proof.
  induction ks as [|k ks IH]; intros acc Hnd Hfresh; cbn [fold_left map].
  - now rewrite app_nil_r.
  - apply NoDup_cons in Hnd as [Hk Hnd].
    rewrite od_set_fresh by (apply Hfresh; now left).
    rewrite IH; [now rewrite <- app_assoc|exact Hnd|].
    intros k' Hk'. unfold od_keys. rewrite map_app, in_app_iff. cbn.
    intros [H|[<-|[]]].
    + apply (Hfresh k'); [now right|exact H].
    + apply Hk, list_elem_of_In, Hk'.
Qed.
End OrderedDictAppend.

Module DesignFacts.
Import StatisticalTests.BradleyTerry BradleyTerryParts ModelsFacts.

(** The design loop, from any accumulated design, when the rows' models
    are all known. *)
Lemma design_from (models : list string) (rows : list row) : forall acc,
  (forall r, In r rows -> In (model_a r) models /\ In (model_b r) models) ->
  exists extra,
    for_each (add_comparison models) rows acc
    = Ok {| comparisons := comparisons acc ++ extra;
            outcomes := outcomes acc
                        ++ map (fun r => if String.eqb (winner r) "a"
                                         then 1%Q else 0%Q)
                             (List.filter decisive rows);
            weights := weights acc
                       ++ map (fun r => default 1%Q (weight r))
                            (List.filter decisive rows) |}
    /\ length extra = length (List.filter decisive rows)
    /\ Forall (fun c => length c = length models - 1) extra.
Proof.
  induction rows as [|r rows IH]; intros acc Hknown.
  - exists []. cbn. rewrite !app_nil_r. destruct acc. auto.
  - cbn [for_each List.filter]. unfold add_comparison at 1.
    destruct (decisive r) eqn:Hdec; unfold decisive in Hdec;
      destruct (String.eqb (winner r) "tie") eqn:Htie; try discriminate Hdec.
    2: { apply IH. intros r' Hr'. apply Hknown. now right. }
    destruct (Hknown r ltac:(now left)) as [Ha Hb].
      destruct (index_of_In _ _ Ha) as (ia & Hia & _).
      destruct (index_of_In _ _ Hb) as (ib & Hib & _).
      unfold model_to_idx. rewrite Hia, Hib. cbn [mbind except_bind].
      destruct (IH {| comparisons := comparisons acc
                                     ++ [contrast (length models) ia ib];
                      outcomes := outcomes acc
                                  ++ [if String.eqb (winner r) "a"
                                      then 1%Q else 0%Q];
                      weights := weights acc ++ [default 1%Q (weight r)] |})
        as (extra & Heq & Hlen & Hall).
      { intros r' Hr'. apply Hknown. now right. }
      exists (contrast (length models) ia ib :: extra).
      rewrite Heq. cbn [comparisons outcomes weights map length].
      rewrite <- !app_assoc. cbn [app].
      split; [reflexivity|]. split; [now rewrite Hlen|].
      constructor; [apply contrast_length|exact Hall].
Qed.

Lemma rows_known (rows : list row) :
  forall r, In r rows ->
    In (model_a r) (models_of rows) /\ In (model_b r) (models_of rows).
Proof.
  intros r Hr. split; apply In_models_of; exists r; auto.
Qed.

End DesignFacts.

Section BradleyTerryProperties.
Import StatisticalTests.BradleyTerry BradleyTerryParts ModelsFacts DesignFacts.

(** X16.  The models of a frame are listed in strictly increasing order
    of their names, each once, and they are exactly the names that occur
    as [model_a] or [model_b] of some row. *)
Theorem models_sorted_and_complete (comparison_results : list row) :
  StronglySorted name_lt (models_of comparison_results)
  /\ NoDup (models_of comparison_results)
  /\ forall m,
       In m (models_of comparison_results)
       <-> exists r, In r comparison_results
                     /\ (model_a r = m \/ model_b r = m).
Proof.
  split; [apply models_sorted|]. split; [apply models_of_NoDup|].
  intros m. apply In_models_of.
Qed.

(** X17.  Building the design never raises: every row's models have an
    index.  The design has one contrast, one outcome and one weight per
    row whose winner is not 'tie', and every contrast has one column per
    model but the reference one. *)
Theorem design_is_rectangular (comparison_results : list row) :
  exists d,
    design_of comparison_results = Ok d
    /\ length (comparisons d)
       = length (List.filter decisive comparison_results)
    /\ length (outcomes d) = length (comparisons d)
    /\ length (weights d) = length (comparisons d)
    /\ Forall (fun c => length c = length (models_of comparison_results) - 1)
         (comparisons d).
Proof.
  destruct (design_from (models_of comparison_results) comparison_results
              {| comparisons := []; outcomes := []; weights := [] |}
              (rows_known comparison_results))
    as (extra & Heq & Hlen & Hall).
  eexists. split; [exact Heq|].
  cbn [comparisons outcomes weights app]. rewrite !length_map.
  repeat split; auto.
Qed.

(** X18.  When every row is a tie (or there is no row), no fit is
    attempted: every model gets strength 0 and standard error infinity,
    without a win probability, the models in the order of their names. *)
Theorem bradley_terry_all_ties
    (glm_fit : list (list Q) -> list Q -> list Q -> except (list Q * list Q))
    (np_exp np_log : Q -> Q) (comparison_results : list row) :
  (forall r, In r comparison_results -> winner r = "tie") ->
  bradley_terry_model glm_fit np_exp np_log comparison_results
  = Ok (map (fun m => (m, undecided)) (models_of comparison_results)).
Proof.
  intros Hties.
  destruct (design_from (models_of comparison_results) comparison_results
              {| comparisons := []; outcomes := []; weights := [] |}
              (rows_known comparison_results))
    as (extra & Heq & Hlen & _).
  assert (Hnone : List.filter decisive comparison_results = []).
  { clear - Hties. induction comparison_results as [|r rows IH]; [reflexivity|].
    cbn [List.filter]. unfold decisive at 1.
    rewrite (Hties r) by now left. cbn. apply IH.
    intros r' Hr'. apply Hties. now right. }
  rewrite Hnone in Hlen. destruct extra; [|discriminate].
  unfold bradley_terry_model. rewrite Heq.
  cbn [mbind except_bind comparisons app].
  rewrite (fold_od_set_fresh (fun _ => undecided));
    [reflexivity|apply models_of_NoDup|intros k _ []].
Qed.

Lemma bradley_terry_all_ties_witness :
  bradley_terry_model (fun _ _ _ => Raise PerfectSeparationError)
    (fun x => x) (fun x => x) Samples.drawn_games
  = Ok (map (fun m => (m, undecided)) (models_of Samples.drawn_games)).
Proof.
  apply bradley_terry_all_ties.
  intros r [<-|[<-|[]]]; reflexivity.
Defined.
End BradleyTerryProperties.

Module FitFacts.
Import StatisticalTests.BradleyTerry BradleyTerryParts ModelsFacts DesignFacts.

Lemma zeros_with_tail_full (n : nat) (values : list Q) :
  length values = n ->
  zeros_with_tail n (tl values) = Ok (0%Q :: tl values).
Proof.
  intros Hlen. unfold zeros_with_tail.
  assert (E : (length (tl values) =? n - 1)%nat = true).
  { apply Nat.eqb_eq. destruct values; cbn in *; lia. }
  now rewrite E.
Qed.

Section Loop.
Variable np_exp : Q -> Q.
Variables strs errs : list Q.

Lemma fitted_loop : forall rest seen strs_seen strs_rest errs_seen errs_rest acc,
  NoDup (seen ++ rest) -> od_keys acc = seen ->
  strs = strs_seen ++ strs_rest -> length strs_seen = length seen ->
  errs = errs_seen ++ errs_rest -> length errs_seen = length seen ->
  length strs_rest = length rest -> length errs_rest = length rest ->
  for_each (fun results '(i, model_name) =>
      s ← list_item strs i;
      e ← list_item errs i;
      Ok (od_set model_name
            {| strength := Numpy.Finite s;
               se := Numpy.Finite e;
               win_probability := Some (1 / (1 + np_exp (- s)))%Q |}
            results))
    (combine (seq (length seen) (length rest)) rest) acc
  = Ok (acc ++ map (fitted_entry np_exp) (combine rest (combine strs_rest errs_rest))).
Proof.
  induction rest as [|m rest IH];
    intros seen strs_seen strs_rest errs_seen errs_rest acc Hnd Hkeys HS HSl HE HEl
      HSr HEr.
  - cbn. now rewrite app_nil_r.
  - destruct strs_rest as [|s strs_rest]; [discriminate|].
    destruct errs_rest as [|e errs_rest]; [discriminate|].
    cbn [length seq combine for_each map].
    assert (H1 : list_item strs (length seen) = Ok s).
    { unfold list_item. rewrite HS, nth_error_app2 by lia.
      now rewrite HSl, Nat.sub_diag. }
    assert (H2 : list_item errs (length seen) = Ok e).
    { unfold list_item. rewrite HE, nth_error_app2 by lia.
      now rewrite HEl, Nat.sub_diag. }
    rewrite H1, H2. cbn [mbind except_bind].
    rewrite od_set_fresh.
    2: { rewrite Hkeys. intros Hin. apply NoDup_app in Hnd as (_ & Hdis & _).
         apply (Hdis m); [now apply list_elem_of_In|left]. }
    pose proof (IH (seen ++ [m]) (strs_seen ++ [s]) strs_rest (errs_seen ++ [e])
                  errs_rest
                  (acc ++ [(m, {| strength := Numpy.Finite s;
                                  se := Numpy.Finite e;
                                  win_probability :=
                                    Some (1 / (1 + np_exp (- s)))%Q |})]))
      as IH'.
    rewrite !length_app in IH'. cbn [length] in IH'.
    rewrite !Nat.add_1_r in IH'. rewrite IH'.
    + rewrite <- app_assoc. reflexivity.
    + now rewrite <- app_assoc.
    + unfold od_keys in *. rewrite map_app, Hkeys. reflexivity.
    + now rewrite <- app_assoc.
    + lia.
    + now rewrite <- app_assoc.
    + lia.
    + cbn in HSr. lia.
    + cbn in HEr. lia.
Qed.
End Loop.

End FitFacts.

Section FitProperties.
Import StatisticalTests.BradleyTerry BradleyTerryParts ModelsFacts DesignFacts
  FitFacts.

(** X19.  When some row is decisive and the fit returns one parameter and
    one standard error per model, [bradley_terry_model] returns one entry
    per model, in the order of the names.  The fit's first parameter and
    standard error (the intercept's) are not used: the first model is the
    reference, with raw strength 0 and standard error 0.  Every entry
    holds the model's raw strength minus the mean of the raw strengths,
    its standard error, and the win probability 1 / (1 + exp (- strength))
    of that strength. *)
Theorem bradley_terry_strengths_centred
    (glm_fit : list (list Q) -> list Q -> list Q -> except (list Q * list Q))
    (np_exp np_log : Q -> Q) (comparison_results : list row)
    (d : design) (params bse : list Q) :
  design_of comparison_results = Ok d ->
  comparisons d <> [] ->
  glm_fit (comparisons d) (outcomes d) (weights d) = Ok (params, bse) ->
  length params = length (models_of comparison_results) ->
  length bse = length (models_of comparison_results) ->
  let raw := 0%Q :: tl params in
  bradley_terry_model glm_fit np_exp np_log comparison_results
  = Ok (map (fitted_entry np_exp)
          (combine (models_of comparison_results)
             (combine (map (fun s => s - Numpy.mean raw)%Q raw)
                (0%Q :: tl bse)))).
Proof.
  intros Hdesign Hne Hfit Hparams Hbse.
  set (models := models_of comparison_results) in *.
  assert (Hmodels : models <> []).
  { destruct (design_from models comparison_results
                {| comparisons := []; outcomes := []; weights := [] |}
                (rows_known comparison_results))
      as (extra & Heq & Hlen & _).
    unfold design_of in Hdesign. fold models in Hdesign.
    rewrite Heq in Hdesign. injection Hdesign as <-.
    cbn [comparisons app] in Hne.
    destruct (List.filter decisive comparison_results) as [|r rs] eqn:Hf.
    - destruct extra; [congruence|discriminate].
    - assert (Hr : In r comparison_results).
      { eapply (proj1 (filter_In decisive r comparison_results)).
        rewrite Hf. now left. }
      destruct (rows_known comparison_results r Hr) as [Ha _].
      fold models in Ha. intros E. rewrite E in Ha. destruct Ha. }
  cbv zeta.
  set (strengths := 0%Q :: tl params).
  set (errors := 0%Q :: tl bse).
  set (normalized := map (fun s => s - Numpy.mean strengths)%Q strengths).
  assert (Hls : length strengths = length models).
  { unfold strengths. destruct params; cbn in *; [|lia].
    destruct models; [congruence|discriminate]. }
  assert (Hle : length errors = length models).
  { unfold errors. destruct bse; cbn in *; [|lia].
    destruct models; [congruence|discriminate]. }
  unfold bradley_terry_model. fold models.
  unfold design_of in Hdesign. fold models in Hdesign. rewrite Hdesign.
  cbn [mbind except_bind].
  destruct (comparisons d) as [|c cs] eqn:Hc; [congruence|].
  unfold fitted. rewrite Hc, Hfit. cbn [mbind except_bind].
  rewrite (zeros_with_tail_full (length models) params Hparams).
  cbn [mbind except_bind].
  rewrite (zeros_with_tail_full (length models) bse Hbse).
  cbn [mbind except_bind]. fold strengths errors normalized.
  unfold enumerate.
  pose proof (fitted_loop np_exp normalized errors models [] [] normalized
                [] errors [] (models_of_NoDup comparison_results)
                eq_refl eq_refl eq_refl eq_refl eq_refl) as Hloop.
  cbn [length app] in Hloop. rewrite Hloop; [reflexivity| |exact Hle].
  unfold normalized. now rewrite length_map.
Qed.

Lemma bradley_terry_strengths_centred_witness :
  let raw := 0%Q :: tl [3; 2]%Q in
  bradley_terry_model (fun _ _ _ => Ok ([3; 2]%Q, [1; 1 # 2]%Q))
    (fun x => x) (fun x => x) Sample.decisive
  = Ok (map (fitted_entry (fun x => x))
          (combine (models_of Sample.decisive)
             (combine (map (fun s => s - Numpy.mean raw)%Q raw)
                (0%Q :: tl [1; 1 # 2]%Q)))).
Proof.
  apply (bradley_terry_strengths_centred
           (fun _ _ _ => Ok ([3; 2]%Q, [1; 1 # 2]%Q)) (fun x => x) (fun x => x)
           Sample.decisive
           {| comparisons := [[(-1)%Q]]; outcomes := [1%Q]; weights := [1%Q] |}
           [3; 2]%Q [1; 1 # 2]%Q).
  - reflexivity.
  - discriminate.
  - reflexivity.
  - reflexivity.
  - reflexivity.
Defined.
End FitProperties.

Module CorrectionMore.
Import StatisticalTests.Correction CorrectionParts CorrectionFacts.

Section Loop.
Variable name_of_method : string.
Variables (ps cs : list Q) (rs : list bool).

Lemma stored_loop : forall rest seen ps_seen ps_rest cs_seen cs_rest
    rs_seen rs_rest acc,
  NoDup (seen ++ rest) -> od_keys acc = seen ->
  ps = ps_seen ++ ps_rest -> length ps_seen = length seen ->
  cs = cs_seen ++ cs_rest -> length cs_seen = length seen ->
  rs = rs_seen ++ rs_rest -> length rs_seen = length seen ->
  length ps_rest = length rest -> length cs_rest = length rest ->
  length rs_rest = length rest ->
  for_each (fun results '(i, name) =>
      p ← list_item ps i;
      c ← list_item cs i;
      r ← list_item rs i;
      Ok (od_set name
            {| original_p := p; corrected_p := c; significant := r;
               method := name_of_method |}
            results))
    (combine (seq (length seen) (length rest)) rest) acc
  = Ok (acc ++ map (stored_entry name_of_method)
                 (combine rest (combine ps_rest (combine cs_rest rs_rest)))).
Proof.
  induction rest as [|name rest IH];
    intros seen ps_seen ps_rest cs_seen cs_rest rs_seen rs_rest acc
      Hnd Hkeys HP HPl HC HCl HR HRl HPr HCr HRr.
  - cbn. now rewrite app_nil_r.
  - destruct ps_rest as [|p ps_rest]; [discriminate|].
    destruct cs_rest as [|c cs_rest]; [discriminate|].
    destruct rs_rest as [|r rs_rest]; [discriminate|].
    cbn [length seq combine for_each map].
    assert (H1 : list_item ps (length seen) = Ok p).
    { unfold list_item. rewrite HP, nth_error_app2 by lia.
      now rewrite HPl, Nat.sub_diag. }
    assert (H2 : list_item cs (length seen) = Ok c).
    { unfold list_item. rewrite HC, nth_error_app2 by lia.
      now rewrite HCl, Nat.sub_diag. }
    assert (H3 : list_item rs (length seen) = Ok r).
    { unfold list_item. rewrite HR, nth_error_app2 by lia.
      now rewrite HRl, Nat.sub_diag. }
    rewrite H1, H2, H3. cbn [mbind except_bind].
    rewrite od_set_fresh.
    2: { rewrite Hkeys. intros Hin. apply NoDup_app in Hnd as (_ & Hdis & _).
         apply (Hdis name); [now apply list_elem_of_In|left]. }
    pose proof (IH (seen ++ [name]) (ps_seen ++ [p]) ps_rest
                  (cs_seen ++ [c]) cs_rest (rs_seen ++ [r]) rs_rest
                  (acc ++ [(name, {| original_p := p; corrected_p := c;
                                     significant := r;
                                     method := name_of_method |})]))
      as IH'.
    rewrite !length_app in IH'. cbn [length] in IH'.
    rewrite !Nat.add_1_r in IH'. rewrite IH'.
    + rewrite <- app_assoc. reflexivity.
    + now rewrite <- app_assoc.
    + unfold od_keys in *. rewrite map_app, Hkeys. reflexivity.
    + now rewrite <- app_assoc.
    + lia.
    + now rewrite <- app_assoc.
    + lia.
    + now rewrite <- app_assoc.
    + lia.
    + cbn in HPr. lia.
    + cbn in HCr. lia.
    + cbn in HRr. lia.
Qed.
End Loop.

End CorrectionMore.

Section CorrectionProperties.
Import StatisticalTests.Correction CorrectionParts CorrectionFacts CorrectionMore.

(** X20.  For any method: when the library answers with one decision and
    one corrected p-value per test, [multiple_comparison_correction]
    returns one entry per test name, in the order of the input, holding
    the test's own raw p-value, the corrected p-value and the decision at
    the test's index, and the method's name. *)
Theorem correction_entries_follow_input
    (multipletests : list Q -> string -> except (list bool * list Q))
    (p_values : odict Q) (name_of_method : string)
    (rejected : list bool) (corrected : list Q) :
  od_wf p_values ->
  multipletests (map snd p_values) name_of_method = Ok (rejected, corrected) ->
  length rejected = length p_values ->
  length corrected = length p_values ->
  multiple_comparison_correction multipletests p_values name_of_method
  = Ok (map (stored_entry name_of_method)
          (combine (od_keys p_values)
             (combine (map snd p_values) (combine corrected rejected)))).
Proof.
  intros Hwf Hlib Hr Hc. unfold multiple_comparison_correction.
  rewrite (map_except_items p_values Hwf). cbn [mbind except_bind].
  rewrite Hlib. cbn [mbind except_bind]. unfold enumerate.
  pose proof (stored_loop name_of_method (map snd p_values) corrected rejected
                (od_keys p_values) [] [] (map snd p_values) [] corrected
                [] rejected [] Hwf eq_refl eq_refl eq_refl eq_refl eq_refl
                eq_refl eq_refl) as Hloop.
  cbn [length app] in Hloop. apply Hloop.
  - unfold od_keys. now rewrite !length_map.
  - unfold od_keys. now rewrite length_map.
  - unfold od_keys. now rewrite length_map.
Qed.

Lemma correction_entries_follow_input_witness :
  multiple_comparison_correction
    (fun _ _ => Ok ([true; false], [3 # 100; 4 # 10]%Q))
    [("quality", 1 # 100); ("control", 4 # 10)]%Q "holm"
  = Ok (map (stored_entry "holm")
          (combine ["quality"; "control"]
             (combine [1 # 100; 4 # 10]%Q
                (combine [3 # 100; 4 # 10]%Q [true; false])))).
Proof.
  apply (correction_entries_follow_input
           (fun _ _ => Ok ([true; false], [3 # 100; 4 # 10]%Q))
           [("quality", 1 # 100); ("control", 4 # 10)]%Q "holm"
           [true; false] [3 # 100; 4 # 10]%Q).
  - unfold od_wf. cbn. apply NoDup_cons. split.
    + intros H. apply list_elem_of_singleton in H. discriminate H.
    + apply NoDup_singleton.
  - reflexivity.
  - reflexivity.
  - reflexivity.
Defined.
End CorrectionProperties.

(** ** Batches of comparisons *)

Module BatchFacts.
Import Batch.

Lemma flat_map_length {A B : Type} (f : A -> list B) (l : list A) :
  length (flat_map f l) = list_sum (map (fun x => length (f x)) l).
Proof.
  induction l as [|x l IH]; cbn [flat_map map list_sum fold_right];
    [reflexivity|].
  rewrite length_app, IH. reflexivity.
Qed.

Lemma triangle (d : nat) : forall k,
  2 * list_sum (map (fun i => k + d - (i + 1)) (seq k d)) = d * (d - 1).
Proof.
  induction d as [|d IH]; intros k; [reflexivity|].
  cbn [seq map list_sum fold_right].
  replace (map (fun i => k + S d - (i + 1)) (seq (S k) d))
    with (map (fun i => S k + d - (i + 1)) (seq (S k) d)).
  - specialize (IH (S k)).
    replace (k + S d - (k + 1)) with d by lia.
    replace (S d - 1) with d by lia.
    destruct d as [|d]; [cbn in *; lia|].
    replace (S d - 1) with d in IH by lia. unfold list_sum in IH. nia.
  - apply map_ext. intros i. lia.
Qed.

(** A loop whose every pass adds [c] to a measure of the state adds
    [c] times the number of passes. *)
Lemma for_each_measure {A S : Type} (measure : S -> nat) (c : nat)
    (body : S -> A -> except S) (xs : list A) :
  (forall st x st', body st x = Ok st' -> measure st' = measure st + c) ->
  forall st st', for_each body xs st = Ok st' ->
    measure st' = measure st + length xs * c.
Proof.
  intros Hbody. induction xs as [|x xs IH]; intros st st'; cbn [for_each length].
  - intros [= <-]. lia.
  - destruct (body st x) as [st1|] eqn:E; [|discriminate].
    intros H. rewrite (IH _ _ H), (Hbody _ _ _ E). lia.
Qed.

End BatchFacts.

Section BatchProperties.
Import Batch BatchFacts.

(** X21.  The default pairs of a batch are the pairs of names at
    positions [i < j] of the models' keys: n (n - 1) / 2 pairs for n
    models, and, the keys of a dictionary being distinct, never a model
    paired with itself. *)
Theorem default_pairs_are_distinct (model_names : list string) :
  NoDup model_names ->
  2 * length (default_pairs model_names)
  = length model_names * (length model_names - 1)
  /\ forall a b, In (a, b) (default_pairs model_names) ->
       a <> b /\ In a model_names /\ In b model_names.
Proof.
  intros Hnd. split.
  - unfold default_pairs. rewrite flat_map_length.
    erewrite map_ext; [apply (triangle (length model_names) 0)|].
    intros i. cbn beta. now rewrite length_map, length_seq.
  - intros a b Hin. unfold default_pairs in Hin.
    apply in_flat_map in Hin as (i & Hi & Hin).
    apply in_map_iff in Hin as (j & [= <- <-] & Hj).
    apply in_seq in Hi, Hj.
    split; [|split; apply nth_In; lia].
    intros Heq. apply NoDup_ListNoDup in Hnd.
    apply (proj1 (List.NoDup_nth model_names "") Hnd) in Heq; lia.
Qed.

Lemma default_pairs_are_distinct_witness :
  2 * length (default_pairs ["genie"; "matrix"; "oasis"])
  = length ["genie"; "matrix"; "oasis"] * (length ["genie"; "matrix"; "oasis"] - 1)
  /\ forall a b, In (a, b) (default_pairs ["genie"; "matrix"; "oasis"]) ->
       a <> b /\ In a ["genie"; "matrix"; "oasis"]
       /\ In b ["genie"; "matrix"; "oasis"].
Proof.
  apply default_pairs_are_distinct.
  apply NoDup_ListNoDup. repeat constructor; cbn; intuition discriminate.
Defined.
End BatchProperties.

Section BatchCount.
Import ABTesting Batch BatchFacts.
Context {image video : Type}.

(** X22.  A batch that succeeds returns exactly one comparison per
    scenario, per repetition and per pair of models: the requested pairs,
    or the default ones when none are requested. *)
Theorem batch_creates_every_pair (fw fw' : ABTestingFramework video)
    (env : nat -> ambient)
    (models : odict (BaseWorldModel (option image) video))
    (scenarios : list (gmap string any))
    (reference_images : gmap string image) (pairs_per_scenario : nat)
    (model_pairs : option (list (string * string)))
    (created : list VideoComparison) :
  create_comparison_batch image video fw env models scenarios reference_images
    pairs_per_scenario model_pairs = Ok (created, fw') ->
  length created
  = length scenarios
    * (pairs_per_scenario
       * length (default (default_pairs (od_keys models)) model_pairs)).
Proof.
  set (measure := fun st : progress video => length (snd st)).
  assert (Hpair : forall scenario ref_image st pair st',
            create_pair image video env models scenario ref_image st pair
            = Ok st' -> measure st' = measure st + 1).
  { intros scenario ref_image [[fwa ka] csa] pair st'. unfold create_pair.
    destruct (od_item (fst pair) models); [|discriminate].
    cbn [mbind except_bind].
    destruct (od_item (snd pair) models); [|discriminate].
    cbn [mbind except_bind].
    destruct (create_comparison _ _ _ _ _ _ _ _ _); [|discriminate].
    cbn [mbind except_bind]. intros [= <-]. unfold measure. cbn [snd].
    now rewrite length_app. }
  assert (Hscenario : forall pairs st scenario st',
            create_for_scenario image video env models reference_images
              pairs_per_scenario pairs st scenario = Ok st' ->
            measure st' = measure st + pairs_per_scenario * length pairs).
  { intros pairs st scenario st'. unfold create_for_scenario.
    destruct (scenario_item scenario "name") as [name|]; [|discriminate].
    cbn [mbind except_bind].
    destruct (image_for image reference_images
                (default (AStr "plains") (scenario !! "biome")))
      as [by_biome|]; [|discriminate].
    cbn [mbind except_bind].
    destruct (image_for image reference_images
                (default name (scenario !! "id")))
      as [by_key|]; [|discriminate].
    cbn [mbind except_bind]. intros Hreps.
    apply (for_each_measure measure (length pairs)) in Hreps.
    - now rewrite length_seq in Hreps.
    - intros st1 x st2 Hpairs.
      apply (for_each_measure measure 1) in Hpairs; [lia|].
      intros sta pair stb. apply Hpair. }
  unfold create_comparison_batch.
  set (pairs := match model_pairs with
                | Some pairs => pairs
                | None => default_pairs (od_keys models)
                end).
  replace (default (default_pairs (od_keys models)) model_pairs) with pairs
    by now destruct model_pairs.
  destruct (for_each
              (create_for_scenario image video env models reference_images
                 pairs_per_scenario pairs)
              scenarios (fw, 0, [])) as [[[fw1 k] cs]|] eqn:Hrun;
    [|discriminate].
  cbn [mbind except_bind fst snd]. intros [= <- <-].
  apply (for_each_measure measure _ _ scenarios (Hscenario pairs) _ _ Hrun).
Qed.
End BatchCount.

Section BatchSamples.
Import ABTesting Batch.

Lemma batch_creates_every_pair_witness :
  length (BatchSample.batch).1
  = length [Sample.scenario]
    * (2 * length (default (default_pairs (od_keys BatchSample.models))
                     (Some [("matrix", "genie")]))).
Proof.
  apply (batch_creates_every_pair Sample.empty_framework (BatchSample.batch).2
           BatchSample.draws BatchSample.models [Sample.scenario] ∅ 2
           (Some [("matrix", "genie")]) (BatchSample.batch).1).
  vm_compute. reflexivity.
Defined.
End BatchSamples.

(** ** The tallies of the pairwise tests *)

Module ScriptFacts.
Import AnalyzeResults.

Lemma winner_of_decided (choice : string) :
  winner_of choice = "a" \/ winner_of choice = "b" \/ winner_of choice = "tie".
Proof.
  unfold winner_of.
  destruct (String.eqb choice "A"); [now left|].
  destruct (String.eqb choice "B"); [right; now left|right; now right].
Qed.

(** A loop that keeps [P] at every pass keeps it to the end. *)
Lemma for_each_invariant {A St : Type} (P : St -> Prop)
    (body : St -> A -> except St) (xs : list A) :
  (forall st x st', P st -> body st x = Ok st' -> P st') ->
  forall st st', P st -> for_each body xs st = Ok st' -> P st'.
Proof.
  intros Hbody. induction xs as [|x xs IH]; intros st st' HP; cbn [for_each].
  - now intros [= <-].
  - destruct (body st x) as [st1|] eqn:E; [|discriminate].
    apply IH. exact (Hbody _ _ _ HP E).
Qed.

Lemma comparison_data_decided comparisons results df :
  comparison_data comparisons results = Ok df -> List.Forall decided df.
Proof.
  unfold comparison_data. intros Hloop.
  eapply (for_each_invariant (List.Forall decided));
    [|constructor|exact Hloop].
  clear Hloop. intros rows result rows' Hrows. unfold add_result.
  destruct (comparisons !! result_comparison_id result) as [c|];
    [|now intros [= <-]].
  intros Hloop.
  eapply (for_each_invariant (List.Forall decided));
    [|exact Hrows|exact Hloop].
  intros acc [d choice] acc' Hacc. unfold add_row.
  destruct (Analyzer.label_item c "A") as [a|]; [|discriminate].
  cbn [mbind except_bind].
  destruct (Analyzer.label_item c "B") as [b|]; [|discriminate].
  cbn [mbind except_bind]. intros [= <-].
  apply List.Forall_app. split; [exact Hacc|].
  constructor; [|constructor]. apply winner_of_decided.
Qed.

Lemma dim_data_decided df d rows :
  List.Forall decided df -> dim_data df d = Ok rows -> List.Forall decided rows.
Proof.
  intros Hdf. unfold dim_data. destruct df as [|r df]; [discriminate|].
  intros Hrows.
  assert (rows = List.filter (fun x => String.eqb (dimension x) d) (r :: df))
    as -> by congruence.
  rewrite List.Forall_forall in *.
  intros x Hx. apply List.filter_In in Hx as [Hx _]. now apply Hdf.
Qed.

(** Every row of a pair counts once: as a tie, or as a win of one of the
    two models; when the two names are the same, as a win of both. *)
Lemma tally_decided (rows : list comparison_row) (a b : string) :
  List.Forall decided rows ->
  (if String.eqb a b
   then wins (pair_data rows a b) a + ties (pair_data rows a b)
   else wins (pair_data rows a b) a + wins (pair_data rows a b) b
        + ties (pair_data rows a b))%Z
  = Z.of_nat (length (pair_data rows a b)).
Proof.
  unfold wins, ties, StatisticalTests.BradleyTerry.bool_count, pair_data.
  induction 1 as [|r rows Hr _ IH]; [now destruct (String.eqb a b)|].
  cbn [List.filter].
  destruct (String.eqb_spec a b) as [<-|Hab].
  - destruct (String.eqb_spec (model_a r) a) as [Ha|Ha];
      destruct (String.eqb_spec (model_b r) a) as [Hb|Hb];
      cbn [andb orb]; try exact IH.
    cbn [List.filter]. rewrite Ha, Hb, !String.eqb_refl. cbn [andb orb].
    destruct Hr as [-> | [-> | ->]]; cbn [String.eqb Ascii.eqb Bool.eqb andb orb length];
      cbn [length]; lia.
  - destruct (String.eqb_spec (model_a r) a) as [Ha|Ha];
      destruct (String.eqb_spec (model_b r) b) as [Hb|Hb];
      destruct (String.eqb_spec (model_a r) b) as [Ha'|Ha'];
      destruct (String.eqb_spec (model_b r) a) as [Hb'|Hb'];
      cbn [andb orb]; try exact IH; try congruence;
      cbn [List.filter];
      repeat match goal with
             | |- context [String.eqb ?x ?y] =>
                 lazymatch x with
                 | winner _ => fail
                 | _ => destruct (String.eqb_spec x y); try congruence
                 end
             end;
      cbn [andb orb];
      destruct Hr as [-> | [-> | ->]];
      cbn [String.eqb Ascii.eqb Bool.eqb andb orb length]; lia.
Qed.

(** Results of unknown comparisons and results without scores add no row. *)
Lemma add_results_without_rows comparisons results :
  (forall r, In r results ->
     comparisons !! result_comparison_id r = None \/ dimension_scores r = []) ->
  forall acc, for_each (add_result comparisons) results acc = Ok acc.
Proof.
  induction results as [|r results IH]; intros Hnone acc; [reflexivity|].
  cbn [for_each].
  assert (add_result comparisons acc r = Ok acc) as ->.
  { unfold add_result. destruct (Hnone r (or_introl eq_refl)) as [-> | Hd].
    - reflexivity.
    - destruct (comparisons !! result_comparison_id r); [|reflexivity].
      now rewrite Hd. }
  apply IH. intros r' Hr'. apply Hnone. now right.
Qed.

End ScriptFacts.

Section ScriptProperties.
Import AnalyzeResults ScriptFacts.

(** X23.  In the pairwise tests of the analysis script, the rows of a pair
    of distinct models split into wins of the first, wins of the second
    and ties; for a comparison of a model with itself every decisive row
    is a win of both. *)
Theorem pair_tallies_cover_rows (comparisons : gmap string VideoComparison)
    (results : list EvaluationResult) (comparison_df rows : list comparison_row)
    (d a b : string) :
  comparison_data comparisons results = Ok comparison_df ->
  dim_data comparison_df d = Ok rows ->
  (if String.eqb a b
   then wins (pair_data rows a b) a + ties (pair_data rows a b)
   else wins (pair_data rows a b) a + wins (pair_data rows a b) b
        + ties (pair_data rows a b))%Z
  = Z.of_nat (length (pair_data rows a b)).
Proof.
  intros Hdf Hrows. apply tally_decided.
  eapply dim_data_decided; [|exact Hrows].
  eapply comparison_data_decided. exact Hdf.
Qed.

Lemma pair_tallies_cover_rows_witness :
  (if String.eqb "genie" "matrix"
   then wins (pair_data ScriptSample.overall "genie" "matrix") "genie"
        + ties (pair_data ScriptSample.overall "genie" "matrix")
   else wins (pair_data ScriptSample.overall "genie" "matrix") "genie"
        + wins (pair_data ScriptSample.overall "genie" "matrix") "matrix"
        + ties (pair_data ScriptSample.overall "genie" "matrix"))%Z
  = Z.of_nat (length (pair_data ScriptSample.overall "genie" "matrix")).
Proof.
  apply (pair_tallies_cover_rows Sample.stored Sample.evaluations
           ScriptSample.frame ScriptSample.overall "overall_quality"
           "genie" "matrix"); vm_compute; reflexivity.
Defined.

(** X24.  When no result belongs to a stored comparison, or none carries
    a score, the frame of the analysis script has no row and no column,
    and selecting the rows of a dimension raises [KeyError]. *)
Theorem statistical_tests_need_a_row (comparisons : gmap string VideoComparison)
    (results : list EvaluationResult) (d : string) :
  (forall r, In r results ->
     comparisons !! result_comparison_id r = None \/ dimension_scores r = []) ->
  comparison_data comparisons results ≫= (fun df => dim_data df d)
  = Raise KeyError.
Proof.
  intros Hnone. unfold comparison_data.
  now rewrite (add_results_without_rows comparisons results Hnone).
Qed.

Lemma statistical_tests_need_a_row_witness :
  comparison_data Sample.stored [Sample.orphan]
    ≫= (fun df => dim_data df "overall_quality")
  = Raise KeyError.
Proof.
  apply (statistical_tests_need_a_row Sample.stored [Sample.orphan]
           "overall_quality").
  intros r [<- | []]. left. vm_compute. reflexivity.
Defined.
End ScriptProperties.

(** ** The breakdown by scenario *)

Module ScenarioFacts.
Import ByScenario.

Lemma key_eqb_refl (k : any) : hashable k = true -> key_eqb k k = true.
Proof.
  destruct k as [s|n|q|a]; cbn [hashable key_eqb]; intros H.
  - apply String.eqb_refl.
  - apply Z.eqb_refl.
  - apply Qeq_bool_refl.
  - discriminate.
Qed.

Lemma od_set_not_nil {V : Type} (k : string) (v : V) (d : odict V) :
  od_set k v d <> [].
Proof. destruct d as [|[k' v'] d]; cbn [od_set]; [|destruct (String.eqb k k')]; discriminate. Qed.

Lemma sd_append_under (s : any) (m d : string) (x : Q)
    (ms : Analyzer.scores_table) :
  hashable s = true ->
  sd_append s m d x (under s ms) = Ok (under s (Analyzer.dd_append m d x ms)).
Proof.
  intros Hs. unfold sd_append. rewrite Hs. f_equal.
  assert (Hne : Analyzer.dd_append m d x ms <> [])
    by (unfold Analyzer.dd_append; apply od_set_not_nil).
  destruct ms as [|e ms]; cbn [under sd_get sd_set default]; cbn [under] in *.
  - destruct (Analyzer.dd_append m d x []); [contradiction|reflexivity].
  - rewrite (key_eqb_refl s Hs). cbn [default from_option id].
    destruct (Analyzer.dd_append m d x (e :: ms)); [contradiction|reflexivity].
Qed.

Lemma score_choice_under (s : any) (a b : string) (ms : Analyzer.scores_table)
    (item : string * string) :
  hashable s = true ->
  score_choice s a b (under s ms) item
  = Ok (under s (Analyzer.score_choice a b ms item)).
Proof.
  intros Hs. destruct item as [d choice].
  unfold score_choice, Analyzer.score_choice.
  destruct (String.eqb choice "A"); [|destruct (String.eqb choice "B")];
    rewrite (sd_append_under s _ _ _ _ Hs); cbn [mbind except_bind];
    apply (sd_append_under s _ _ _ _ Hs).
Qed.

Lemma for_each_score_choice_under (s : any) (a b : string)
    (items : list (string * string)) : forall ms,
  hashable s = true ->
  for_each (score_choice s a b) items (under s ms)
  = Ok (under s (fold_left (Analyzer.score_choice a b) items ms)).
Proof.
  induction items as [|item items IH]; intros ms Hs; [reflexivity|].
  cbn [for_each fold_left]. rewrite (score_choice_under s a b ms item Hs).
  apply IH, Hs.
Qed.

Lemma for_each_score_result_under (comparisons : gmap string VideoComparison)
    (s : any) (results : list EvaluationResult) :
  hashable s = true ->
  (forall r c, In r results ->
     comparisons !! result_comparison_id r = Some c -> scenario_of c = s) ->
  forall ms,
    for_each (score_result comparisons) results (under s ms)
    = ms' ← for_each (Analyzer.score_result comparisons) results ms;
      Ok (under s ms').
Proof.
  intros Hs. induction results as [|r results IH]; intros Hall ms;
    [reflexivity|].
  cbn [for_each]. unfold score_result at 1, Analyzer.score_result at 1.
  destruct (comparisons !! result_comparison_id r) as [c|] eqn:Hc.
  - rewrite (Hall r c (or_introl eq_refl) Hc). cbv zeta.
    destruct (Analyzer.label_item c "A") as [a|]; [|reflexivity].
    cbn [mbind except_bind].
    destruct (Analyzer.label_item c "B") as [b|]; [|reflexivity].
    cbn [mbind except_bind].
    rewrite (for_each_score_choice_under s a b _ ms Hs).
    apply IH. intros r' c' Hr'. apply Hall. now right.
  - apply IH. intros r' c' Hr'. apply Hall. now right.
Qed.

Lemma map_flat_map {A B C : Type} (f : B -> C) (g : A -> list B) (l : list A) :
  map f (flat_map g l) = flat_map (fun x => map f (g x)) l.
Proof.
  induction l as [|x l IH]; cbn [flat_map map]; [reflexivity|].
  now rewrite map_app, IH.
Qed.

Lemma scenario_data_under (np_sqrt : Q -> Q) (s : any)
    (ms : Analyzer.scores_table) :
  scenario_data (under s ms)
  = map (in_scenario s) (Analyzer.performance_data np_sqrt ms).
Proof.
  unfold Analyzer.performance_data.
  transitivity
    (flat_map (fun '(m, dimensions) =>
       flat_map (fun '(d, scores) =>
         match scores with
         | [] => []
         | _ :: _ =>
             [ {| scenario := s; model := m; dimension := d;
                  win_rate := Numpy.mean scores;
                  num_evaluations := length scores |} ]
         end) (dimensions : odict (list Q))) ms).
  - destruct ms as [|e ms]; [reflexivity|].
    cbn [under scenario_data flat_map]. apply app_nil_r.
  - rewrite map_flat_map. apply flat_map_ext. intros [m dims].
    rewrite map_flat_map. apply flat_map_ext. intros [d scores].
    destruct scores; reflexivity.
Qed.

End ScenarioFacts.

Section ScenarioProperties.
Import ByScenario ScenarioFacts.

(** X25.  When the comparisons the results refer to all lie in one
    scenario [s] (the same 'biome', or none of them has one and [s] is
    'unknown'), the breakdown by scenario is the overall performance under
    that scenario: the same rows in the same order, each with its model,
    dimension, win rate and number of evaluations, and it raises when and
    as the overall computation raises. *)
Theorem single_scenario_is_overall_performance (np_sqrt : Q -> Q)
    (comparisons : gmap string VideoComparison)
    (results : list EvaluationResult) (s : any) :
  hashable s = true ->
  (forall r c, In r results ->
     comparisons !! result_comparison_id r = Some c -> scenario_of c = s) ->
  analyze_by_scenario comparisons results
  = rows ← Analyzer.calculate_model_performance np_sqrt comparisons results;
    Ok (map (in_scenario s) rows).
Proof.
  intros Hs Hall.
  unfold analyze_by_scenario, Analyzer.calculate_model_performance,
    Analyzer.collect_scores.
  change (@nil (any * Analyzer.scores_table)) with (under s []).
  rewrite (for_each_score_result_under comparisons s results Hs Hall []).
  destruct (for_each (Analyzer.score_result comparisons) results [])
    as [ms|]; [|reflexivity].
  cbn [mbind except_bind]. f_equal. apply scenario_data_under.
Qed.

Lemma single_scenario_is_overall_performance_witness :
  analyze_by_scenario Sample.stored Sample.evaluations
  = rows ← Analyzer.calculate_model_performance (fun x => x) Sample.stored
             Sample.evaluations;
    Ok (map (in_scenario (AStr "unknown")) rows).
Proof.
  apply (single_scenario_is_overall_performance (fun x => x) Sample.stored
           Sample.evaluations (AStr "unknown")); [reflexivity|].
  intros r c Hin Hc. cbn [In Sample.evaluations] in Hin.
  destruct Hin as [<- | [<- | [<- | [<- | []]]]];
    vm_compute in Hc; injection Hc as <-; reflexivity.
Defined.
End ScenarioProperties.
